(** * The chat route of the survey assistant: run orchestration, tool
      dispatch and the search adapter

    A shallow embedding of [src/app/api/chat/route.ts] (the conversational
    endpoint) and of the two search route handlers, and the properties the
    specification states about them.

    The handlers are asynchronous JavaScript talking to remote services.
    They are embedded as computations in a small monad that threads the
    trace of outbound requests and carries JavaScript exceptions; the
    remote services are a record of oracles that answer from the trace so
    far, so every theorem quantifies over every possible behaviour of the
    network. *)

From Stdlib Require Import List String Ascii DecimalString.
From Stdlib Require Import NArith Arith Bool Lia PrimFloat.
Import ListNotations.
Local Open Scope list_scope.
Set Warnings "-register-all".

(** ** JavaScript values *)

Module Js.

(** A JavaScript string is a sequence of UTF-16 code units (each below
    65536; nothing here depends on the bound). *)
Definition code_unit := N.
Definition jsstring := list code_unit.

(** A source literal made of ASCII characters. *)
Definition u16 (s : string) : jsstring :=
  map N_of_ascii (list_ascii_of_string s).

Fixpoint jsstring_eqb (a b : jsstring) : bool :=
  match a, b with
  | [], [] => true
  | x :: a', y :: b' => N.eqb x y && jsstring_eqb a' b'
  | _, _ => false
  end.

(** [String(n)] for a non-negative integer, as template literals print an
    HTTP status. *)
Definition decimal (n : nat) : jsstring :=
  u16 (NilEmpty.string_of_uint (Nat.to_uint n)).

(** Values as [JSON.parse] and the handlers build them; numbers are IEEE
    binary64. An object is its list of own properties, first binding
    first. *)
Inductive JsValue : Type :=
| JsUndefined
| JsNull
| JsBool (b : bool)
| JsNumber (x : float)
| JsString (s : jsstring)
| JsArray (items : list JsValue)
| JsObject (fields : list (jsstring * JsValue)).

(** ToBoolean: [undefined], [null], [false], [0], [-0], [NaN] and the empty
    string are falsy; every array and object is truthy. *)
Definition truthy (v : JsValue) : bool :=
  match v with
  | JsUndefined | JsNull => false
  | JsBool b => b
  | JsNumber x => negb (PrimFloat.eqb x 0 || negb (PrimFloat.eqb x x))
  | JsString s => match s with [] => false | _ :: _ => true end
  | JsArray _ | JsObject _ => true
  end.

(** [a || b] where evaluating [b] has no effect. *)
Definition or_else (a b : JsValue) : JsValue := if truthy a then a else b.

(** [a === "literal"]. *)
Definition strict_eq_string (v : JsValue) (s : jsstring) : bool :=
  match v with
  | JsString t => jsstring_eqb t s
  | _ => false
  end.

Fixpoint lookup (k : jsstring) (fields : list (jsstring * JsValue))
  : option JsValue :=
  match fields with
  | [] => None
  | (k', v) :: rest => if jsstring_eqb k' k then Some v else lookup k rest
  end.

(** What a handler throws and a [catch] clause inspects: whether the value
    is an [Error], its [message], and the [response.data.error.message] an
    axios error carries ([undefined] when a link of that chain is absent). *)
Record Thrown : Type := mkThrown {
  instanceof_Error : bool;
  message : JsValue;
  response_data_error_message : JsValue
}.

(** [new Error(msg)]. *)
Definition new_Error (msg : jsstring) : Thrown :=
  mkThrown true (JsString msg) JsUndefined.

Inductive Completion (A : Type) : Type :=
| Normal (a : A)
| Throw (e : Thrown).
Arguments Normal {A} a.
Arguments Throw {A} e.

End Js.
Import Js.


(** ** Remote services, traces and the handler monad *)

Module Effects.

(** [interface ToolCall] of the chat route. *)
Record ToolFunction : Type := mkToolFunction {
  name : jsstring;
  arguments : jsstring
}.

Record ToolCall : Type := mkToolCall {
  id : jsstring;
  function : ToolFunction
}.

(** One element of the [tool_outputs] array. *)
Record ToolOutput : Type := mkToolOutput {
  tool_call_id : jsstring;
  output : jsstring
}.

Definition Headers := list (jsstring * jsstring).

(** The lines written with [console.error]; progress lines written with
    [console.log] are not modelled. *)
Inductive ErrorLog : Type :=
| Search_endpoint_error (errorText : jsstring)
| Search_execution_error (errorMessage : JsValue)
| Tavily_API_error (errorText : jsstring)
| Run_timeout (status : JsValue)
| Failed_to_cancel_run (detail : JsValue)
| Run_failed
| Unexpected_final_status (status : JsValue)
| Chat_API_error (error : Thrown).

(** What a handler does to the outside world, in order. The axios calls
    are named by the path they address; [SetTimeout ms] is the awaited
    timer of the polling loop. *)
Inductive Event : Type :=
| Post_threads (headers : Headers)
| Post_messages (headers : Headers) (thread : JsValue) (content : JsValue)
| Post_runs (headers : Headers) (thread : JsValue) (assistant_id : jsstring)
| SetTimeout (ms : nat)
| Get_run (headers : Headers) (thread run : JsValue)
| Post_submit_tool_outputs (headers : Headers) (thread run : JsValue)
    (tool_outputs : list ToolOutput)
| Post_cancel (headers : Headers) (thread run : JsValue)
| Get_messages (headers : Headers) (thread : JsValue)
| Fetch (url : jsstring) (body : jsstring)
| ConsoleError (line : ErrorLog).
(* [Fetch url body] is a POST of the JSON text [body] to [url]. *)

Definition Trace := list Event.

(** [statusRes.data]: its [status], and
    [required_action?.submit_tool_outputs?.tool_calls] ([None] when a link
    of the chain is absent). *)
Record RunData : Type := mkRunData {
  run_status : JsValue;
  tool_calls : option (list ToolCall)
}.

(** An element of [messagesRes.data.data], as far as
    [m.role] and [content?.[0]?.text?.value] read it. *)
Record TextContent : Type := mkTextContent { value : option jsstring }.
Record MessageContent : Type := mkMessageContent { text : option TextContent }.
Record Message : Type := mkMessage {
  role : JsValue;
  content : option (list MessageContent)
}.

(** What [fetch] resolves to: [ok], [status] and the two body readers
    [text()] and [json()]. *)
Record FetchResponse : Type := mkFetchResponse {
  ok : bool;
  fetch_status : nat;
  fetch_text : Completion jsstring;
  fetch_json : Completion JsValue
}.

(** The remote services. Each oracle sees the trace up to and including
    the request it answers, and either returns the part of the reply the
    handler reads or throws. *)
Record World : Type := mkWorld {
  axios_post_threads : Trace -> Completion JsValue;
  axios_post_messages : Trace -> Completion unit;
  axios_post_runs : Trace -> Completion JsValue;
  axios_get_run : Trace -> Completion RunData;
  axios_post_submit_tool_outputs : Trace -> Completion unit;
  axios_post_cancel : Trace -> Completion unit;
  axios_get_messages : Trace -> Completion (list Message);
  fetch : Trace -> Completion FetchResponse
}.

(** [process.env]. *)
Record ProcessEnv : Type := mkProcessEnv {
  OPENAI_API_KEY : option jsstring;
  OPENAI_ASSISTANT_ID : option jsstring;
  OPENAI_ORGANIZATION : option jsstring;
  VERCEL_URL : option jsstring;
  TAVILY_API_KEY : option jsstring
}.

(** The value of an environment variable where one is known to be set. *)
Definition env_value (v : option jsstring) : jsstring :=
  match v with Some s => s | None => [] end.

(** Truthiness of an environment variable: unset and empty are falsy. *)
Definition env_truthy (v : option jsstring) : bool :=
  match v with Some (_ :: _) => true | _ => false end.

(** A [NextResponse]: body, status and the headers the handler sets. *)
Record Response : Type := mkResponse {
  body : JsValue;
  status : nat;
  headers : Headers
}.

(** [NextResponse.json(body, { status })]; the status defaults to 200. *)
Definition NextResponse_json (b : JsValue) (st : nat) : Response :=
  mkResponse b st [].

Fixpoint set_header (k v : jsstring) (h : Headers) : Headers :=
  match h with
  | [] => [(k, v)]
  | (k', v') :: rest =>
      if jsstring_eqb k' k then (k, v) :: rest else (k', v') :: set_header k v rest
  end.

(** [response.headers.set(k, v)]. *)
Definition headers_set (k v : jsstring) (r : Response) : Response :=
  mkResponse (body r) (status r) (set_header k v (headers r)).

Fixpoint get_header (k : jsstring) (h : Headers) : option jsstring :=
  match h with
  | [] => None
  | (k', v) :: rest => if jsstring_eqb k' k then Some v else get_header k rest
  end.

(** [response.headers.get(k)]. *)
Definition headers_get (k : jsstring) (r : Response) : option jsstring :=
  get_header k (headers r).

(** The handler monad: the trace so far goes in, a completion and the
    extended trace come out. *)
Definition M (A : Type) : Type := Trace -> Completion A * Trace.

Definition ret {A} (a : A) : M A := fun t => (Normal a, t).

Definition bind {A B} (m : M A) (k : A -> M B) : M B :=
  fun t =>
    match m t with
    | (Normal a, t') => k a t'
    | (Throw e, t') => (Throw e, t')
    end.

Definition throw {A} (e : Thrown) : M A := fun t => (Throw e, t).

(** [try { body } catch (e) { handler }]. *)
Definition try_catch {A} (body : M A) (handler : Thrown -> M A) : M A :=
  fun t =>
    match body t with
    | (Normal a, t') => (Normal a, t')
    | (Throw e, t') => handler e t'
    end.

Definition lift {A} (c : Completion A) : M A := fun t => (c, t).

Definition emit (e : Event) : M unit := fun t => (Normal tt, t ++ [e]).

(** Issue a request and await the oracle's answer. *)
Definition request {A} (e : Event) (oracle : Trace -> Completion A) : M A :=
  fun t => let t' := t ++ [e] in (oracle t', t').

Declare Scope js_scope.
Delimit Scope js_scope with js.
Notation "x <- m ;; k" := (bind m (fun x => k))
  (at level 100, m at next level, right associativity) : js_scope.
Notation "m ;; k" := (bind m (fun _ => k))
  (at level 100, right associativity) : js_scope.

(** [Promise.all(l.map(f))] for callbacks that are serviced in list order;
    the claims below do not depend on how the callbacks interleave. *)
Fixpoint mapM {A B} (f : A -> M B) (l : list A) : M (list B) :=
  match l with
  | [] => ret []
  | a :: l' =>
      (b <- f a ;; bs <- mapM f l' ;; ret (b :: bs))%js
  end.

(** The JavaScript engine's own functions, which the handlers call and
    this development does not define: [JSON.parse] (which throws a
    [SyntaxError] on malformed text), [JSON.stringify], the message of
    the [TypeError] raised by reading property [p] of [undefined] or
    [null], the string of a number, the number of a string, and the
    messages of the [TypeError]s raised by calling what is not a function
    and by converting an object that has no primitive value. *)
Record Engine : Type := mkEngine {
  JSON_parse : jsstring -> Completion JsValue;
  JSON_stringify : JsValue -> jsstring;
  TypeError_message : JsValue -> jsstring -> jsstring;
  Number_toString : float -> jsstring;
  StringToNumber : jsstring -> float;
  not_a_function_message : jsstring -> jsstring;
  not_primitive_message : jsstring
}.

(** [v.p] on a value that is neither [undefined] nor [null]: an own
    property of an object, [undefined] otherwise (none of the property
    names the handlers read is a built-in of strings, numbers or arrays). *)
Definition property (v : JsValue) (p : jsstring) : JsValue :=
  match v with
  | JsObject fields =>
      match lookup p fields with Some x => x | None => JsUndefined end
  | _ => JsUndefined
  end.

(** [v.p], which throws a [TypeError] when [v] is [undefined] or [null]. *)
Definition get_prop (engine : Engine) (v : JsValue) (p : jsstring) : M JsValue :=
  match v with
  | JsUndefined | JsNull =>
      throw (mkThrown true (JsString (TypeError_message engine v p)) JsUndefined)
  | _ => ret (property v p)
  end.

(** Run a handler from the empty trace. *)
Definition run {A} (m : M A) : Completion A * Trace := m [].

End Effects.
Import Effects.
Local Open Scope js_scope.

(** ** Conversions of values that [JSON.parse] built *)

Module Conversion.

Definition and_then {A B} (c : Completion A) (k : A -> Completion B) : Completion B :=
  match c with
  | Normal a => k a
  | Throw e => Throw e
  end.

Fixpoint concat_with (sep : jsstring) (l : list jsstring) : jsstring :=
  match l with
  | [] => []
  | [x] => x
  | x :: rest => x ++ sep ++ concat_with sep rest
  end.

(** The number of elements of an array or of code units of a string, as a
    number. *)
Fixpoint number_of_nat (n : nat) : float :=
  match n with
  | O => 0%float
  | S n' => (number_of_nat n' + 1)%float
  end.

Section Engine.

Variable engine : Engine.

Definition TypeError (msg : jsstring) : Thrown := mkThrown true (JsString msg) JsUndefined.

(** What [ToPrimitive] throws on an object that has no primitive value. *)
Definition not_primitive : Thrown := TypeError (not_primitive_message engine).

(** [String(v)], as a template literal and [Array.prototype.join] convert
    a value. An array is the join of its elements with a comma. A plain
    object is ["[object Object]"], unless it has a [toString] property of
    its own: no value that [JSON.parse] builds is a function, so the
    conversion finds [toString] not callable, goes on to [valueOf], which
    is not callable either or returns the object itself, and throws. *)
Fixpoint ToString (v : JsValue) : Completion jsstring :=
  match v with
  | JsUndefined => Normal (u16 "undefined")
  | JsNull => Normal (u16 "null")
  | JsBool true => Normal (u16 "true")
  | JsBool false => Normal (u16 "false")
  | JsNumber x => Normal (Number_toString engine x)
  | JsString s => Normal s
  | JsArray items =>
      and_then
        ((fix elements (l : list JsValue) : Completion (list jsstring) :=
            match l with
            | [] => Normal []
            | x :: rest =>
                and_then
                  (match x with
                   | JsUndefined | JsNull => Normal []
                   | _ => ToString x
                   end)
                  (fun s => and_then (elements rest) (fun ss => Normal (s :: ss)))
            end) items)
        (fun ss => Normal (concat_with (u16 ",") ss))
  | JsObject fields =>
      match lookup (u16 "toString") fields with
      | Some _ => Throw not_primitive
      | None => Normal (u16 "[object Object]")
      end
  end.

(** The strings of the elements of an array, as [join] takes them:
    [undefined] and [null] are the empty string. *)
Fixpoint element_strings (l : list JsValue) : Completion (list jsstring) :=
  match l with
  | [] => Normal []
  | x :: rest =>
      and_then
        (match x with
         | JsUndefined | JsNull => Normal []
         | _ => ToString x
         end)
        (fun s => and_then (element_strings rest) (fun ss => Normal (s :: ss)))
  end.

(** [items.join(sep)]. *)
Definition Array_join (sep : jsstring) (items : list JsValue) : Completion jsstring :=
  and_then (element_strings items) (fun ss => Normal (concat_with sep ss)).

(** [Number(v)]: an array or an object is converted to its string
    first. *)
Definition ToNumber (v : JsValue) : Completion float :=
  match v with
  | JsUndefined => Normal nan
  | JsNull => Normal 0%float
  | JsBool true => Normal 1%float
  | JsBool false => Normal 0%float
  | JsNumber x => Normal x
  | JsString s => Normal (StringToNumber engine s)
  | JsArray _ | JsObject _ =>
      and_then (ToString v) (fun s => Normal (StringToNumber engine s))
  end.

(** [v > 0]. *)
Definition positive (v : JsValue) : Completion bool :=
  and_then (ToNumber v) (fun x => Normal (PrimFloat.ltb 0 x)).

(** [v.length > 0]. The length of a string or of an array is above 0
    when it is not empty; a number or a boolean has no [length]; an
    object has the [length] it was given, if any. *)
Definition length_is_positive (v : JsValue) : Completion bool :=
  match v with
  | JsUndefined | JsNull =>
      Throw (TypeError (TypeError_message engine v (u16 "length")))
  | JsString s => Normal (match s with [] => false | _ :: _ => true end)
  | JsArray items => Normal (match items with [] => false | _ :: _ => true end)
  | JsBool _ | JsNumber _ | JsObject _ => positive (property v (u16 "length"))
  end.

(** [v?.length]. *)
Definition optional_length (v : JsValue) : JsValue :=
  match v with
  | JsString s => JsNumber (number_of_nat (List.length s))
  | JsArray items => JsNumber (number_of_nat (List.length items))
  | _ => property v (u16 "length")
  end.

End Engine.

End Conversion.

(** ** The citation-marker pattern and [String.prototype.replace] *)

Module Regex.

(** The fragment of regular expressions the route uses: a sequence of
    atoms, each a character class taken once or one-or-more times
    (greedy). *)
Inductive CharClass : Type :=
| Exactly (c : code_unit)
| Digit
| AnyBut (c : code_unit).

Inductive Atom : Type :=
| One (cl : CharClass)
| OneOrMore (cl : CharClass).

Definition Pattern := list Atom.

Definition accepts (cl : CharClass) (x : code_unit) : bool :=
  match cl with
  | Exactly c => N.eqb x c
  | Digit => (N.leb 48 x && N.leb x 57)%bool
  | AnyBut c => negb (N.eqb x c)
  end.

(** Greedy repetition with backtracking: take as many accepted code units
    as possible, and give one back each time the continuation [k] fails. *)
Fixpoint greedy (p : code_unit -> bool) (k : jsstring -> option jsstring)
  (s : jsstring) : option jsstring :=
  match s with
  | x :: s' =>
      if p x then
        match greedy p k s' with
        | Some rest => Some rest
        | None => k s
        end
      else k s
  | [] => k s
  end.

(** Match the pattern at the start of [s]; the result is what follows the
    match. *)
Fixpoint match_here (r : Pattern) : jsstring -> option jsstring :=
  match r with
  | [] => fun s => Some s
  | One cl :: r' => fun s =>
      match s with
      | x :: s' => if accepts cl x then match_here r' s' else None
      | [] => None
      end
  | OneOrMore cl :: r' => fun s =>
      match s with
      | x :: s' => if accepts cl x then greedy (accepts cl) (match_here r') s' else None
      | [] => None
      end
  end.

(** [s.replace(/r/g, "")], scanning left to right. [skip] counts the code
    units of the current match still to be dropped; a code unit where no
    match starts is kept, and the scan resumes after each match. *)
Fixpoint strip (r : Pattern) (skip : nat) (s : jsstring) : jsstring :=
  match s with
  | [] => []
  | x :: s' =>
      match skip with
      | S n => strip r n s'
      | O =>
          match match_here r s with
          | Some rest =>
              match List.length s - List.length rest with
              | O => x :: strip r 0 s'
              | S n => strip r n s'
              end
          | None => x :: strip r 0 s'
          end
      end
  end.

Definition replace_all (r : Pattern) (s : jsstring) : jsstring := strip r 0 s.

(** [r.test(s)]: the pattern matches somewhere in [s]. *)
Fixpoint test (r : Pattern) (s : jsstring) : bool :=
  match match_here r s with
  | Some _ => true
  | None => match s with [] => false | _ :: s' => test r s' end
  end.

End Regex.

Module Citation.
Import Regex.

(** U+3010, U+2020 and U+3011. *)
Definition lenticular_open : code_unit := 12304%N.
Definition dagger : code_unit := 8224%N.
Definition lenticular_close : code_unit := 12305%N.
Definition colon : code_unit := 58%N.

(** The pattern between the slashes of the regular expression literal in
    the route: open bracket, digits, colon, digits, dagger, one or more
    code units other than the close bracket, close bracket. *)
Definition marker : Pattern :=
  [ One (Exactly lenticular_open); OneOrMore Digit; One (Exactly colon);
    OneOrMore Digit; One (Exactly dagger); OneOrMore (AnyBut lenticular_close);
    One (Exactly lenticular_close) ].

(** [value.replace(marker, "")] with the global flag. *)
Definition strip_markers (value : jsstring) : jsstring := replace_all marker value.

Definition contains_marker (s : jsstring) : bool := test marker s.

(** A marker as the remote service writes it, for examples. *)
Definition cite (a b : string) (src : string) : jsstring :=
  [lenticular_open] ++ u16 a ++ [colon] ++ u16 b ++ [dagger] ++ u16 src
    ++ [lenticular_close].

End Citation.

(** ** The chat route: [src/app/api/chat/route.ts] *)

Module Chat.

Section Route.

Variable engine : Engine.
Variable process_env : ProcessEnv.
Variable world : World.

Definition maxRetries : nat := 200.

Definition Cache_Control : jsstring := u16 "Cache-Control".
Definition no_cache : jsstring := u16 "no-cache".
Definition cacheable : jsstring := u16 "s-maxage=120, stale-while-revalidate=300".

(** The [headers] record sent with every axios call. *)
Definition request_headers : Headers :=
  [ (u16 "Authorization", u16 "Bearer " ++ env_value (OPENAI_API_KEY process_env));
    (u16 "Content-Type", u16 "application/json");
    (u16 "OpenAI-Beta", u16 "assistants=v2") ]
  ++ (if env_truthy (OPENAI_ORGANIZATION process_env)
      then [(u16 "OpenAI-Organization", env_value (OPENAI_ORGANIZATION process_env))]
      else []).

Definition baseUrl : jsstring :=
  if env_truthy (VERCEL_URL process_env)
  then u16 "https://" ++ env_value (VERCEL_URL process_env)
  else u16 "http://localhost:3000".

(** The body of the request to the search endpoint, before
    [JSON.stringify]. *)
Definition search_request (args_query args_max_results args_include_domains : JsValue)
  : JsValue :=
  JsObject
    [ (u16 "query", args_query);
      (u16 "max_results", or_else args_max_results (JsNumber 3));
      (u16 "include_domains",
       or_else args_include_domains (JsArray [JsString (u16 "ey.com")])) ].

(** The [try] block of the [web_search] branch. *)
Definition web_search (toolCall : ToolCall) : M ToolOutput :=
  args <- lift (JSON_parse engine (arguments (function toolCall))) ;;
  query <- get_prop engine args (u16 "query") ;;
  max_results <- get_prop engine args (u16 "max_results") ;;
  include_domains <- get_prop engine args (u16 "include_domains") ;;
  searchResponse <-
    request
      (Fetch (baseUrl ++ u16 "/api/search")
         (JSON_stringify engine (search_request query max_results include_domains)))
      (fetch world) ;;
  if negb (ok searchResponse) then
    errorText <- lift (fetch_text searchResponse) ;;
    emit (ConsoleError (Search_endpoint_error errorText)) ;;
    throw (new_Error (u16 "Search failed: " ++ decimal (fetch_status searchResponse)))
  else
    searchData <- lift (fetch_json searchResponse) ;;
    results <- get_prop engine searchData (u16 "results") ;;
    answer <- get_prop engine searchData (u16 "answer") ;;
    let formattedResults :=
      JsObject
        [ (u16 "results", or_else results (JsArray []));
          (u16 "answer", or_else answer JsNull);
          (u16 "query", query) ] in
    ret (mkToolOutput (id toolCall) (JSON_stringify engine formattedResults)).

(** [error instanceof Error ? error.message : "Unknown error"]. *)
Definition message_of (error : Thrown) : JsValue :=
  if instanceof_Error error then message error else JsString (u16 "Unknown error").

(** The payload of a failed search. *)
Definition error_payload (errorMessage : JsValue) : JsValue :=
  JsObject [ (u16 "error", errorMessage); (u16 "results", JsArray []) ].

Definition unknown_function_payload : JsValue :=
  JsObject [ (u16 "error", JsString (u16 "Unknown function")) ].

(** The callback mapped over [toolCalls]. *)
Definition handle_tool_call (toolCall : ToolCall) : M ToolOutput :=
  if jsstring_eqb (name (function toolCall)) (u16 "web_search") then
    try_catch (web_search toolCall)
      (fun error =>
         let errorMessage := message_of error in
         emit (ConsoleError (Search_execution_error errorMessage)) ;;
         ret (mkToolOutput (id toolCall)
                (JSON_stringify engine (error_payload errorMessage))))
  else
    ret (mkToolOutput (id toolCall) (JSON_stringify engine unknown_function_payload)).

(** [Promise.all(toolCalls.map(...))]. *)
Definition dispatch (toolCalls : list ToolCall) : M (list ToolOutput) :=
  mapM handle_tool_call toolCalls.

(** The statuses that keep the loop polling. *)
Definition polling (status : JsValue) : bool :=
  strict_eq_string status (u16 "in_progress")
  || strict_eq_string status (u16 "queued")
  || strict_eq_string status (u16 "requires_action").

(** The statuses after which a reply is built. *)
Definition terminal (status : JsValue) : bool :=
  strict_eq_string status (u16 "completed")
  || strict_eq_string status (u16 "failed")
  || strict_eq_string status (u16 "cancelled").

Section Run.

Variables currentThreadId runId : JsValue.

(** One pass through the body of the [while] loop, up to [retries++]; the
    result is the new [status]. *)
Definition poll_iteration : M JsValue :=
  emit (SetTimeout 2000) ;;
  statusRes <- request (Get_run request_headers currentThreadId runId)
                 (axios_get_run world) ;;
  let status := run_status statusRes in
  if strict_eq_string status (u16 "requires_action") then
    let toolCalls := match tool_calls statusRes with Some l => l | None => [] end in
    if 0 <? List.length toolCalls then
      toolOutputs <- dispatch toolCalls ;;
      request
        (Post_submit_tool_outputs request_headers currentThreadId runId toolOutputs)
        (axios_post_submit_tool_outputs world) ;;
      ret (JsString (u16 "in_progress"))
    else ret status
  else ret status.

(** The [while] loop. [fuel] bounds the number of passes the model may
    make; [None] reports that it ran out before the loop condition turned
    false. *)
Fixpoint poll_loop (fuel : nat) (status : JsValue) (retries : nat)
  : M (option (JsValue * nat)) :=
  if polling status && (retries <? maxRetries) then
    match fuel with
    | O => ret None
    | S fuel' =>
        status' <- poll_iteration ;;
        poll_loop fuel' status' (S retries)
    end
  else ret (Some (status, retries)).

Definition timeoutResponse : Response :=
  headers_set Cache_Control no_cache
    (NextResponse_json
       (JsObject
          [ (u16 "error",
             JsString (u16 "Request timeout. The assistant is taking longer than expected. Please try again."));
            (u16 "threadId", currentThreadId) ])
       504).

(** [assistantMsg?.content?.[0]?.text?.value]. *)
Definition first_text_value (assistantMsg : option Message) : option jsstring :=
  match assistantMsg with
  | None => None
  | Some m =>
      match content m with
      | None => None
      | Some c =>
          match nth_error c 0 with
          | None => None
          | Some c0 =>
              match text c0 with
              | None => None
              | Some t => value t
              end
          end
      end
  end.

(** The reply of a completed run. *)
Definition completed_reply (messages : list Message) : jsstring :=
  let assistantMsg :=
    find (fun m => strict_eq_string (role m) (u16 "assistant")) messages in
  match option_map Citation.strip_markers (first_text_value assistantMsg) with
  | Some (x :: s) => x :: s
  | _ => u16 "No valid response."
  end.

(** Everything after the loop: the timeout path, or the reply. *)
Definition conclude (status : JsValue) : M Response :=
  if negb (strict_eq_string status (u16 "completed"))
     && negb (strict_eq_string status (u16 "failed"))
     && negb (strict_eq_string status (u16 "cancelled"))
  then
    emit (ConsoleError (Run_timeout status)) ;;
    try_catch
      (request (Post_cancel request_headers currentThreadId runId)
         (axios_post_cancel world))
      (fun cancelError =>
         emit (ConsoleError (Failed_to_cancel_run (message_of cancelError)))) ;;
    ret timeoutResponse
  else
    reply <-
      (if strict_eq_string status (u16 "completed") then
         messages <- request (Get_messages request_headers currentThreadId)
                       (axios_get_messages world) ;;
         ret (completed_reply messages)
       else if strict_eq_string status (u16 "failed") then
         emit (ConsoleError Run_failed) ;;
         ret (u16 "The assistant encountered an error. Please try again.")
       else if strict_eq_string status (u16 "cancelled") then
         ret (u16 "Request was cancelled. Please try again.")
       else
         emit (ConsoleError (Unexpected_final_status status)) ;;
         ret (u16 "Unexpected error occurred. Please try again.")) ;;
    let response :=
      NextResponse_json
        (JsObject [ (u16 "reply", JsString reply); (u16 "threadId", currentThreadId) ])
        200 in
    if strict_eq_string status (u16 "completed")
    then ret (headers_set Cache_Control cacheable response)
    else ret (headers_set Cache_Control no_cache response).

End Run.

Definition credentialsResponse : Response :=
  NextResponse_json
    (JsObject [ (u16 "error", JsString (u16 "Missing OpenAI credentials")) ]) 500.

(** The turn on a session: add the user message, start a run, poll it
    and answer. *)
Definition converse (fuel : nat) (currentThreadId input : JsValue)
  : M (option Response) :=
  request (Post_messages request_headers currentThreadId input)
    (axios_post_messages world) ;;
  runId <- request
             (Post_runs request_headers currentThreadId
                (env_value (OPENAI_ASSISTANT_ID process_env)))
             (axios_post_runs world) ;;
  final <- poll_loop currentThreadId runId fuel (JsString (u16 "in_progress")) 0 ;;
  match final with
  | None => ret None
  | Some (status, _) =>
      response <- conclude currentThreadId runId status ;;
      ret (Some response)
  end.

(** The body of the outer [try]. [req_json] is what [await req.json()]
    completes with. *)
Definition orchestrate (fuel : nat) (req_json : Completion JsValue)
  : M (option Response) :=
  parsed <- lift req_json ;;
  input <- get_prop engine parsed (u16 "input") ;;
  threadId <- get_prop engine parsed (u16 "threadId") ;;
  if negb (env_truthy (OPENAI_API_KEY process_env))
     || negb (env_truthy (OPENAI_ASSISTANT_ID process_env))
  then ret (Some credentialsResponse)
  else
    currentThreadId <-
      (if negb (truthy threadId)
       then request (Post_threads request_headers) (axios_post_threads world)
       else ret threadId) ;;
    converse fuel currentThreadId input.

(** The response of the outer [catch]. *)
Definition errorResponse (error : Thrown) : Response :=
  headers_set Cache_Control no_cache
    (NextResponse_json
       (JsObject
          [ (u16 "error",
             or_else (response_data_error_message error)
               (or_else (message error) (JsString (u16 "Unknown error")))) ])
       500).

Definition POST_fuel (fuel : nat) (req_json : Completion JsValue)
  : M (option Response) :=
  try_catch (orchestrate fuel req_json)
    (fun err =>
       emit (ConsoleError (Chat_API_error err)) ;;
       ret (Some (errorResponse err))).

(** [export async function POST(req)]. *)
Definition POST (req_json : Completion JsValue) : M (option Response) :=
  POST_fuel maxRetries req_json.

End Route.

End Chat.

(** ** The search route handlers

    The repository holds two handlers for the search endpoint. Both read
    the same request and call the same provider; they differ in the
    default of [include_domains] and in whether the field is always
    sent. *)

Module SearchRoute.
Import Conversion.

(** What the destructuring of the request body gives: the three
    properties as the caller sent them, each of them any value
    ([undefined] when omitted). A body that is not JSON, [null] or
    [undefined] makes [req.json()] or the destructuring throw; that is the
    [Throw] of the handlers' argument. *)
Record SearchRequest : Type := mkSearchRequest {
  query : JsValue;
  max_results : JsValue;
  include_domains : JsValue
}.

Definition provider_url : jsstring := u16 "https://api.tavily.com/search".
Definition Cache_Control : jsstring := u16 "Cache-Control".

(** A destructuring default: it applies to [undefined] only. *)
Definition default_to (d v : JsValue) : JsValue :=
  match v with JsUndefined => d | _ => v end.

Section Route.

Variable engine : Engine.
Variable process_env : ProcessEnv.
Variable world : World.

(** [include_domains.join(", ")]: only an array has a [join] that can be
    called. *)
Definition join (include_domains : JsValue) : Completion jsstring :=
  match include_domains with
  | JsUndefined | JsNull =>
      Throw (TypeError (TypeError_message engine include_domains (u16 "join")))
  | JsArray items => Array_join engine (u16 ", ") items
  | _ => Throw (TypeError (not_a_function_message engine (u16 "include_domains.join")))
  end.

(** The domain information and the progress line of the first handler.
    The line itself is not recorded, but writing it converts [query] and
    [max_results] to strings, after [include_domains] was measured and
    joined; each of these can throw. *)
Definition announce (query max_results include_domains : JsValue) : Completion unit :=
  and_then (length_is_positive engine include_domains) (fun has_values =>
  and_then (if has_values then join include_domains else Normal (u16 "all domains"))
    (fun domainInfo =>
  and_then (ToString engine query) (fun _ =>
  and_then (ToString engine max_results) (fun _ =>
  Normal tt)))).

(** The five fields every request to the provider has. *)
Definition fields (query max_results : JsValue) : list (jsstring * JsValue) :=
  [ (u16 "api_key", JsString (env_value (TAVILY_API_KEY process_env)));
    (u16 "query", query);
    (u16 "max_results", max_results);
    (u16 "include_answer", JsBool true);
    (u16 "include_raw_content", JsBool false) ].

(** The object sent to the provider: the five fixed fields, and
    [include_domains] only if
    [include_domains && include_domains.length > 0]. *)
Definition tavilyRequest (query max_results include_domains : JsValue)
  : Completion JsValue :=
  and_then
    (if truthy include_domains then length_is_positive engine include_domains
     else Normal false)
    (fun has_values =>
       Normal
         (JsObject
            (fields query max_results
             ++ (if has_values then [ (u16 "include_domains", include_domains) ]
                 else [])))).

(** The count in the progress line of a successful search,
    [data.results?.length || 0], as a string. *)
Definition results_count (results : JsValue) : Completion jsstring :=
  ToString engine (or_else (optional_length results) (JsNumber 0)).

(** What both handlers do with the provider's answer. *)
Definition relay (response : FetchResponse) : M Response :=
  if negb (ok response) then
    errorText <- lift (fetch_text response) ;;
    emit (ConsoleError (Tavily_API_error errorText)) ;;
    throw (new_Error (u16 "Tavily API error: " ++ decimal (fetch_status response)))
  else
    data <- lift (fetch_json response) ;;
    results <- get_prop engine data (u16 "results") ;;
    lift (results_count results) ;;
    answer <- get_prop engine data (u16 "answer") ;;
    let successResponse :=
      NextResponse_json
        (JsObject
           [ (u16 "results", or_else results (JsArray []));
             (u16 "answer", or_else answer JsNull) ])
        200 in
    ret (headers_set Cache_Control (u16 "s-maxage=600, stale-while-revalidate=1200")
           successResponse).

(** The response of the [catch] clause of both handlers. *)
Definition errorResponse (error : Thrown) : Response :=
  headers_set Cache_Control (u16 "no-cache")
    (NextResponse_json
       (JsObject
          [ (u16 "error",
             or_else (response_data_error_message error)
               (or_else (message error) (JsString (u16 "Search failed")))) ])
       500).

(** The first handler: [include_domains] defaults to the empty array. *)
Definition POST (req_json : Completion SearchRequest) : M Response :=
  try_catch
    (parsed <- lift req_json ;;
     let query := query parsed in
     let max_results := default_to (JsNumber 3) (max_results parsed) in
     let include_domains := default_to (JsArray []) (include_domains parsed) in
     if negb (truthy query) then
       ret (NextResponse_json
              (JsObject [ (u16 "error", JsString (u16 "Query required")) ]) 400)
     else if negb (env_truthy (TAVILY_API_KEY process_env)) then
       ret (NextResponse_json
              (JsObject [ (u16 "error", JsString (u16 "Tavily API key missing")) ]) 500)
     else
       lift (announce query max_results include_domains) ;;
       tavilyRequest <- lift (tavilyRequest query max_results include_domains) ;;
       response <-
         request (Fetch provider_url (JSON_stringify engine tavilyRequest))
           (fetch world) ;;
       relay response)
    (fun err => ret (errorResponse err)).

End Route.

End SearchRoute.

Module SearchRouteEy.
Import Conversion SearchRoute.

Section Route.

Variable engine : Engine.
Variable process_env : ProcessEnv.
Variable world : World.

(** The progress line of the second handler: writing it converts [query]
    and [max_results] to strings and joins [include_domains]. *)
Definition announce (query max_results include_domains : JsValue) : Completion unit :=
  and_then (ToString engine query) (fun _ =>
  and_then (ToString engine max_results) (fun _ =>
  and_then (join engine include_domains) (fun _ =>
  Normal tt))).

(** The object the second handler sends: [include_domains] is always a
    field of it. *)
Definition providerRequest (query max_results include_domains : JsValue) : JsValue :=
  JsObject
    [ (u16 "api_key", JsString (env_value (TAVILY_API_KEY process_env)));
      (u16 "query", query);
      (u16 "max_results", max_results);
      (u16 "include_answer", JsBool true);
      (u16 "include_raw_content", JsBool false);
      (u16 "include_domains", include_domains) ].

(** The second handler: [include_domains] defaults to [["ey.com"]]. *)
Definition POST (req_json : Completion SearchRequest) : M Response :=
  try_catch
    (parsed <- lift req_json ;;
     let query := query parsed in
     let max_results := default_to (JsNumber 3) (max_results parsed) in
     let include_domains :=
       default_to (JsArray [ JsString (u16 "ey.com") ]) (include_domains parsed) in
     if negb (truthy query) then
       ret (NextResponse_json
              (JsObject [ (u16 "error", JsString (u16 "Query required")) ]) 400)
     else if negb (env_truthy (TAVILY_API_KEY process_env)) then
       ret (NextResponse_json
              (JsObject [ (u16 "error", JsString (u16 "Tavily API key missing")) ]) 500)
     else
       lift (announce query max_results include_domains) ;;
       response <-
         request
           (Fetch provider_url
              (JSON_stringify engine (providerRequest query max_results include_domains)))
           (fetch world) ;;
       relay engine response)
    (fun err => ret (errorResponse err)).

End Route.

End SearchRouteEy.

(** ** Observations on traces *)

Module Observe.

Definition is_sleep (e : Event) : bool :=
  match e with SetTimeout _ => true | _ => false end.

Definition is_poll (e : Event) : bool :=
  match e with Get_run _ _ _ => true | _ => false end.

Definition is_cancel (e : Event) : bool :=
  match e with Post_cancel _ _ _ => true | _ => false end.

Definition is_submit (e : Event) : bool :=
  match e with Post_submit_tool_outputs _ _ _ _ => true | _ => false end.

Definition is_create_thread (e : Event) : bool :=
  match e with Post_threads _ => true | _ => false end.

Definition is_fetch (e : Event) : bool :=
  match e with Fetch _ _ => true | _ => false end.

(** How many events of a kind a trace holds. *)
Definition count (p : Event -> bool) (t : Trace) : nat :=
  List.length (filter p t).

(** The events a tool call may cause: requests to the search endpoint and
    error lines. *)
Definition tool_event (e : Event) : Prop :=
  match e with
  | Fetch _ _ | ConsoleError _ => True
  | _ => False
  end.

(** The events one pass of the loop may add after its poll: those of the
    tool calls, and the submission of their outputs. *)
Definition servicing_event (e : Event) : Prop :=
  match e with
  | Fetch _ _ | ConsoleError _ | Post_submit_tool_outputs _ _ _ _ => True
  | _ => False
  end.

(** The events that may follow the loop: error lines, the cancel request
    and the reading of the messages. *)
Definition concluding_event (e : Event) : Prop :=
  match e with
  | ConsoleError _ | Post_cancel _ _ _ | Get_messages _ _ => True
  | _ => False
  end.

(** The events of a turn on an existing session: no session is created,
    and timers are of 2000 ms. *)
Definition turn_event (e : Event) : Prop :=
  match e with
  | Post_threads _ => False
  | SetTimeout ms => ms = 2000
  | _ => True
  end.

(** Whatever the trace before it, the computation only appends events, and
    each appended event satisfies [P]. *)
Definition emits {A} (P : Event -> Prop) (m : M A) : Prop :=
  forall t, exists evs, snd (m t) = t ++ evs /\ Forall P evs.

(** The computation only appends events, at most [n] of them of kind
    [p]. *)
Definition emits_at_most {A} (p : Event -> bool) (n : nat) (m : M A) : Prop :=
  forall t, exists evs, snd (m t) = t ++ evs /\ count p evs <= n.


(** An own property of an object, if it has it. *)
Definition own_property (v : JsValue) (k : string) : option JsValue :=
  match v with
  | JsObject fields => lookup (u16 k) fields
  | _ => None
  end.

(** A field of a response body. *)
Definition body_field (k : string) (r : Response) : option JsValue :=
  own_property (body r) k.

(** The trace of a search handler holds no request to the provider, or
    exactly one, first in the trace, whose body is the encoding of an
    object that satisfies [P]. *)
Definition provider_request (engine : Engine) (t : Trace) (P : JsValue -> Prop) : Prop :=
  count is_fetch t = 0
  \/ exists obj rest,
       t = Fetch SearchRoute.provider_url (JSON_stringify engine obj) :: rest
       /\ count is_fetch rest = 0
       /\ P obj.

End Observe.
Import Observe.

(** ** Scenarios: a stand-in engine and some remote behaviours

    The theorems below hold for every engine and every world. The
    scenarios give them concrete inputs to run on. *)

Module Scenario.

Definition quote : jsstring := [34%N].
Definition quoted (s : jsstring) : jsstring := quote ++ s ++ quote.

Fixpoint join (sep : jsstring) (l : list jsstring) : jsstring :=
  match l with
  | [] => []
  | [x] => x
  | x :: rest => x ++ sep ++ join sep rest
  end.

Fixpoint float_of_nat (n : nat) : float :=
  match n with
  | O => 0%float
  | S n' => (float_of_nat n' + 1)%float
  end.

(** Numbers print as decimals when they are integers from 0 to 999, which
    is all the scenarios use. *)
Definition print_number (x : float) : jsstring :=
  match find (fun n => PrimFloat.eqb (float_of_nat n) x) (seq 0 1000) with
  | Some n => decimal n
  | None => u16 "null"
  end.

(** A printer in the manner of [JSON.stringify] for values whose strings
    need no escaping: properties holding [undefined] are left out. *)
Fixpoint stringify (v : JsValue) : jsstring :=
  match v with
  | JsUndefined | JsNull => u16 "null"
  | JsBool true => u16 "true"
  | JsBool false => u16 "false"
  | JsNumber x => print_number x
  | JsString s => quoted s
  | JsArray items =>
      u16 "[" ++ join (u16 ",") (map stringify items) ++ u16 "]"
  | JsObject fields =>
      u16 "{"
      ++ join (u16 ",")
           ((fix members (l : list (jsstring * JsValue)) : list jsstring :=
               match l with
               | [] => []
               | (k, JsUndefined) :: rest => members rest
               | (k, x) :: rest => (quoted k ++ u16 ":" ++ stringify x) :: members rest
               end) fields)
      ++ u16 "}"
  end.

Definition SyntaxError : Thrown :=
  new_Error (u16 "Unexpected token in JSON").

(** The number a string of decimal digits stands for, when it is an
    integer from 0 to 999, and [NaN] for every other string. *)
Definition read_number (s : jsstring) : float :=
  match find (fun n => jsstring_eqb (decimal n) s) (seq 0 1000) with
  | Some n => float_of_nat n
  | None => nan
  end.

(** An engine that parses the texts of a table and rejects every other
    text. *)
Definition engine_with (table : list (jsstring * JsValue)) : Engine :=
  mkEngine
    (fun s => match lookup s table with Some v => Normal v | None => Throw SyntaxError end)
    stringify
    (fun v p => u16 "Cannot read properties of "
                ++ (match v with JsNull => u16 "null" | _ => u16 "undefined" end)
                ++ u16 " (reading '" ++ p ++ u16 "')")
    print_number
    read_number
    (fun callee => callee ++ u16 " is not a function")
    (u16 "Cannot convert object to primitive value").

(** The arguments of scenario 2 of the specification, as the remote
    service encodes them, and their decoding. *)
Definition jamaica_text : jsstring :=
  u16 "{" ++ quoted (u16 "query") ++ u16 ":" ++ quoted (u16 "AI adoption Jamaica") ++ u16 "}".

Definition jamaica_args : JsValue :=
  JsObject [ (u16 "query", JsString (u16 "AI adoption Jamaica")) ].

Definition engine : Engine := engine_with [ (jamaica_text, jamaica_args) ].

Definition env : ProcessEnv :=
  mkProcessEnv (Some (u16 "sk-test")) (Some (u16 "asst_1")) None None (Some (u16 "tvly-test")).

(** The same deployment without the assistant service's API key. *)
Definition env_without_key : ProcessEnv :=
  mkProcessEnv None (Some (u16 "asst_1")) None None (Some (u16 "tvly-test")).

Definition first_turn : Completion JsValue :=
  Normal (JsObject [ (u16 "input", JsString (u16 "Give me an overview.")) ]).

Definition S1 : JsValue := JsString (u16 "thread_S1").

Definition next_turn : Completion JsValue :=
  Normal (JsObject [ (u16 "input", JsString (u16 "And Jamaica?")); (u16 "threadId", S1) ]).

Definition assistant_says (raw : jsstring) : Message :=
  mkMessage (JsString (u16 "assistant"))
    (Some [ mkMessageContent (Some (mkTextContent (Some raw))) ]).

Definition search_hit : FetchResponse :=
  mkFetchResponse true 200 (Normal (u16 "ok"))
    (Normal
       (JsObject
          [ (u16 "results", JsArray [ JsString (u16 "r1") ]);
            (u16 "answer", JsString (u16 "Adoption is rising.")) ])).

Definition refused : Thrown :=
  mkThrown true (JsString (u16 "Request failed with status code 400"))
    (JsString (u16 "Cannot cancel run")).

(** A world in which every call succeeds and the run reports
    [in_progress] for ever; cancelling it fails. *)
Definition stuck : World :=
  mkWorld
    (fun _ => Normal (JsString (u16 "thread_new")))
    (fun _ => Normal tt)
    (fun _ => Normal (JsString (u16 "run_1")))
    (fun _ => Normal (mkRunData (JsString (u16 "in_progress")) None))
    (fun _ => Normal tt)
    (fun _ => Throw refused)
    (fun _ => Normal [])
    (fun _ => Normal search_hit).

(** A world whose run reports [status] at the first poll and whose newest
    message is [raw]. *)
Definition settled (status : string) (raw : jsstring) : World :=
  mkWorld
    (fun _ => Normal (JsString (u16 "thread_new")))
    (fun _ => Normal tt)
    (fun _ => Normal (JsString (u16 "run_1")))
    (fun _ => Normal (mkRunData (JsString (u16 status)) None))
    (fun _ => Normal tt)
    (fun _ => Normal tt)
    (fun _ => Normal [ assistant_says raw ])
    (fun _ => Normal search_hit).

Definition good_call : ToolCall :=
  mkToolCall (u16 "call_1") (mkToolFunction (u16 "web_search") jamaica_text).

Definition malformed_call : ToolCall :=
  mkToolCall (u16 "call_2") (mkToolFunction (u16 "web_search") (u16 "{query:")).

Definition unknown_call : ToolCall :=
  mkToolCall (u16 "call_3") (mkToolFunction (u16 "get_weather") (u16 "{}")).

Definition pending : list ToolCall := [ good_call; malformed_call; unknown_call ].

(** A world whose run pauses for the three [pending] tool calls at the
    first poll and is completed at the second. *)
Definition pausing : World :=
  mkWorld
    (fun _ => Normal (JsString (u16 "thread_new")))
    (fun _ => Normal tt)
    (fun _ => Normal (JsString (u16 "run_1")))
    (fun t =>
       if count is_poll t =? 1
       then Normal (mkRunData (JsString (u16 "requires_action")) (Some pending))
       else Normal (mkRunData (JsString (u16 "completed")) None))
    (fun _ => Normal tt)
    (fun _ => Normal tt)
    (fun _ => Normal [ assistant_says (u16 "Adoption is rising.") ])
    (fun _ => Normal search_hit).

(** A world in which the assistant service rejects the user message. *)
Definition rejecting : World :=
  mkWorld
    (fun _ => Normal (JsString (u16 "thread_new")))
    (fun _ => Throw (mkThrown true (JsString (u16 "Request failed with status code 404"))
                       (JsString (u16 "No thread found"))))
    (fun _ => Normal (JsString (u16 "run_1")))
    (fun _ => Normal (mkRunData (JsString (u16 "in_progress")) None))
    (fun _ => Normal tt)
    (fun _ => Normal tt)
    (fun _ => Normal [])
    (fun _ => Normal search_hit).

(** Raw assistant text in which a marker sits inside the pieces of
    another: removing the inner one joins the pieces. *)
Definition interleaved : jsstring :=
  [Citation.lenticular_open] ++ u16 "1:" ++ Citation.cite "1" "2" "a"
    ++ u16 "2" ++ [Citation.dagger] ++ u16 "b" ++ [Citation.lenticular_close].

Definition run_1 : JsValue := JsString (u16 "run_1").

(** The trace of the loop in the [stuck] world: 200 timers and polls. *)
Definition stuck_polls : Trace :=
  snd (Chat.poll_loop engine env stuck S1 run_1 Chat.maxRetries
         (JsString (u16 "in_progress")) 0 []).

Definition growth : jsstring :=
  u16 "Growth" ++ Citation.cite "4" "0" "source" ++ u16 " rose.".

(** A search request that supplies an empty allow-list. *)
Definition search_everywhere : SearchRoute.SearchRequest :=
  SearchRoute.mkSearchRequest (JsString (u16 "AI adoption Jamaica")) JsUndefined
    (JsArray []).

End Scenario.


(** ** The chat page: [sendMessage], the load from storage and the
    clear button of [src/app/ChatApp.tsx] *)

Module Client.

(** What a [catch] clause of the page inspects: [err.response?.data]
    ([undefined] when the error has no response) and [err.message]. *)
Record Caught : Type := mkCaught {
  response_data : JsValue;
  caught_message : JsValue
}.

Inductive Outcome (A : Type) : Type :=
| Done (a : A)
| Raise (e : Caught).
Arguments Done {A} a.
Arguments Raise {A} e.

(** The calls the page makes into the browser and the network, and its
    [console.error] lines; progress lines written with [console.log] are
    not recorded. *)
Inductive Call : Type :=
| Speech_cancel
| Speech_speak (text : jsstring)
| Alert (text : jsstring)
| Date_toLocaleString
| Textarea_height_auto
| Axios_post (url : jsstring) (data : JsValue)
| Storage_getItem (key : jsstring)
| Storage_setItem (key value : jsstring)
| Storage_removeItem (key : jsstring)
| Console_error (detail : JsValue).

(** The browser and the network. The oracles see the calls up to and
    including the one they answer: [axios_post] resolves with the [data]
    of the response or rejects, [storage_fault] is what an access to
    [localStorage] throws, if it throws. [String_of] is the string
    conversion of a value that is not a string; [stripMarkdown] is the
    page's own chain of replacements, which is not defined here;
    [replace_is_not_a_function] is the message of the [TypeError] raised
    by calling [replace] on a value that has none. *)
Record Browser : Type := mkBrowser {
  axios_post : list Call -> Outcome JsValue;
  toLocaleString : list Call -> jsstring;
  storage_fault : list Call -> option Caught;
  speechSynthesis_in_window : bool;
  textarea_mounted : bool;
  String_of : JsValue -> jsstring;
  stripMarkdown : jsstring -> jsstring;
  replace_is_not_a_function : JsValue -> jsstring
}.

(** The state of the component, the content of [localStorage] and the
    calls made so far. *)
Record Page : Type := mkPage {
  messages : list JsValue;
  input : jsstring;
  threadId : JsValue;
  loading : bool;
  activeRun : bool;
  typing : bool;
  isSpeaking : bool;
  voiceEnabled : bool;
  isLoading : bool;
  storage : list (jsstring * jsstring);
  calls : list Call
}.

Definition P (A : Type) : Type := Page -> Outcome A * Page.

Definition ret {A} (a : A) : P A := fun p => (Done a, p).

Definition bind {A B} (m : P A) (k : A -> P B) : P B :=
  fun p =>
    match m p with
    | (Done a, p') => k a p'
    | (Raise e, p') => (Raise e, p')
    end.

Arguments bind {A B} m k p /.

Definition raise {A} (e : Caught) : P A := fun p => (Raise e, p).

(** [try { body } catch (e) { handler } finally { cleanup }], for a
    [cleanup] that does not throw. *)
Definition try_catch_finally {A} (body : P A) (handler : Caught -> P A)
  (cleanup : P unit) : P A :=
  fun p =>
    let handled :=
      match body p with
      | (Done a, p') => (Done a, p')
      | (Raise e, p') => handler e p'
      end in
    match cleanup (snd handled) with
    | (_, p'') => (fst handled, p'')
    end.

(** [try { body } catch (e) { handler }]. *)
Definition try_catch {A} (body : P A) (handler : Caught -> P A) : P A :=
  fun p =>
    match body p with
    | (Done a, p') => (Done a, p')
    | (Raise e, p') => handler e p'
    end.

Declare Scope page_scope.
Delimit Scope page_scope with page.
Notation "x <- m ;; k" := (bind m (fun x => k))
  (at level 100, m at next level, right associativity) : page_scope.
Notation "m ;; k" := (bind m (fun _ => k))
  (at level 100, right associativity) : page_scope.
Local Open Scope page_scope.

Definition get : P Page := fun p => (Done p, p).

Definition called (c : Call) (p : Page) : Page :=
  mkPage (messages p) (input p) (threadId p) (loading p) (activeRun p) (typing p)
    (isSpeaking p) (voiceEnabled p) (isLoading p) (storage p) (calls p ++ [c]).

Definition call (c : Call) : P unit := fun p => (Done tt, called c p).

Definition setMessages (l : list JsValue) : P unit :=
  fun p =>
    (Done tt,
     mkPage l (input p) (threadId p) (loading p) (activeRun p) (typing p)
       (isSpeaking p) (voiceEnabled p) (isLoading p) (storage p) (calls p)).

Definition setInput (s : jsstring) : P unit :=
  fun p =>
    (Done tt,
     mkPage (messages p) s (threadId p) (loading p) (activeRun p) (typing p)
       (isSpeaking p) (voiceEnabled p) (isLoading p) (storage p) (calls p)).

Definition setThreadId (v : JsValue) : P unit :=
  fun p =>
    (Done tt,
     mkPage (messages p) (input p) v (loading p) (activeRun p) (typing p)
       (isSpeaking p) (voiceEnabled p) (isLoading p) (storage p) (calls p)).

Definition setLoading (b : bool) : P unit :=
  fun p =>
    (Done tt,
     mkPage (messages p) (input p) (threadId p) b (activeRun p) (typing p)
       (isSpeaking p) (voiceEnabled p) (isLoading p) (storage p) (calls p)).

Definition setActiveRun (b : bool) : P unit :=
  fun p =>
    (Done tt,
     mkPage (messages p) (input p) (threadId p) (loading p) b (typing p)
       (isSpeaking p) (voiceEnabled p) (isLoading p) (storage p) (calls p)).

Definition setTyping (b : bool) : P unit :=
  fun p =>
    (Done tt,
     mkPage (messages p) (input p) (threadId p) (loading p) (activeRun p) b
       (isSpeaking p) (voiceEnabled p) (isLoading p) (storage p) (calls p)).

Definition setIsSpeaking (b : bool) : P unit :=
  fun p =>
    (Done tt,
     mkPage (messages p) (input p) (threadId p) (loading p) (activeRun p) (typing p)
       b (voiceEnabled p) (isLoading p) (storage p) (calls p)).

Definition setIsLoading (b : bool) : P unit :=
  fun p =>
    (Done tt,
     mkPage (messages p) (input p) (threadId p) (loading p) (activeRun p) (typing p)
       (isSpeaking p) (voiceEnabled p) b (storage p) (calls p)).

Definition with_storage (st : list (jsstring * jsstring)) (p : Page) : Page :=
  mkPage (messages p) (input p) (threadId p) (loading p) (activeRun p) (typing p)
    (isSpeaking p) (voiceEnabled p) (isLoading p) st (calls p).

Fixpoint stored (k : jsstring) (st : list (jsstring * jsstring)) : option jsstring :=
  match st with
  | [] => None
  | (k', v) :: rest => if jsstring_eqb k' k then Some v else stored k rest
  end.

Fixpoint remove (k : jsstring) (st : list (jsstring * jsstring))
  : list (jsstring * jsstring) :=
  match st with
  | [] => []
  | (k', v) :: rest =>
      if jsstring_eqb k' k then remove k rest else (k', v) :: remove k rest
  end.

Section Component.

Variable engine : Engine.
Variable browser : Browser.

(** An access to [localStorage]: the call is recorded, and it throws if
    the browser refuses it. *)
Definition storage_access {A} (c : Call) (k : P A) : P A :=
  fun p =>
    let p' := called c p in
    match storage_fault browser (calls p') with
    | Some e => (Raise e, p')
    | None => k p'
    end.

(** [localStorage.setItem(key, value)]. *)
Definition setItem (key value : jsstring) : P unit :=
  storage_access (Storage_setItem key value)
    (fun p => (Done tt, with_storage ((key, value) :: remove key (storage p)) p)).

(** [localStorage.getItem(key)]. *)
Definition getItem (key : jsstring) : P (option jsstring) :=
  storage_access (Storage_getItem key) (fun p => (Done (stored key (storage p)), p)).

(** [localStorage.removeItem(key)]. *)
Definition removeItem (key : jsstring) : P unit :=
  storage_access (Storage_removeItem key)
    (fun p => (Done tt, with_storage (remove key (storage p)) p)).

(** [new Date().toLocaleString()]. *)
Definition now : P jsstring :=
  fun p =>
    let p' := called Date_toLocaleString p in
    (Done (toLocaleString browser (calls p')), p').

(** The string of a value, as a template literal, [new Error(v)] and
    [setItem] take it. *)
Definition String (v : JsValue) : jsstring :=
  match v with
  | JsString s => s
  | _ => String_of browser v
  end.

(** [v.p], which throws a [TypeError] when [v] is [undefined] or
    [null]. *)
Definition read (v : JsValue) (p : string) : P JsValue :=
  match v with
  | JsUndefined | JsNull =>
      raise (mkCaught JsUndefined (JsString (TypeError_message engine v (u16 p))))
  | _ => ret (property v (u16 p))
  end.

(** The white space and line terminators that [trim] removes. *)
Definition is_white (c : code_unit) : bool :=
  existsb (N.eqb c)
    [ 9; 10; 11; 12; 13; 32; 160; 5760; 8232; 8233; 8239; 8287; 12288; 65279 ]%N
  || (N.leb 8192 c && N.leb c 8202).

(** [!input.trim()]. *)
Definition blank (s : jsstring) : bool := forallb is_white s.

Definition stopSpeaking : P unit :=
  if speechSynthesis_in_window browser
  then call Speech_cancel ;; setIsSpeaking false
  else ret tt.

(** [speakText(text)]: the utterance is of [stripMarkdown(text)], whose
    first [replace] throws when [text] is not a string; the callbacks of
    the utterance run later and are not part of the call. *)
Definition speakText (text : JsValue) : P unit :=
  if speechSynthesis_in_window browser then
    call Speech_cancel ;;
    match text with
    | JsString s => call (Speech_speak (stripMarkdown browser s))
    | JsUndefined | JsNull =>
        raise (mkCaught JsUndefined
                 (JsString (TypeError_message engine text (u16 "replace"))))
    | _ =>
        raise (mkCaught JsUndefined
                 (JsString (replace_is_not_a_function browser text)))
    end
  else call (Alert (u16 "Text-to-speech not supported in this browser.")).

Definition chat_message (role : string) (content : JsValue) (timestamp : jsstring)
  : JsValue :=
  JsObject
    [ (u16 "role", JsString (u16 role));
      (u16 "content", content);
      (u16 "timestamp", JsString timestamp) ].

(** [error.response?.data?.error]. *)
Definition response_data_error (error : Caught) : JsValue :=
  match response_data error with
  | JsUndefined | JsNull => JsUndefined
  | data => property data (u16 "error")
  end.

(** The text shown for a failed turn. *)
Definition error_content (error : Caught) : JsValue :=
  JsString
    (u16 "Error: "
     ++ String
          (or_else (response_data_error error)
             (or_else (caught_message error)
                (JsString (u16 "Unable to reach assistant."))))).

Definition chatHistory : jsstring := u16 "chatHistory".
Definition threadId_key : jsstring := u16 "threadId".

(** [axios.post("/api/chat", body)], awaited: the [data] of the
    response, or the rejection. *)
Definition post_chat (body : JsValue) : P JsValue :=
  fun p =>
    let p' := called (Axios_post (u16 "/api/chat") body) p in
    (axios_post browser (calls p'), p').

Section Turn.

(** What [sendMessage] closes over: the state the component rendered
    last, and the history with the user's message appended. *)
Variable rendered : Page.
Variable newMessages : list JsValue.

(** The [try] block of [sendMessage]. *)
Definition attempt : P unit :=
  data <- post_chat (JsObject [ (u16 "input", JsString (input rendered));
                                (u16 "threadId", threadId rendered) ]) ;;
  error <- read data "error" ;;
  if truthy error then raise (mkCaught JsUndefined (JsString (String error)))
  else
    newThreadId <- read data "threadId" ;;
    setThreadId newThreadId ;;
    setItem threadId_key (String newThreadId) ;;
    reply <- read data "reply" ;;
    timestamp <- now ;;
    let finalMessages := newMessages ++ [chat_message "assistant" reply timestamp] in
    setMessages finalMessages ;;
    setItem chatHistory (JSON_stringify engine (JsArray finalMessages)) ;;
    if voiceEnabled rendered then speakText reply else ret tt.

(** Its [catch] block. *)
Definition report (error : Caught) : P unit :=
  call (Console_error (or_else (response_data error) (caught_message error))) ;;
  timestamp <- now ;;
  let errorMessages :=
    newMessages ++ [chat_message "assistant" (error_content error) timestamp] in
  setMessages errorMessages ;;
  setItem chatHistory (JSON_stringify engine (JsArray errorMessages)).

(** Its [finally] block. *)
Definition settle : P unit :=
  setTyping false ;; setLoading false ;; setActiveRun false.

End Turn.

(** [sendMessage], called on a page whose state is what the component
    rendered last; nothing else touches the page while the request is
    awaited. *)
Definition sendMessage : P unit :=
  rendered <- get ;;
  if activeRun rendered || blank (input rendered) then ret tt
  else
    stopSpeaking ;;
    setActiveRun true ;;
    setLoading true ;;
    setTyping true ;;
    timestamp <- now ;;
    let userMessage := chat_message "user" (JsString (input rendered)) timestamp in
    let newMessages := messages rendered ++ [userMessage] in
    setMessages newMessages ;;
    setItem chatHistory (JSON_stringify engine (JsArray newMessages)) ;;
    setInput [] ;;
    (if textarea_mounted browser then call Textarea_height_auto else ret tt) ;;
    try_catch_finally (attempt rendered newMessages) (report newMessages) settle.

(** [loadFromStorage], which runs when the component mounts. *)
Definition loadFromStorage : P unit :=
  try_catch_finally
    (saved <- getItem chatHistory ;;
     savedThread <- getItem threadId_key ;;
     (match saved with
      | Some (c :: text) =>
          try_catch
            (match JSON_parse engine (c :: text) with
             | Normal (JsArray (m :: ms)) => setMessages (m :: ms)
             | Normal _ => ret tt
             | Throw parseError =>
                 raise (mkCaught JsUndefined (message parseError))
             end)
            (fun parseError =>
               call (Console_error (caught_message parseError)) ;;
               removeItem chatHistory)
      | _ => ret tt
      end) ;;
     match savedThread with
     | Some (c :: thread) => setThreadId (JsString (c :: thread))
     | _ => ret tt
     end)
    (fun error => call (Console_error (caught_message error)))
    (setIsLoading false).

(** The click on the clear button. *)
Definition clear : P unit :=
  setMessages [] ;;
  setThreadId JsNull ;;
  removeItem chatHistory ;;
  removeItem threadId_key.

End Component.

Arguments storage_access browser {A} c k p /.

(** A page as a first visit finds it. *)
Definition fresh : Page :=
  mkPage [] [] JsNull false false false false false true [] [].

(** The same page after a reload: the component starts from its initial
    state, [localStorage] is kept. *)
Definition reloaded (p : Page) : Page :=
  mkPage [] [] JsNull false false false false false true (storage p) (calls p).

Definition is_post (c : Call) : bool :=
  match c with Axios_post _ _ => true | _ => false end.

Definition is_speak (c : Call) : bool :=
  match c with Speech_speak _ => true | _ => false end.

(** How many of the calls satisfy [f]. *)
Definition number (f : Call -> bool) (l : list Call) : nat :=
  List.length (filter f l).

(** Every run of [m] adds to the calls made so far, and what it adds
    satisfies [Q]. *)
Definition logs {A} (Q : list Call -> Prop) (m : P A) : Prop :=
  forall p, exists new, calls (snd (m p)) = calls p ++ new /\ Q new.

Definition no_post (l : list Call) : Prop := number is_post l = 0.
Definition one_post (l : list Call) : Prop := number is_post l <= 1.

Section Observations.

Variable engine : Engine.
Variable browser : Browser.

(** The thread id of [p'] and its stored copy are those of [p], or a
    request posted since [p] was answered without [error] and the answer
    carried the id. *)
Definition thread_from_answer (p p' : Page) : Prop :=
  (threadId p' = threadId p
   /\ stored threadId_key (storage p') = stored threadId_key (storage p))
  \/ (exists new body rest data,
        calls p' = (calls p ++ new) ++ Axios_post (u16 "/api/chat") body :: rest
        /\ axios_post browser ((calls p ++ new) ++ [Axios_post (u16 "/api/chat") body])
           = Done data
        /\ truthy (property data (u16 "error")) = false
        /\ threadId p' = property data (u16 "threadId")
        /\ (stored threadId_key (storage p') = stored threadId_key (storage p)
            \/ stored threadId_key (storage p')
               = Some (String browser (property data (u16 "threadId"))))).

(** What a load finds in storage: the history, if it is stored, parses
    and is a non-empty array; the session id, if it is stored and not
    empty; and whether the stored history fails to parse. *)
Definition found_history (p : Page) : option (list JsValue) :=
  match stored chatHistory (storage p) with
  | Some (c :: text) =>
      match JSON_parse engine (c :: text) with
      | Normal (JsArray (m :: ms)) => Some (m :: ms)
      | _ => None
      end
  | _ => None
  end.

Definition found_thread (p : Page) : option jsstring :=
  match stored threadId_key (storage p) with
  | Some (c :: thread) => Some (c :: thread)
  | _ => None
  end.

Definition corrupted (p : Page) : bool :=
  match stored chatHistory (storage p) with
  | Some (c :: text) =>
      match JSON_parse engine (c :: text) with
      | Throw _ => true
      | _ => false
      end
  | _ => false
  end.

End Observations.

End Client.

(** ** Visits of the chat page *)

Module Visit.

Definition clock : jsstring := u16 "11/2/2026, 9:00:00 AM".

(** [String(v)] for [undefined], [null], booleans, the integers that
    [Scenario.print_number] prints, arrays of such and plain objects. *)
Fixpoint to_string (v : JsValue) : jsstring :=
  match v with
  | JsUndefined => u16 "undefined"
  | JsNull => u16 "null"
  | JsBool true => u16 "true"
  | JsBool false => u16 "false"
  | JsNumber x => Scenario.print_number x
  | JsString s => s
  | JsArray items =>
      Scenario.join (u16 ",")
        (map (fun x => match x with
                       | JsUndefined | JsNull => []
                       | _ => to_string x
                       end) items)
  | JsObject _ => u16 "[object Object]"
  end.

Definition QuotaExceededError : Client.Caught :=
  Client.mkCaught JsUndefined (JsString (u16 "The quota has been exceeded.")).

(** A browser with speech and a mounted text area, whose every request
    ends in [answer] and whose storage throws [fault], if any; the
    replies it speaks hold no markdown. *)
Definition browser_with (answer : Client.Outcome JsValue) (fault : option Client.Caught)
  : Client.Browser :=
  Client.mkBrowser (fun _ => answer) (fun _ => clock) (fun _ => fault) true true
    to_string (fun s => s) (fun _ => u16 "text.replace is not a function").

Definition answer : JsValue :=
  JsObject [ (u16 "reply", JsString (u16 "Hi"));
             (u16 "threadId", JsString (u16 "thread_1")) ].

Definition online : Client.Browser := browser_with (Client.Done answer) None.

Definition storage_full : Client.Browser :=
  browser_with (Client.Done answer) (Some QuotaExceededError).

(** The page of a first visit with a question typed in. *)
Definition asking : Client.Page :=
  Client.mkPage [] (u16 "Hello") JsNull false false false false false false [] [].

Definition history : list JsValue :=
  [ Client.chat_message "user" (JsString (u16 "Hello")) clock;
    Client.chat_message "assistant" (JsString (u16 "Hi")) clock ].

(** An engine that parses the stored form of [history] and nothing
    else. *)
Definition engine : Engine :=
  Scenario.engine_with [ (Scenario.stringify (JsArray history), JsArray history) ].

(** A visit that finds a truncated history and a session id in storage. *)
Definition truncated : Client.Page :=
  Client.mkPage [] [] JsNull false false false false false true
    [ (Client.chatHistory, u16 "[{"); (Client.threadId_key, u16 "thread_1") ] [].

End Visit.

(** ** Shapes of responses, and further observations and scenarios *)

Module Shapes.

Definition is_messages (e : Event) : bool :=
  match e with Get_messages _ _ => true | _ => false end.

(** The three kinds of answers of the chat route. A reply has status
    200, a non-empty [reply], the session id and a [Cache-Control]
    header. *)
Definition reply_response (r : Response) : Prop :=
  status r = 200
  /\ exists reply thread,
       reply <> []
       /\ body r = JsObject [ (u16 "reply", JsString reply); (u16 "threadId", thread) ]
       /\ (headers r = [ (Chat.Cache_Control, Chat.cacheable) ]
           \/ headers r = [ (Chat.Cache_Control, Chat.no_cache) ]).

Definition timeout_response (r : Response) : Prop :=
  status r = 504 /\ exists thread, r = Chat.timeoutResponse thread.

(** An error answer has status 500 and a truthy [error], and nothing
    else in its body. *)
Definition error_response (r : Response) : Prop :=
  status r = 500
  /\ exists e,
       truthy e = true
       /\ body r = JsObject [ (u16 "error", e) ]
       /\ (headers r = [] \/ headers r = [ (Chat.Cache_Control, Chat.no_cache) ]).

(** The [Cache-Control] value of a successful search. *)
Definition search_cacheable : jsstring :=
  u16 "s-maxage=600, stale-while-revalidate=1200".

(** [kept] is [s] with some of its code units deleted. *)
Inductive remains_of : jsstring -> jsstring -> Prop :=
| remains_nil : remains_of [] []
| remains_keep x kept s : remains_of kept s -> remains_of (x :: kept) (x :: s)
| remains_drop x kept s : remains_of kept s -> remains_of kept (x :: s).

(** A citation marker with the given digits and source text. *)
Definition marker_text (d1 d2 src : jsstring) : jsstring :=
  [Citation.lenticular_open] ++ d1 ++ [Citation.colon] ++ d2
    ++ [Citation.dagger] ++ src ++ [Citation.lenticular_close].

Definition digits (d : jsstring) : Prop :=
  d <> [] /\ Forall (fun x => Regex.accepts Regex.Digit x = true) d.

(** [m] is a citation marker: an open bracket, digits, a colon, digits, a
    dagger, a non-empty source without close bracket, a close bracket. *)
Definition is_marker (m : jsstring) : Prop :=
  exists d1 d2 src,
    digits d1 /\ digits d2 /\ src <> []
    /\ Forall (fun x => x <> Citation.lenticular_close) src
    /\ m = marker_text d1 d2 src.

(** [scanned s kept]: one scan of [s] from left to right, which removes
    each marker it meets and goes on after it, and keeps a code unit at
    which no marker starts, leaves [kept]. *)
Inductive scanned : jsstring -> jsstring -> Prop :=
| scanned_end : scanned [] []
| scanned_marker m rest kept :
    is_marker m -> scanned rest kept -> scanned (m ++ rest) kept
| scanned_keep x s kept :
    (forall m rest, is_marker m -> x :: s <> m ++ rest) ->
    scanned s kept -> scanned (x :: s) (x :: kept).

(** A marker starts in [s] before the first close bracket of [s]. *)
Fixpoint marker_before_close (s : jsstring) : bool :=
  match s with
  | [] => false
  | x :: s' =>
      match Regex.match_here Citation.marker s with
      | Some _ => true
      | None =>
          if N.eqb x Citation.lenticular_close then false else marker_before_close s'
      end
  end.

(** Some marker of [s] comes after an open bracket with no close bracket
    in between. *)
Fixpoint marker_inside_bracket (s : jsstring) : bool :=
  match s with
  | [] => false
  | x :: s' =>
      (N.eqb x Citation.lenticular_open && marker_before_close s')
      || marker_inside_bracket s'
  end.

Definition succeeds {A} (c : Completion A) : bool :=
  match c with Normal _ => true | Throw _ => false end.

(** The evaluation of the progress line of the first and of the second
    search handler on a request. *)
Definition first_progress_line (engine : Engine) (r : SearchRoute.SearchRequest)
  : Completion unit :=
  SearchRoute.announce engine (SearchRoute.query r)
    (SearchRoute.default_to (JsNumber 3) (SearchRoute.max_results r))
    (SearchRoute.default_to (JsArray []) (SearchRoute.include_domains r)).

Definition second_progress_line (engine : Engine) (r : SearchRoute.SearchRequest)
  : Completion unit :=
  SearchRouteEy.announce engine (SearchRoute.query r)
    (SearchRoute.default_to (JsNumber 3) (SearchRoute.max_results r))
    (SearchRoute.default_to (JsArray [ JsString (u16 "ey.com") ])
       (SearchRoute.include_domains r)).

Definition is_string (v : JsValue) : Prop :=
  match v with JsString _ => True | _ => False end.

(** A request of the type the chat route declares for the arguments of a
    search ([interface SearchArgs]): a string [query], a [max_results]
    that is absent or a number, an [include_domains] that is absent or an
    array of strings. *)
Definition search_args (r : SearchRoute.SearchRequest) : Prop :=
  is_string (SearchRoute.query r)
  /\ match SearchRoute.max_results r with
     | JsUndefined | JsNumber _ => True
     | _ => False
     end
  /\ match SearchRoute.include_domains r with
     | JsUndefined => True
     | JsArray items => Forall is_string items
     | _ => False
     end.

(** What the first and the second search handler send to the provider
    for a request, when they send something: the first handler adds the
    allow-list only if it is a non-empty array. *)
Definition first_handler_sends (engine : Engine) (process_env : ProcessEnv)
  (r : SearchRoute.SearchRequest) : Event :=
  Fetch SearchRoute.provider_url
    (JSON_stringify engine
       (JsObject
          (SearchRoute.fields process_env (SearchRoute.query r)
             (SearchRoute.default_to (JsNumber 3) (SearchRoute.max_results r))
           ++ match SearchRoute.include_domains r with
              | JsArray (d :: ds) => [ (u16 "include_domains", JsArray (d :: ds)) ]
              | _ => []
              end))).

Definition second_handler_sends (engine : Engine) (process_env : ProcessEnv)
  (r : SearchRoute.SearchRequest) : Event :=
  Fetch SearchRoute.provider_url
    (JSON_stringify engine
       (SearchRouteEy.providerRequest process_env (SearchRoute.query r)
          (SearchRoute.default_to (JsNumber 3) (SearchRoute.max_results r))
          (SearchRoute.default_to (JsArray [ JsString (u16 "ey.com") ])
             (SearchRoute.include_domains r)))).

(** A deployment without the search provider's key. *)
Definition env_without_search_key : ProcessEnv :=
  mkProcessEnv (Some (u16 "sk-test")) (Some (u16 "asst_1")) None None None.

(** What the search endpoint answers when it fails. *)
Definition search_failure : FetchResponse :=
  mkFetchResponse false 500 (Normal (u16 "upstream failed"))
    (Normal (JsObject [ (u16 "error", JsString (u16 "Tavily API key missing")) ])).

(** A world like [Scenario.stuck] whose [fetch] always resolves to
    [answer]. *)
Definition fetching (answer : FetchResponse) : World :=
  mkWorld
    (fun _ => Normal (JsString (u16 "thread_new")))
    (fun _ => Normal tt)
    (fun _ => Normal (JsString (u16 "run_1")))
    (fun _ => Normal (mkRunData (JsString (u16 "in_progress")) None))
    (fun _ => Normal tt)
    (fun _ => Throw Scenario.refused)
    (fun _ => Normal [])
    (fun _ => Normal answer).

(** An engine that decodes [text] as [v]. *)
Definition decoding (text : jsstring) (v : JsValue) : Engine :=
  Scenario.engine_with [ (text, v) ].

Definition null_call : ToolCall :=
  mkToolCall (u16 "call_4") (mkToolFunction (u16 "web_search") (u16 "null")).

End Shapes.
Import Shapes.

(** * Properties *)

(** ** Strings and the monad *)

Lemma jsstring_eqb_eq (a b : jsstring) : jsstring_eqb a b = true <-> a = b.
Proof.
  revert b; induction a as [|x a IH]; destruct b as [|y b]; simpl;
    try (split; congruence).
  rewrite andb_true_iff, N.eqb_eq, IH. split.
  - intros [-> ->]; reflexivity.
  - intros H; inversion H; auto.
Qed.

Lemma jsstring_eqb_refl (a : jsstring) : jsstring_eqb a a = true.
Proof. apply jsstring_eqb_eq; reflexivity. Qed.

Lemma jsstring_eqb_neq (a b : jsstring) : a <> b -> jsstring_eqb a b = false.
Proof.
  intros H. destruct (jsstring_eqb a b) eqn:E; [|reflexivity].
  apply jsstring_eqb_eq in E. contradiction.
Qed.

Lemma count_app p (a b : Trace) : count p (a ++ b) = count p a + count p b.
Proof. unfold count. rewrite filter_app, length_app. reflexivity. Qed.

Lemma count_none p (evs : Trace) :
  Forall (fun e => p e = false) evs -> count p evs = 0.
Proof.
  unfold count. induction 1 as [|e evs He _ IH]; simpl; [reflexivity|].
  rewrite He. exact IH.
Qed.

Section Emits.

Context {P : Event -> Prop}.

Lemma emits_ret {A} (a : A) : emits P (ret a).
Proof. intros t. exists []. simpl. rewrite app_nil_r. auto. Qed.

Lemma emits_throw {A} e : emits P (@throw A e).
Proof. intros t. exists []. simpl. rewrite app_nil_r. auto. Qed.

Lemma emits_lift {A} (c : Completion A) : emits P (lift c).
Proof. intros t. exists []. simpl. rewrite app_nil_r. auto. Qed.

Lemma emits_emit e : P e -> emits P (emit e).
Proof. intros He t. exists [e]. simpl. auto. Qed.

Lemma emits_request {A} e (oracle : Trace -> Completion A) :
  P e -> emits P (request e oracle).
Proof. intros He t. exists [e]. simpl. auto. Qed.

Lemma emits_bind {A B} (m : M A) (k : A -> M B) :
  emits P m -> (forall a, emits P (k a)) -> emits P (bind m k).
Proof.
  intros Hm Hk t. destruct (Hm t) as (evs & E & F).
  unfold bind. destruct (m t) as [[a|e] t1]; simpl in E; subst t1.
  - destruct (Hk a (t ++ evs)) as (evs' & E' & F').
    exists (evs ++ evs'). rewrite E', app_assoc. split; [reflexivity|].
    apply Forall_app; auto.
  - exists evs. auto.
Qed.

Lemma emits_try_catch {A} (m : M A) (h : Thrown -> M A) :
  emits P m -> (forall e, emits P (h e)) -> emits P (try_catch m h).
Proof.
  intros Hm Hh t. destruct (Hm t) as (evs & E & F).
  unfold try_catch. destruct (m t) as [[a|e] t1]; simpl in E; subst t1.
  - exists evs. auto.
  - destruct (Hh e (t ++ evs)) as (evs' & E' & F').
    exists (evs ++ evs'). rewrite E', app_assoc. split; [reflexivity|].
    apply Forall_app; auto.
Qed.

Lemma emits_mapM {A B} (f : A -> M B) (l : list A) :
  (forall a, emits P (f a)) -> emits P (mapM f l).
Proof.
  intros Hf. induction l as [|a l IH]; simpl.
  - apply emits_ret.
  - apply emits_bind; [apply Hf|]. intros b.
    apply emits_bind; [exact IH|]. intros bs. apply emits_ret.
Qed.

Lemma emits_get_prop engine v p : emits P (get_prop engine v p).
Proof. destruct v; simpl; first [apply emits_throw | apply emits_ret]. Qed.

End Emits.

Lemma emits_weaken {A} (P Q : Event -> Prop) (m : M A) :
  (forall e, P e -> Q e) -> emits P m -> emits Q m.
Proof.
  intros PQ Hm t. destruct (Hm t) as (evs & E & F).
  exists evs. split; [exact E|]. eapply Forall_impl; eauto.
Qed.

Ltac emits_step :=
  first
    [ apply emits_ret | apply emits_throw | apply emits_lift | apply emits_get_prop
    | apply emits_emit; simpl; solve [auto | intros; discriminate]
    | apply emits_request; simpl; solve [auto | intros; discriminate]
    | apply emits_bind; [|intros ?]
    | apply emits_try_catch; [|intros ?]
    | match goal with |- emits _ (if ?c then _ else _) => destruct c end
    | match goal with |- emits _ (match ?c with _ => _ end) => destruct c end ].

Lemma bind_Normal {A B} (m : M A) (k : A -> M B) t b t' :
  bind m k t = (Normal b, t') ->
  exists a t1, m t = (Normal a, t1) /\ k a t1 = (Normal b, t').
Proof.
  unfold bind. destruct (m t) as [[a|e] t1]; intros H.
  - exists a, t1. auto.
  - discriminate.
Qed.

Lemma bind_ret {A B} (a : A) (k : A -> M B) : bind (ret a) k = k a.
Proof. reflexivity. Qed.

Lemma bind_lift_Normal {A B} (a : A) (k : A -> M B) : bind (lift (Normal a)) k = k a.
Proof. reflexivity. Qed.

Lemma get_prop_object engine fields p :
  get_prop engine (JsObject fields) p = ret (property (JsObject fields) p).
Proof. reflexivity. Qed.

(** After a request, the trace is the old one, the request, and whatever
    the continuation adds. *)
Lemma request_then {A B} (P : Event -> Prop) e (oracle : Trace -> Completion A)
    (k : A -> M B) t :
  (forall a, emits P (k a)) ->
  exists rest,
    snd (bind (request e oracle) k t) = (t ++ [e]) ++ rest /\ Forall P rest.
Proof.
  intros Hk. unfold bind, request. cbv zeta.
  destruct (oracle (t ++ [e])) as [a|err].
  - destruct (Hk a (t ++ [e])) as (evs & E & F). exists evs. auto.
  - exists []. simpl. rewrite app_nil_r. auto.
Qed.

Lemma request_first {A B} e (oracle : Trace -> Completion A) (k : A -> M B) t :
  (forall a, emits (fun _ => True) (k a)) ->
  exists rest, snd (bind (request e oracle) k t) = (t ++ [e]) ++ rest.
Proof.
  intros Hk. destruct (request_then _ e oracle k t Hk) as (rest & E & _).
  exists rest. exact E.
Qed.

Lemma emits_at_most_0 {A} p (m : M A) :
  emits (fun e => p e = false) m -> emits_at_most p 0 m.
Proof.
  intros Hm t. destruct (Hm t) as (evs & E & F). exists evs.
  split; [exact E|]. rewrite (count_none _ _ F). auto.
Qed.

Lemma emits_at_most_weaken {A} p n n' (m : M A) :
  n <= n' -> emits_at_most p n m -> emits_at_most p n' m.
Proof.
  intros Hn Hm t. destruct (Hm t) as (evs & E & C). exists evs.
  split; [exact E|]. lia.
Qed.

Lemma emits_at_most_bind {A B} p n n' (m : M A) (k : A -> M B) :
  emits_at_most p n m -> (forall a, emits_at_most p n' (k a)) ->
  emits_at_most p (n + n') (bind m k).
Proof.
  intros Hm Hk t. destruct (Hm t) as (evs & E & C).
  unfold bind. destruct (m t) as [[a|e] t1]; simpl in E; subst t1.
  - destruct (Hk a (t ++ evs)) as (evs' & E' & C').
    exists (evs ++ evs'). rewrite E', app_assoc, count_app.
    split; [reflexivity|lia].
  - exists evs. split; [reflexivity|lia].
Qed.

Lemma emits_at_most_try_catch {A} p n (m : M A) (h : Thrown -> M A) :
  emits_at_most p n m -> (forall e, emits (fun e => p e = false) (h e)) ->
  emits_at_most p n (try_catch m h).
Proof.
  intros Hm Hh t. destruct (Hm t) as (evs & E & C).
  unfold try_catch. destruct (m t) as [[a|e] t1]; simpl in E; subst t1.
  - exists evs. auto.
  - destruct (Hh e (t ++ evs)) as (evs' & E' & F').
    exists (evs ++ evs'). rewrite E', app_assoc, count_app, (count_none _ _ F').
    split; [reflexivity|lia].
Qed.

Ltac inv_bind H :=
  let a := fresh "a" in
  let t1 := fresh "t" in
  let E := fresh "E" in
  apply bind_Normal in H; destruct H as (a & t1 & E & H).

(** ** The tool dispatcher *)

Section Dispatcher.

Variable engine : Engine.
Variable process_env : ProcessEnv.
Variable world : World.

Local Abbreviation web_search := (Chat.web_search engine process_env world).
Local Abbreviation handle_tool_call := (Chat.handle_tool_call engine process_env world).
Local Abbreviation dispatch := (Chat.dispatch engine process_env world).

Lemma web_search_keeps_id toolCall t out t' :
  web_search toolCall t = (Normal out, t') -> tool_call_id out = id toolCall.
Proof.
  unfold Chat.web_search. intros H.
  do 5 inv_bind H.
  destruct (negb (ok a3)).
  - do 2 inv_bind H. discriminate.
  - do 3 inv_bind H. inversion H. reflexivity.
Qed.

Lemma handle_tool_call_returns toolCall t :
  exists out t',
    handle_tool_call toolCall t = (Normal out, t') /\ tool_call_id out = id toolCall.
Proof.
  unfold Chat.handle_tool_call.
  destruct (jsstring_eqb _ _).
  - unfold try_catch.
    destruct (web_search toolCall t) as [[out|e] t1] eqn:E.
    + exists out, t1. split; [reflexivity|].
      eapply web_search_keeps_id; eauto.
    + eexists _, _. split; [reflexivity|]. reflexivity.
  - eexists _, _. split; reflexivity.
Qed.

Lemma dispatch_returns toolCalls t :
  exists outs t',
    dispatch toolCalls t = (Normal outs, t')
    /\ map tool_call_id outs = map id toolCalls.
Proof.
  unfold Chat.dispatch. revert t.
  induction toolCalls as [|toolCall rest IH]; intros t; simpl.
  - exists [], t. auto.
  - destruct (handle_tool_call_returns toolCall t) as (out & t1 & E1 & I1).
    destruct (IH t1) as (outs & t2 & E2 & I2).
    exists (out :: outs), t2. unfold bind at 1. rewrite E1.
    unfold bind at 1. rewrite E2. simpl. split; [reflexivity|].
    rewrite I1, I2. reflexivity.
Qed.

Lemma web_search_emits toolCall : emits tool_event (web_search toolCall).
Proof. unfold Chat.web_search. repeat emits_step. Qed.

Lemma handle_tool_call_emits toolCall : emits tool_event (handle_tool_call toolCall).
Proof.
  unfold Chat.handle_tool_call.
  repeat first [apply web_search_emits | emits_step].
Qed.

Lemma dispatch_emits toolCalls : emits tool_event (dispatch toolCalls).
Proof. apply emits_mapM. apply handle_tool_call_emits. Qed.

Lemma tool_event_not_submit e : tool_event e -> is_submit e = false.
Proof. destruct e; simpl; intros H; (reflexivity || contradiction). Qed.

Lemma web_search_trace toolCall t fields :
  JSON_parse engine (arguments (function toolCall)) = Normal (JsObject fields) ->
  exists rest,
    snd (web_search toolCall t)
    = (t ++ [Fetch (Chat.baseUrl process_env ++ u16 "/api/search")
               (JSON_stringify engine
                  (Chat.search_request
                     (property (JsObject fields) (u16 "query"))
                     (property (JsObject fields) (u16 "max_results"))
                     (property (JsObject fields) (u16 "include_domains"))))])
      ++ rest.
Proof.
  intros Hparse. unfold Chat.web_search.
  rewrite Hparse, bind_lift_Normal.
  repeat rewrite get_prop_object, bind_ret.
  apply request_first. intros r. repeat emits_step.
Qed.

(** C8. A tool call whose name is not [web_search] has no handler: the
    dispatcher answers it with the encoding of
    [{error: "Unknown function"}] under the call's id, completes normally
    and makes no request. *)
Theorem unknown_tool_is_reported (toolCall : ToolCall) (t : Trace) :
  name (function toolCall) <> u16 "web_search" ->
  handle_tool_call toolCall t
  = (Normal
       (mkToolOutput (id toolCall)
          (JSON_stringify engine
             (JsObject [ (u16 "error", JsString (u16 "Unknown function")) ]))),
     t).
Proof.
  intros H. unfold Chat.handle_tool_call.
  rewrite (jsstring_eqb_neq _ _ H). reflexivity.
Qed.

(** C3. Whatever the [try] block of a [web_search] call throws (a
    decoding failure of the arguments included), the dispatcher catches
    it, logs it, and answers the call with the encoding of
    [{error: <message>, results: []}] under the call's id; a tool call
    always yields an output, and so does the dispatch of any list of
    calls. *)
Theorem failed_tool_call_is_absorbed (toolCall : ToolCall) (t : Trace) :
  name (function toolCall) = u16 "web_search" ->
  (forall error t',
      web_search toolCall t = (Throw error, t') ->
      handle_tool_call toolCall t
      = (Normal
           (mkToolOutput (id toolCall)
              (JSON_stringify engine
                 (JsObject [ (u16 "error", Chat.message_of error);
                             (u16 "results", JsArray []) ]))),
         t' ++ [ConsoleError (Search_execution_error (Chat.message_of error))]))
  /\ (forall error,
        JSON_parse engine (arguments (function toolCall)) = Throw error ->
        web_search toolCall t = (Throw error, t))
  /\ (exists out t', handle_tool_call toolCall t = (Normal out, t'))
  /\ (forall toolCalls t0, exists outs t', dispatch toolCalls t0 = (Normal outs, t')).
Proof.
  intros H. repeat split.
  - intros error t' E. unfold Chat.handle_tool_call.
    rewrite H, jsstring_eqb_refl. unfold try_catch. rewrite E. reflexivity.
  - intros error E. unfold Chat.web_search, bind, lift. rewrite E. reflexivity.
  - destruct (handle_tool_call_returns toolCall t) as (out & t' & E & _). eauto.
  - intros toolCalls t0.
    destruct (dispatch_returns toolCalls t0) as (outs & t' & E & _). eauto.
Qed.

(** C10. When the decoded arguments of a [web_search] call are an object
    without [max_results], the request to the search endpoint carries
    [max_results: 3]; without [include_domains], it carries
    [include_domains: ["ey.com"]]; and each search handler passes that
    allow-list on to the provider. *)
Theorem search_defaults (toolCall : ToolCall) (t : Trace)
    (fields : list (jsstring * JsValue)) :
  name (function toolCall) = u16 "web_search" ->
  JSON_parse engine (arguments (function toolCall)) = Normal (JsObject fields) ->
  let args := JsObject fields in
  let max_results := or_else (property args (u16 "max_results")) (JsNumber 3) in
  let include_domains :=
    or_else (property args (u16 "include_domains"))
      (JsArray [ JsString (u16 "ey.com") ]) in
  (exists rest,
      snd (handle_tool_call toolCall t)
      = t ++ Fetch (Chat.baseUrl process_env ++ u16 "/api/search")
                (JSON_stringify engine
                   (JsObject
                      [ (u16 "query", property args (u16 "query"));
                        (u16 "max_results", max_results);
                        (u16 "include_domains", include_domains) ]))
             :: rest)
  /\ (lookup (u16 "max_results") fields = None -> max_results = JsNumber 3)
  /\ (lookup (u16 "include_domains") fields = None ->
      include_domains = JsArray [ JsString (u16 "ey.com") ])
  /\ (forall query limit,
        (exists tavilyRequest,
            SearchRoute.tavilyRequest engine process_env query limit
              (JsArray [ JsString (u16 "ey.com") ])
            = Normal tavilyRequest
            /\ own_property tavilyRequest "include_domains"
               = Some (JsArray [ JsString (u16 "ey.com") ]))
        /\ own_property
             (SearchRouteEy.providerRequest process_env query limit
                (JsArray [ JsString (u16 "ey.com") ]))
             "include_domains"
           = Some (JsArray [ JsString (u16 "ey.com") ])).
Proof.
  intros Hname Hparse args max_results include_domains.
  split; [|split; [|split; [|split; [eexists; split; reflexivity|reflexivity]]]].
  - destruct (web_search_trace toolCall t fields Hparse) as (rest & E).
    unfold Chat.handle_tool_call. rewrite Hname, jsstring_eqb_refl.
    unfold try_catch.
    destruct (web_search toolCall t) as [[out|e] t1]; simpl in E; subst t1.
    + exists rest. cbn [snd]. rewrite <- app_assoc. reflexivity.
    + eexists. unfold bind, emit, ret. cbn [snd]. rewrite <- !app_assoc. reflexivity.
  - intros L. unfold max_results, args, property. rewrite L. reflexivity.
  - intros L. unfold include_domains, args, property. rewrite L. reflexivity.
Qed.

End Dispatcher.

(** ** Stripping citation markers *)

Section Stripping.
Import Regex Citation.

Lemma greedy_shortens p k :
  (forall s rest, k s = Some rest -> List.length rest <= List.length s) ->
  forall s rest, greedy p k s = Some rest -> List.length rest <= List.length s.
Proof.
  intros Hk. induction s as [|x s IH]; simpl; intros rest H.
  - apply Hk in H. exact H.
  - destruct (p x).
    + destruct (greedy p k s) as [r|] eqn:G.
      * inversion H; subst. specialize (IH _ eq_refl). lia.
      * apply Hk in H. exact H.
    + apply Hk in H. exact H.
Qed.

Lemma match_here_shortens r :
  forall s rest, match_here r s = Some rest -> List.length rest <= List.length s.
Proof.
  induction r as [|[cl|cl] r IH]; simpl; intros s rest H.
  - inversion H; subst. auto.
  - destruct s as [|x s]; [discriminate|].
    destruct (accepts cl x); [|discriminate].
    apply IH in H. simpl. lia.
  - destruct s as [|x s]; [discriminate|].
    destruct (accepts cl x); [|discriminate].
    apply (greedy_shortens _ _ IH) in H. simpl. lia.
Qed.

Lemma match_here_One cl r x s rest :
  match_here (One cl :: r) (x :: s) = Some rest ->
  accepts cl x = true /\ match_here r s = Some rest.
Proof.
  simpl. destruct (accepts cl x); [auto|discriminate].
Qed.

(** A marker starts with an open bracket and is not empty. *)
Lemma marker_match x s rest :
  match_here marker (x :: s) = Some rest ->
  x = lenticular_open /\ List.length rest <= List.length s.
Proof.
  unfold marker. intros H. apply match_here_One in H. destruct H as [Hx H].
  split.
  - apply N.eqb_eq. exact Hx.
  - eapply match_here_shortens. exact H.
Qed.

Lemma no_bracket_no_marker s :
  Forall (fun x => x <> lenticular_open) s -> contains_marker s = false.
Proof.
  unfold contains_marker. induction 1 as [|x s Hx _ IH].
  - reflexivity.
  - cbn [test].
    destruct (match_here marker (x :: s)) as [rest|] eqn:E; [|exact IH].
    destruct (marker_match _ _ _ E) as [-> _]. contradiction.
Qed.

Lemma match_here_One_eq cl r x s :
  match_here (One cl :: r) (x :: s) = if accepts cl x then match_here r s else None.
Proof. reflexivity. Qed.

Lemma match_here_OneOrMore_eq cl r x s :
  match_here (OneOrMore cl :: r) (x :: s)
  = if accepts cl x then greedy (accepts cl) (match_here r) s else None.
Proof. reflexivity. Qed.

(** A greedy repetition runs over code units it accepts up to the first
    one it does not accept, and stays there if the rest of the pattern
    matches from there. *)
Lemma greedy_run p k run c rest r :
  Forall (fun x => p x = true) run ->
  p c = false ->
  k (c :: rest) = Some r ->
  greedy p k (run ++ c :: rest) = Some r.
Proof.
  intros Hrun Hc Hk. induction Hrun as [|x run Hx _ IH]; cbn [app greedy].
  - rewrite Hc. exact Hk.
  - rewrite Hx, IH. reflexivity.
Qed.

(** A well-formed marker is matched whole, whatever follows it. *)
Lemma marker_text_matches d1 d2 src b :
  digits d1 -> digits d2 ->
  src <> [] -> Forall (fun x => x <> lenticular_close) src ->
  match_here marker (marker_text d1 d2 src ++ b) = Some b.
Proof.
  intros [N1 D1] [N2 D2] N3 S3. unfold marker_text, marker.
  destruct d1 as [|x1 d1]; [contradiction|].
  destruct d2 as [|x2 d2]; [contradiction|].
  destruct src as [|x3 src]; [contradiction|].
  inversion D1 as [|? ? X1 D1']; inversion D2 as [|? ? X2 D2'];
    inversion S3 as [|? ? X3 S3']; subst.
  rewrite <- !app_assoc. cbn [app].
  rewrite match_here_One_eq.
  change (accepts (Exactly lenticular_open) lenticular_open) with true. cbv iota.
  rewrite match_here_OneOrMore_eq, X1.
  apply greedy_run; [exact D1'|reflexivity|].
  rewrite match_here_One_eq.
  change (accepts (Exactly colon) colon) with true. cbv iota.
  rewrite match_here_OneOrMore_eq, X2.
  apply greedy_run; [exact D2'|reflexivity|].
  rewrite match_here_One_eq.
  change (accepts (Exactly dagger) dagger) with true. cbv iota.
  rewrite match_here_OneOrMore_eq.
  assert (A3 : accepts (AnyBut lenticular_close) x3 = true).
  { cbn [accepts]. apply negb_true_iff, N.eqb_neq. exact X3. }
  rewrite A3.
  apply greedy_run.
  - eapply Forall_impl; [|exact S3'].
    intros x Hx. cbn [accepts]. apply negb_true_iff, N.eqb_neq. exact Hx.
  - cbn [accepts]. rewrite N.eqb_refl. reflexivity.
  - rewrite match_here_One_eq.
    change (accepts (Exactly lenticular_close) lenticular_close) with true.
    reflexivity.
Qed.

Lemma strip_skips r l b :
  strip r (List.length l) (l ++ b) = strip r 0 b.
Proof.
  induction l as [|x l IH]; [reflexivity|].
  destruct b as [|y b].
  - rewrite app_nil_r. clear IH. cbn [List.length].
    assert (H : forall n s, List.length s <= n -> strip r n s = []).
    { intros n s. revert n. induction s as [|z s IHs]; intros n Hn; [reflexivity|].
      destruct n as [|n]; [simpl in Hn; lia|].
      cbn [strip]. apply IHs. simpl in Hn. lia. }
    rewrite H; [reflexivity|simpl; lia].
  - cbn [List.length app strip]. exact IH.
Qed.

(** What a greedy repetition consumes is a run of code units it accepts,
    and the rest of the pattern matches after it. *)
Lemma greedy_sound p k :
  forall s rest, greedy p k s = Some rest ->
  exists run s', s = run ++ s' /\ Forall (fun x => p x = true) run /\ k s' = Some rest.
Proof.
  induction s as [|x s IH]; cbn [greedy]; intros rest H.
  - exists [], []. auto.
  - destruct (p x) eqn:Px; [|exists [], (x :: s); auto].
    destruct (greedy p k s) as [r|] eqn:G; [|exists [], (x :: s); auto].
    injection H as ->. destruct (IH _ eq_refl) as (run & s' & -> & R & K).
    exists (x :: run), s'. auto.
Qed.

Lemma one_sound c r s rest :
  match_here (One (Exactly c) :: r) s = Some rest ->
  exists s', s = c :: s' /\ match_here r s' = Some rest.
Proof.
  destruct s as [|x s]; [discriminate|]. rewrite match_here_One_eq. cbn [accepts].
  destruct (N.eqb_spec x c) as [->|]; [eauto|discriminate].
Qed.

Lemma more_sound cl r s rest :
  match_here (OneOrMore cl :: r) s = Some rest ->
  exists run s', run <> [] /\ Forall (fun x => accepts cl x = true) run
                 /\ s = run ++ s' /\ match_here r s' = Some rest.
Proof.
  destruct s as [|x s]; [discriminate|]. rewrite match_here_OneOrMore_eq.
  destruct (accepts cl x) eqn:A; [|discriminate]. intros H.
  apply greedy_sound in H. destruct H as (run & s' & -> & R & K).
  exists (x :: run), s'. repeat split; auto. discriminate.
Qed.

(** What the pattern matches is a marker. *)
Lemma marker_sound s rest :
  match_here marker s = Some rest -> exists m, is_marker m /\ s = m ++ rest.
Proof.
  unfold marker. intros H.
  apply one_sound in H. destruct H as (s1 & -> & H).
  apply more_sound in H. destruct H as (d1 & s2 & N1 & D1 & -> & H).
  apply one_sound in H. destruct H as (s3 & -> & H).
  apply more_sound in H. destruct H as (d2 & s4 & N2 & D2 & -> & H).
  apply one_sound in H. destruct H as (s5 & -> & H).
  apply more_sound in H. destruct H as (src & s6 & N3 & S3 & -> & H).
  apply one_sound in H. destruct H as (s7 & -> & H). injection H as ->.
  exists (marker_text d1 d2 src). split.
  - exists d1, d2, src. repeat split; auto.
    eapply Forall_impl; [|exact S3]. cbn [accepts]. intros x Hx ->.
    rewrite N.eqb_refl in Hx. discriminate.
  - unfold marker_text. rewrite <- !app_assoc. reflexivity.
Qed.


Lemma is_marker_matches m b : is_marker m -> match_here marker (m ++ b) = Some b.
Proof.
  intros (d1 & d2 & src & H1 & H2 & N3 & S3 & ->). now apply marker_text_matches.
Qed.

Lemma digit_not_close d :
  Forall (fun x => accepts Digit x = true) d ->
  Forall (fun x => x <> lenticular_close) d.
Proof.
  apply Forall_impl. intros x Hx ->. discriminate Hx.
Qed.

(** A marker is an open bracket, a text without close bracket and a
    close bracket. *)
Lemma is_marker_shape m :
  is_marker m ->
  exists inner,
    m = lenticular_open :: inner ++ [lenticular_close]
    /\ Forall (fun x => x <> lenticular_close) inner.
Proof.
  intros (d1 & d2 & src & [_ D1] & [_ D2] & _ & S3 & ->).
  exists (d1 ++ [colon] ++ d2 ++ [dagger] ++ src). split.
  - unfold marker_text. cbn [app]. f_equal.
    repeat (rewrite <- app_assoc; cbn [app]). reflexivity.
  - repeat (apply Forall_app; split); auto using digit_not_close;
      repeat constructor; discriminate.
Qed.

Lemma strip_marker m rest :
  is_marker m -> strip marker 0 (m ++ rest) = strip marker 0 rest.
Proof.
  intros Hm. pose proof (is_marker_matches m rest Hm) as M.
  destruct (is_marker_shape m Hm) as (inner & -> & _).
  cbn [app] in *. cbn [strip]. rewrite M.
  cbn [List.length]. rewrite length_app.
  replace (S (List.length (inner ++ [lenticular_close]) + List.length rest)
           - List.length rest)
    with (S (List.length (inner ++ [lenticular_close]))) by lia.
  apply strip_skips.
Qed.

(** The replacement is such a scan. *)
Lemma strip_scans s : scanned s (strip marker 0 s).
Proof.
  remember (List.length s) as n eqn:En.
  revert s En. induction n as [n IH] using lt_wf_ind. intros s En.
  destruct s as [|x s]; [constructor|].
  destruct (match_here marker (x :: s)) as [rest|] eqn:E.
  - destruct (marker_sound _ _ E) as (m & Hm & Es). rewrite Es.
    rewrite (strip_marker m rest Hm). constructor; [exact Hm|].
    apply (IH (List.length rest)); [|reflexivity].
    destruct (is_marker_shape m Hm) as (inner & -> & _).
    rewrite En, Es. cbn [app List.length]. rewrite length_app. lia.
  - cbn [strip]. rewrite E. constructor.
    + intros m rest Hm Es. rewrite Es, (is_marker_matches m rest Hm) in E. discriminate.
    + apply (IH (List.length s)); [subst n; cbn; lia|reflexivity].
Qed.

(** The scan leaves nothing else. *)
Lemma scanned_strip s kept : scanned s kept -> kept = strip marker 0 s.
Proof.
  induction 1 as [|m rest kept Hm _ IH|x s kept Hx _ IH]; [reflexivity| |].
  - rewrite (strip_marker m rest Hm). exact IH.
  - cbn [strip]. destruct (match_here marker (x :: s)) as [rest|] eqn:E.
    + destruct (marker_sound _ _ E) as (m & Hm & Es). destruct (Hx m rest Hm Es).
    + rewrite IH. reflexivity.
Qed.

(** If what a scan leaves begins with a text without close bracket and a
    close bracket, either the scanned text begins so too, or a marker was
    removed inside that text. *)
Lemma scanned_up_to_close s kept :
  scanned s kept ->
  forall inner after,
    Forall (fun x => x <> lenticular_close) inner ->
    kept = inner ++ lenticular_close :: after ->
    (exists after', s = inner ++ lenticular_close :: after')
    \/ (exists b m c,
          is_marker m /\ Forall (fun x => x <> lenticular_close) b /\ s = b ++ m ++ c).
Proof.
  induction 1 as [|m rest kept Hm _ _|x s kept Hx Hs IH]; intros inner after Hi E.
  - destruct inner; discriminate E.
  - right. exists [], m, rest. auto.
  - destruct inner as [|y inner].
    + injection E as -> _. left. exists s. reflexivity.
    + injection E as -> E. inversion Hi as [|? ? Hy Hi']; subst.
      destruct (IH inner after Hi' eq_refl) as [(after' & ->)|(b & m & c & Hm & Hb & ->)].
      * left. exists after'. reflexivity.
      * right. exists (y :: b), m, c. auto.
Qed.

(** A marker in what the scan leaves was formed by joining the text
    around a removed marker. *)
Lemma scanned_marker_joined s kept :
  scanned s kept ->
  forall u m w,
    is_marker m -> kept = u ++ m ++ w ->
    exists a b m' c,
      is_marker m' /\ Forall (fun x => x <> lenticular_close) b
      /\ s = a ++ lenticular_open :: b ++ m' ++ c.
Proof.
  induction 1 as [|m0 rest kept Hm0 _ IH|x s kept Hx Hs IH]; intros u m w Hm E.
  - destruct (is_marker_shape m Hm) as (inner & -> & _). destruct u; discriminate E.
  - destruct (IH u m w Hm E) as (a & b & m' & c & Hm' & Hb & ->).
    exists (m0 ++ a), b, m', c. rewrite <- app_assoc. auto.
  - destruct u as [|y u].
    + destruct (is_marker_shape m Hm) as (inner & Em & Hi).
      rewrite Em in E. cbn [app] in E. rewrite <- app_assoc in E. cbn [app] in E.
      injection E as -> E.
      destruct (scanned_up_to_close s kept Hs inner w Hi E)
        as [(after' & ->)|(b & m' & c & Hm' & Hb & ->)].
      * exfalso. apply (Hx m after' Hm). rewrite Em. cbn [app].
        rewrite <- app_assoc. reflexivity.
      * exists [], b, m', c. auto.
    + injection E as -> E.
      destruct (IH u m w Hm E) as (a & b & m' & c & Hm' & Hb & ->).
      exists (y :: a), b, m', c. auto.
Qed.

Lemma contains_marker_occurs s :
  contains_marker s = true -> exists u m w, is_marker m /\ s = u ++ m ++ w.
Proof.
  unfold contains_marker. induction s as [|x s IH]; cbn [test].
  - cbn. discriminate.
  - destruct (match_here marker (x :: s)) as [rest|] eqn:E.
    + intros _. destruct (marker_sound _ _ E) as (m & Hm & Es).
      exists [], m, rest. auto.
    + intros H. destruct (IH H) as (u & m & w & Hm & ->).
      exists (x :: u), m, w. auto.
Qed.

Lemma marker_before_close_finds b m c :
  is_marker m -> Forall (fun x => x <> lenticular_close) b ->
  marker_before_close (b ++ m ++ c) = true.
Proof.
  intros Hm. induction 1 as [|y b Hy _ IH].
  - cbn [app]. pose proof (is_marker_matches m c Hm) as M.
    destruct (is_marker_shape m Hm) as (inner & -> & _).
    cbn [app] in *. cbn [marker_before_close]. rewrite M. reflexivity.
  - cbn [app marker_before_close].
    destruct (match_here marker (y :: b ++ m ++ c)); [reflexivity|].
    destruct (N.eqb_spec y lenticular_close); [contradiction|exact IH].
Qed.

Lemma marker_inside_bracket_finds a b m c :
  is_marker m -> Forall (fun x => x <> lenticular_close) b ->
  marker_inside_bracket (a ++ lenticular_open :: b ++ m ++ c) = true.
Proof.
  intros Hm Hb. induction a as [|y a IH]; cbn [app marker_inside_bracket].
  - rewrite N.eqb_refl, (marker_before_close_finds b m c Hm Hb). reflexivity.
  - rewrite IH. apply orb_true_r.
Qed.

(** When no marker comes after an open bracket that is not closed before
    it, nothing is joined: what the replacement leaves holds no marker. *)
Lemma stripped_is_clean raw :
  marker_inside_bracket raw = false -> contains_marker (strip_markers raw) = false.
Proof.
  intros H. destruct (contains_marker (strip_markers raw)) eqn:C; [|reflexivity].
  destruct (contains_marker_occurs _ C) as (u & m & w & Hm & E).
  destruct (scanned_marker_joined raw _ (strip_scans raw) u m w Hm E)
    as (a & b & m' & c & Hm' & Hb & ->).
  rewrite (marker_inside_bracket_finds a b m' c Hm' Hb) in H. discriminate.
Qed.

End Stripping.

(** ** The polling loop *)

Section Orchestrator.

Variable engine : Engine.
Variable process_env : ProcessEnv.
Variable world : World.

Local Abbreviation dispatch := (Chat.dispatch engine process_env world).
Local Abbreviation poll_iteration := (Chat.poll_iteration engine process_env world).
Local Abbreviation poll_loop := (Chat.poll_loop engine process_env world).
Local Abbreviation conclude := (Chat.conclude process_env world).
Local Abbreviation request_headers := (Chat.request_headers process_env).

(** C2. In a poll that finds the run in [requires_action] with a
    non-empty list of pending tool calls, the dispatcher completes with
    one output per call, in the order of the calls and under their ids
    (so with the same count, and without duplicates when the ids have
    none), whatever the handlers did; the pass then submits exactly these
    outputs in one request, the only submission of the pass. *)
Theorem tool_outputs_complete (currentThreadId runId : JsValue)
    (toolCalls : list ToolCall) (t : Trace) :
  let polled :=
    t ++ [SetTimeout 2000; Get_run request_headers currentThreadId runId] in
  axios_get_run world polled
  = Normal (mkRunData (JsString (u16 "requires_action")) (Some toolCalls)) ->
  toolCalls <> [] ->
  exists outs evs,
    dispatch toolCalls polled = (Normal outs, polled ++ evs)
    /\ List.length outs = List.length toolCalls
    /\ map tool_call_id outs = map id toolCalls
    /\ (NoDup (map id toolCalls) -> NoDup (map tool_call_id outs))
    /\ count is_submit evs = 0
    /\ snd (poll_iteration currentThreadId runId t)
       = polled ++ evs
         ++ [Post_submit_tool_outputs request_headers currentThreadId runId outs].
Proof.
  intros polled Hget Hne.
  destruct (dispatch_returns engine process_env world toolCalls polled)
    as (outs & t' & E & I).
  destruct (dispatch_emits engine process_env world toolCalls polled)
    as (evs & E' & F).
  rewrite E in E'. simpl in E'. subst t'.
  exists outs, evs. repeat split.
  - exact E.
  - rewrite <- (length_map tool_call_id), I, length_map. reflexivity.
  - exact I.
  - rewrite I. auto.
  - apply count_none. eapply Forall_impl; [|exact F].
    intros e. apply tool_event_not_submit.
  - unfold Chat.poll_iteration.
    unfold bind at 1, emit at 1. unfold bind at 1, request at 1. cbv zeta.
    replace ((t ++ [SetTimeout 2000]) ++ [Get_run request_headers currentThreadId runId])
      with polled by (unfold polled; rewrite <- app_assoc; reflexivity).
    rewrite Hget.
    change (run_status (mkRunData (JsString (u16 "requires_action")) (Some toolCalls)))
      with (JsString (u16 "requires_action")).
    change (tool_calls (mkRunData (JsString (u16 "requires_action")) (Some toolCalls)))
      with (Some toolCalls).
    change (strict_eq_string (JsString (u16 "requires_action")) (u16 "requires_action"))
      with true.
    cbv iota.
    destruct toolCalls as [|toolCall rest]; [contradiction|].
    change (0 <? List.length (toolCall :: rest)) with true. cbv iota.
    unfold bind at 1. rewrite E.
    unfold bind, request, ret. cbv zeta.
    destruct (axios_post_submit_tool_outputs world _);
      simpl; rewrite <- app_assoc; reflexivity.
Qed.

(** With no pending tool call (the list is absent or empty) the pass
    dispatches and submits nothing, and the status stays as polled. *)
Lemma no_pending_calls_no_submission thread run status t :
  let polled := t ++ [SetTimeout 2000; Get_run request_headers thread run] in
  axios_get_run world polled = Normal (mkRunData status None)
  \/ axios_get_run world polled = Normal (mkRunData status (Some [])) ->
  poll_iteration thread run t = (Normal status, polled).
Proof.
  intros polled H. unfold Chat.poll_iteration.
  unfold bind at 1, emit at 1. unfold bind at 1, request at 1. cbv zeta.
  replace ((t ++ [SetTimeout 2000]) ++ [Get_run request_headers thread run])
    with polled by (unfold polled; rewrite <- app_assoc; reflexivity).
  destruct H as [-> | ->]; cbn [run_status tool_calls];
    destruct (strict_eq_string status (u16 "requires_action")); reflexivity.
Qed.

Lemma poll_loop_eq thread run fuel status retries :
  poll_loop thread run fuel status retries
  = if Chat.polling status && (retries <? Chat.maxRetries) then
      match fuel with
      | O => ret None
      | S fuel' =>
          bind (poll_iteration thread run)
            (fun status' => poll_loop thread run fuel' status' (S retries))
      end
    else ret (Some (status, retries)).
Proof. destruct fuel; reflexivity. Qed.

(** One pass sets one timer of 2000 ms, then polls the run once, then
    services the pending tool calls, if any. *)
Lemma poll_iteration_trace thread run t :
  exists evs,
    snd (poll_iteration thread run t)
    = t ++ SetTimeout 2000 :: Get_run request_headers thread run :: evs
    /\ Forall servicing_event evs.
Proof.
  unfold Chat.poll_iteration. unfold bind at 1, emit at 1.
  match goal with
  | |- context [bind (request ?ev ?o) ?k ?tr] =>
      destruct (request_then servicing_event ev o k tr) as (rest & E & F)
  end.
  - intros statusRes.
    destruct (strict_eq_string _ _); [|apply emits_ret].
    destruct (0 <? _); [|apply emits_ret].
    apply emits_bind.
    + eapply emits_weaken; [|apply dispatch_emits].
      intros e He. destruct e; simpl in *; auto.
    + intros outs. apply emits_bind; [|intros; apply emits_ret].
      apply emits_request. exact I.
  - exists rest. rewrite E, <- !app_assoc. split; [reflexivity|exact F].
Qed.

Lemma poll_iteration_emits (P : Event -> Prop) thread run :
  P (SetTimeout 2000) ->
  (forall h th r, P (Get_run h th r)) ->
  (forall e, servicing_event e -> P e) ->
  emits P (poll_iteration thread run).
Proof.
  intros Hs Hp Hv t.
  destruct (poll_iteration_trace thread run t) as (evs & E & F).
  eexists. split; [exact E|].
  repeat constructor; auto.
  eapply Forall_impl; [|exact F]. exact Hv.
Qed.

Lemma poll_loop_emits (P : Event -> Prop) thread run fuel :
  P (SetTimeout 2000) ->
  (forall h th r, P (Get_run h th r)) ->
  (forall e, servicing_event e -> P e) ->
  forall status retries, emits P (poll_loop thread run fuel status retries).
Proof.
  intros Hs Hp Hv. induction fuel as [|fuel IH]; intros status retries;
    rewrite poll_loop_eq; destruct (_ && _); try apply emits_ret.
  apply emits_bind; [apply poll_iteration_emits; assumption|].
  intros status'. apply IH.
Qed.



(** With as much fuel as the retry budget leaves, the loop never runs out
    of fuel, and it leaves only when the status stops the polling or the
    budget is spent. *)
Lemma poll_loop_returns thread run fuel :
  forall status retries t,
    Chat.maxRetries - retries <= fuel ->
    (exists e t', poll_loop thread run fuel status retries t = (Throw e, t'))
    \/ (exists status' retries' t',
          poll_loop thread run fuel status retries t
          = (Normal (Some (status', retries')), t')
          /\ retries <= retries'
          /\ (retries <= Chat.maxRetries -> retries' <= Chat.maxRetries)
          /\ (Chat.polling status' = false \/ Chat.maxRetries <= retries')).
Proof.
  induction fuel as [|fuel IH]; intros status retries t Hfuel;
    rewrite poll_loop_eq.
  - destruct (Nat.ltb_spec retries Chat.maxRetries) as [Hlt|Hge]; [lia|].
    rewrite andb_false_r. right. exists status, retries, t.
    repeat split; auto.
  - destruct (Chat.polling status) eqn:Hp; simpl andb.
    + destruct (Nat.ltb_spec retries Chat.maxRetries) as [Hlt|Hge].
      * cbn [andb]. cbv iota. unfold bind.
        destruct (poll_iteration thread run t) as [[status'|e] t1].
        -- assert (Hf : Chat.maxRetries - S retries <= fuel) by lia.
           destruct (IH status' (S retries) t1 Hf) as
             [(e & t' & E)|(s2 & r2 & t' & E & H1 & H2 & H3)].
           ++ rewrite E. left. eauto.
           ++ rewrite E. right. exists s2, r2, t'. repeat split; auto; lia.
        -- left. eauto.
      * right. exists status, retries, t. repeat split; auto.
    + right. exists status, retries, t. repeat split; auto.
Qed.

(** *** After the loop *)

Lemma conclude_timeout thread run status t :
  Chat.terminal status = false ->
  let cancelling :=
    t ++ [ConsoleError (Run_timeout status); Post_cancel request_headers thread run] in
  conclude thread run status t
  = (Normal (Chat.timeoutResponse thread),
     cancelling
     ++ match axios_post_cancel world cancelling with
        | Normal _ => []
        | Throw cancelError =>
            [ConsoleError (Failed_to_cancel_run (Chat.message_of cancelError))]
        end).
Proof.
  intros H cancelling. unfold Chat.terminal in H.
  apply orb_false_iff in H. destruct H as [H H3].
  apply orb_false_iff in H. destruct H as [H1 H2].
  unfold Chat.conclude. rewrite H1, H2, H3. cbn [negb andb]. cbv iota.
  unfold bind at 1, emit at 1. unfold bind at 1, try_catch, request. cbv zeta.
  replace ((t ++ [ConsoleError (Run_timeout status)])
           ++ [Post_cancel request_headers thread run])
    with cancelling by (unfold cancelling; rewrite <- app_assoc; reflexivity).
  destruct (axios_post_cancel world cancelling) as [u|cancelError].
  - unfold ret. rewrite app_nil_r. reflexivity.
  - unfold emit, ret. reflexivity.
Qed.

(** C1. When a run of the polling loop ends with a status other than
    [completed], [failed] and [cancelled], the handler logs the timeout and
    then issues one cancel request, the only one of the whole trace;
    whether that request succeeds or throws, the handler goes on (a
    failure adds one error line and nothing else) and answers with the
    timeout response: status 504, the session id in [threadId], no
    [reply], and [Cache-Control: no-cache]. *)
Theorem timeout_cancels_once (currentThreadId runId : JsValue) (fuel : nat)
    (status0 : JsValue) (retries0 : nat) (status : JsValue) (retries : nat)
    (t0 t1 : Trace) :
  poll_loop currentThreadId runId fuel status0 retries0 t0
  = (Normal (Some (status, retries)), t1) ->
  Chat.terminal status = false ->
  let cancelling :=
    t1 ++ [ConsoleError (Run_timeout status);
           Post_cancel request_headers currentThreadId runId] in
  exists log response,
    conclude currentThreadId runId status t1 = (Normal response, cancelling ++ log)
    /\ (log = [] \/ exists detail, log = [ConsoleError (Failed_to_cancel_run detail)])
    /\ count is_cancel (cancelling ++ log) = count is_cancel t0 + 1
    /\ Effects.status response = 504
    /\ body_field "threadId" response = Some currentThreadId
    /\ body_field "reply" response = None
    /\ headers_get Chat.Cache_Control response = Some Chat.no_cache.
Proof.
  intros Hloop Hterm cancelling.
  destruct (poll_loop_emits (fun e => is_cancel e = false) currentThreadId runId fuel
              eq_refl (fun _ _ _ => eq_refl)
              (fun e => match e with
                        | Fetch _ _ | ConsoleError _
                        | Post_submit_tool_outputs _ _ _ _ => fun _ => eq_refl
                        | _ => fun F => match F with end
                        end)
              status0 retries0 t0) as (evs & E & F).
  rewrite Hloop in E. simpl in E.
  pose proof (conclude_timeout currentThreadId runId status t1 Hterm) as C.
  cbv zeta in C. fold cancelling in C.
  eexists _, _. split; [exact C|].
  assert (Hlog : forall l,
             l = match axios_post_cancel world cancelling with
                 | Normal _ => []
                 | Throw cancelError =>
                     [ConsoleError (Failed_to_cancel_run (Chat.message_of cancelError))]
                 end ->
             (l = [] \/ exists detail, l = [ConsoleError (Failed_to_cancel_run detail)])
             /\ count is_cancel l = 0).
  { intros l ->. destruct (axios_post_cancel world cancelling); split; eauto. }
  destruct (Hlog _ eq_refl) as [Hshape Hcount].
  split; [exact Hshape|]. split.
  - rewrite count_app, Hcount. unfold cancelling.
    rewrite count_app, E, count_app, (count_none _ _ F).
    change (count is_cancel
              [ConsoleError (Run_timeout status);
               Post_cancel request_headers currentThreadId runId]) with 1.
    lia.
  - repeat split; reflexivity.
Qed.

Lemma conclude_emits thread run status :
  emits concluding_event (conclude thread run status).
Proof. unfold Chat.conclude. repeat emits_step. Qed.


(** *** The whole handler *)

Local Abbreviation orchestrate := (Chat.orchestrate engine process_env world).
Local Abbreviation POST_fuel := (Chat.POST_fuel engine process_env world).
Local Abbreviation POST := (Chat.POST engine process_env world).

Local Abbreviation converse := (Chat.converse engine process_env world).

Lemma converse_never_out_of_fuel thread input t t' :
  converse Chat.maxRetries thread input t <> (Normal None, t').
Proof.
  unfold Chat.converse. intros E. do 3 inv_bind E.
  destruct a1 as [[status retries]|].
  - inv_bind E. discriminate.
  - match goal with
    | H : Chat.poll_loop _ _ _ ?th ?r ?f ?s ?n ?tr = (Normal None, _) |- _ =>
        destruct (poll_loop_returns th r f s n tr)
          as [(e & tl & E')|(s' & r' & tl & E' & _)]; [lia| |];
        rewrite E' in H; discriminate
    end.
Qed.

Lemma converse_emits fuel thread input :
  emits turn_event (converse fuel thread input).
Proof.
  unfold Chat.converse.
  do 2 (apply emits_bind; [repeat emits_step|intros ?]).
  apply emits_bind.
  - apply poll_loop_emits; simpl; auto.
    intros e He. destruct e; simpl in *; auto; contradiction.
  - intros [[status retries]|]; [|apply emits_ret].
    apply emits_bind; [|intros; apply emits_ret].
    eapply emits_weaken; [|apply conclude_emits].
    intros e He. destruct e; simpl in *; auto; contradiction.
Qed.


(** With the retry budget as fuel, the handler always answers. *)
Lemma POST_returns req_json t :
  exists response t', POST req_json t = (Normal (Some response), t').
Proof.
  unfold Chat.POST, Chat.POST_fuel, try_catch.
  destruct (orchestrate Chat.maxRetries req_json t) as [[[response|]|e] t1] eqn:E.
  - eauto.
  - exfalso. unfold Chat.orchestrate in E.
    do 3 inv_bind E.
    destruct (_ || _); [discriminate|].
    inv_bind E. eapply converse_never_out_of_fuel; eauto.
  - unfold bind, emit, ret. eauto.
Qed.




(** *** Responses *)

Lemma conclude_response thread run status t response t' :
  conclude thread run status t = (Normal response, t') ->
  body_field "threadId" response = Some thread
  /\ headers_get Chat.Cache_Control response
     = Some (if strict_eq_string status (u16 "completed")
             then Chat.cacheable else Chat.no_cache)
  /\ (Effects.status response = 504 /\ Chat.terminal status = false
      \/ Effects.status response = 200 /\ Chat.terminal status = true).
Proof.
  unfold Chat.conclude, Chat.terminal.
  destruct (strict_eq_string status (u16 "completed")),
           (strict_eq_string status (u16 "failed")),
           (strict_eq_string status (u16 "cancelled"));
    cbn [negb andb orb]; cbv iota; intros H;
    repeat inv_bind H; inversion H; subst;
    (split; [reflexivity|split; [reflexivity|auto]]).
Qed.

Lemma converse_response thread input t response t' :
  converse Chat.maxRetries thread input t = (Normal (Some response), t') ->
  body_field "threadId" response = Some thread.
Proof.
  unfold Chat.converse. intros H. do 3 inv_bind H.
  destruct a1 as [[status retries]|]; [|discriminate].
  inv_bind H. inversion H; subst.
  eapply conclude_response; eauto.
Qed.

(** The response of the outer [catch] is not cacheable either. *)
Lemma errorResponse_no_cache error :
  headers_get Chat.Cache_Control (Chat.errorResponse error) = Some Chat.no_cache
  /\ Effects.status (Chat.errorResponse error) = 500
  /\ body_field "threadId" (Chat.errorResponse error) = None.
Proof. repeat split; reflexivity. Qed.

(** C6. When the API key or the assistant id is not configured, the
    handler answers a readable request with status 500 and
    [{error: "Missing OpenAI credentials"}] before any remote call, and the
    response carries no [Cache-Control] header at all. *)
Theorem credentials_error_sets_no_cache_header
    (fields : list (jsstring * JsValue)) (t : Trace) :
  env_truthy (OPENAI_API_KEY process_env) = false
  \/ env_truthy (OPENAI_ASSISTANT_ID process_env) = false ->
  exists response,
    POST (Normal (JsObject fields)) t = (Normal (Some response), t)
    /\ Effects.status response = 500
    /\ body_field "error" response = Some (JsString (u16 "Missing OpenAI credentials"))
    /\ headers_get Chat.Cache_Control response = None.
Proof.
  intros H. exists Chat.credentialsResponse.
  split; [|repeat split; reflexivity].
  unfold Chat.POST, Chat.POST_fuel, try_catch, Chat.orchestrate.
  rewrite bind_lift_Normal.
  repeat rewrite get_prop_object, bind_ret.
  assert (C : negb (env_truthy (OPENAI_API_KEY process_env))
              || negb (env_truthy (OPENAI_ASSISTANT_ID process_env)) = true).
  { destruct H as [-> | ->]; [reflexivity|apply orb_true_r]. }
  rewrite C. reflexivity.
Qed.

(** C7, as amended. On a completed run whose first assistant message
    has a text, the reply is what one scan of that text from left to
    right leaves, which removes each marker it meets and goes on after
    it; the fallback text stands in when nothing is left. The reply
    contains no marker when no marker of the text comes after an open
    bracket with no close bracket in between; otherwise the text around a
    removed marker may join into a marker, which is not scanned again. *)
Theorem citations_stripped (currentThreadId runId : JsValue) (t : Trace)
    (messages : list Message) (raw : jsstring) :
  axios_get_messages world (t ++ [Get_messages request_headers currentThreadId])
  = Normal messages ->
  Chat.first_text_value
    (find (fun m => strict_eq_string (role m) (u16 "assistant")) messages)
  = Some raw ->
  exists response reply kept t',
    conclude currentThreadId runId (JsString (u16 "completed")) t
    = (Normal response, t')
    /\ body_field "reply" response = Some (JsString reply)
    /\ scanned raw kept
    /\ (forall kept', scanned raw kept' -> kept' = kept)
    /\ reply = match kept with
               | [] => u16 "No valid response."
               | _ :: _ => kept
               end
    /\ (marker_inside_bracket raw = false -> Citation.contains_marker reply = false).
Proof.
  intros Hmessages Hfirst.
  pose proof (strip_scans raw) as Hscan.
  assert (Hclean : marker_inside_bracket raw = false ->
                   Citation.contains_marker (Citation.strip_markers raw) = false)
    by apply stripped_is_clean.
  assert (Hunique : forall kept', scanned raw kept' -> kept' = Citation.strip_markers raw)
    by (intros kept' H; exact (scanned_strip raw kept' H)).
  unfold Chat.conclude.
  change (strict_eq_string (JsString (u16 "completed")) (u16 "completed")) with true.
  cbn [negb andb]. cbv iota.
  unfold bind, request. cbv zeta. rewrite Hmessages.
  unfold Chat.completed_reply. rewrite Hfirst. cbn [option_map].
  fold (Regex.replace_all Citation.marker raw) in Hscan.
  fold (Citation.strip_markers raw) in Hscan.
  destruct (Citation.strip_markers raw) as [|x rest].
  - eexists _, _, [], _. split; [reflexivity|].
    split; [reflexivity|]. split; [exact Hscan|]. split; [exact Hunique|].
    split; reflexivity.
  - eexists _, _, (x :: rest), _. split; [reflexivity|].
    split; [reflexivity|]. split; [exact Hscan|]. split; [exact Hunique|].
    split; [reflexivity|exact Hclean].
Qed.

(** C4, as amended. When the request names a session, the handler never
    creates one, and its response carries that session id in [threadId]
    whenever it carries one: the replies and the timeout response do, the
    error responses (status 500) have no [threadId]. *)
Theorem session_reuse (fields : list (jsstring * JsValue)) (threadId : JsValue) :
  lookup (u16 "threadId") fields = Some threadId ->
  truthy threadId = true ->
  exists response t,
    run (POST (Normal (JsObject fields))) = (Normal (Some response), t)
    /\ count is_create_thread t = 0
    /\ match body_field "threadId" response with
       | Some sessionId => sessionId = threadId
       | None => Effects.status response = 500
       end.
Proof.
  intros Hfield Htruthy.
  unfold run, Chat.POST, Chat.POST_fuel, try_catch, Chat.orchestrate.
  rewrite bind_lift_Normal.
  repeat rewrite get_prop_object, bind_ret.
  replace (property (JsObject fields) (u16 "threadId")) with threadId
    by (unfold property; rewrite Hfield; reflexivity).
  destruct (_ || _).
  - exists Chat.credentialsResponse, []. repeat split; reflexivity.
  - rewrite Htruthy. cbn [negb]. cbv iota. rewrite bind_ret.
    set (input := property (JsObject fields) (u16 "input")).
    assert (Hturn : emits (fun e => is_create_thread e = false)
                      (converse Chat.maxRetries threadId input)).
    { eapply emits_weaken; [|apply converse_emits].
      intros e He. destruct e; simpl in *; (reflexivity || contradiction). }
    destruct (Hturn []) as (evs & E & F).
    destruct (converse Chat.maxRetries threadId input [])
      as [[[response|]|e] t1] eqn:C; simpl in E; subst t1.
    + exists response, evs. split; [reflexivity|].
      split; [apply count_none; exact F|].
      rewrite (converse_response _ _ _ _ _ C). reflexivity.
    + exfalso. eapply converse_never_out_of_fuel; eauto.
    + eexists _, _. unfold bind, emit, ret. split; [reflexivity|].
      split; [|reflexivity].
      rewrite count_app, (count_none _ _ F). reflexivity.
Qed.

(** *** Cancel requests over the whole handler *)

Lemma conclude_cancels thread run status t :
  exists evs,
    snd (conclude thread run status t) = t ++ evs
    /\ (Chat.terminal status = false /\ count is_cancel evs = 1
        \/ Chat.terminal status = true /\ count is_cancel evs = 0).
Proof.
  destruct (Chat.terminal status) eqn:T.
  - assert (H : emits (fun e => is_cancel e = false) (conclude thread run status)).
    { unfold Chat.terminal in T. unfold Chat.conclude.
      destruct (strict_eq_string status (u16 "completed")),
               (strict_eq_string status (u16 "failed")),
               (strict_eq_string status (u16 "cancelled"));
        try discriminate; cbn [negb andb]; cbv iota; repeat emits_step. }
    destruct (H t) as (evs & E & F). exists evs. split; [exact E|].
    right. split; [reflexivity|apply count_none; exact F].
  - rewrite (conclude_timeout thread run status t T). cbn [snd].
    rewrite <- app_assoc. eexists. split; [reflexivity|]. left.
    split; [reflexivity|].
    rewrite count_app.
    change (count is_cancel
              [ConsoleError (Run_timeout status); Post_cancel request_headers thread run])
      with 1.
    destruct (axios_post_cancel world _); reflexivity.
Qed.

Lemma converse_cancels thread input t c t' :
  converse Chat.maxRetries thread input t = (c, t') ->
  exists evs,
    t' = t ++ evs
    /\ count is_cancel evs
       = match c with
         | Normal (Some response) => if Effects.status response =? 504 then 1 else 0
         | _ => 0
         end.
Proof.
  unfold Chat.converse. intros H.
  unfold bind at 1, request at 1 in H. cbv zeta in H.
  destruct (axios_post_messages world _) as [u|e1];
    [|inversion H; subst; eexists; split; reflexivity].
  unfold bind at 1, request at 1 in H. cbv zeta in H.
  destruct (axios_post_runs world _) as [runId|e2];
    [|inversion H; subst; eexists; rewrite <- app_assoc; split; reflexivity].
  unfold bind at 1 in H.
  match type of H with
  | context [poll_loop ?th ?r ?f ?s ?n ?tr] =>
      destruct (poll_loop_emits (fun e => is_cancel e = false) th r f
                  eq_refl (fun _ _ _ => eq_refl)
                  (fun e => match e with
                            | Fetch _ _ | ConsoleError _
                            | Post_submit_tool_outputs _ _ _ _ => fun _ => eq_refl
                            | _ => fun F => match F with end
                            end)
                  s n tr) as (ev3 & E3 & F3);
      destruct (poll_loop th r f s n tr) as [[[[status retries]|]|e3] t3]
  end; simpl in E3; subst t3.
  - unfold bind, ret in H.
    match type of H with
    | context [conclude ?th ?r ?st ?tr] =>
        destruct (conclude_cancels th r st tr) as (ev4 & E4 & C4);
        destruct (conclude th r st tr) as [[response|e4] t4] eqn:C
    end; simpl in E4; subst t4; inversion H; subst.
    + eexists. rewrite <- !app_assoc. split; [reflexivity|].
      rewrite !count_app, (count_none _ _ F3).
      destruct (conclude_response _ _ _ _ _ _ C) as (_ & _ & S).
      destruct S as [[-> T]|[-> T]], C4 as [[T' ->]|[T' ->]];
        try congruence; reflexivity.
    + eexists. rewrite <- !app_assoc. split; [reflexivity|].
      rewrite !count_app, (count_none _ _ F3).
      destruct C4 as [[T' _]|[_ ->]]; [|reflexivity].
      rewrite (conclude_timeout _ _ _ _ T') in C. discriminate.
  - inversion H; subst. eexists. rewrite <- !app_assoc. split; [reflexivity|].
    rewrite !count_app, (count_none _ _ F3). reflexivity.
  - inversion H; subst. eexists. rewrite <- !app_assoc. split; [reflexivity|].
    rewrite !count_app, (count_none _ _ F3). reflexivity.
Qed.

(** Over a whole run of the handler there is one cancel request when the
    answer is the timeout response, and none otherwise. *)
Lemma POST_cancels_only_on_timeout req_json response t :
  run (POST req_json) = (Normal (Some response), t) ->
  count is_cancel t = if Effects.status response =? 504 then 1 else 0.
Proof.
  unfold run, Chat.POST, Chat.POST_fuel, Chat.orchestrate.
  assert (Hturn : forall thread input t0,
             count is_cancel t0 = 0 ->
             try_catch (converse Chat.maxRetries thread input)
               (fun err => emit (ConsoleError (Chat_API_error err)) ;;
                           ret (Some (Chat.errorResponse err))) t0
             = (Normal (Some response), t) ->
             count is_cancel t = if Effects.status response =? 504 then 1 else 0).
  { intros thread input t0 H0. unfold try_catch.
    destruct (converse Chat.maxRetries thread input t0) as [[[r|]|e] t1] eqn:V;
      destruct (converse_cancels _ _ _ _ _ V) as (evs & -> & C);
      intros H; inversion H; subst.
    - rewrite count_app, H0, C. reflexivity.
    - rewrite !count_app, H0, C. reflexivity. }
  destruct req_json as [parsed|e]; [|intros H; inversion H; reflexivity].
  unfold try_catch at 1. rewrite bind_lift_Normal.
  destruct parsed; cbn [get_prop];
    try (unfold bind at 1, throw at 1; intros H; inversion H; reflexivity);
    rewrite !bind_ret;
    (destruct (_ || _); [intros H; inversion H; reflexivity|]);
    (destruct (negb (truthy _));
     [ unfold bind at 1, request at 1; cbv zeta;
       destruct (axios_post_threads world _) as [thread|e];
       [ apply Hturn; reflexivity
       | intros H; inversion H; reflexivity ]
     | rewrite bind_ret; apply Hturn; reflexivity ]).
Qed.

End Orchestrator.

(** ** The search handlers *)

Section SearchAdapter.

Variable engine : Engine.
Variable process_env : ProcessEnv.
Variable world : World.

Lemma relay_emits response :
  emits (fun e => is_fetch e = false) (SearchRoute.relay engine response).
Proof. unfold SearchRoute.relay. repeat emits_step. Qed.

Lemma try_catch_ret_trace {A} (m : M A) (f : Thrown -> A) t :
  snd (try_catch m (fun e => ret (f e)) t) = snd (m t).
Proof. unfold try_catch. destruct (m t) as [[a|e] t']; reflexivity. Qed.

Lemma provider_request_after {B} url text (k : FetchResponse -> M B) (P : JsValue -> Prop) obj :
  url = SearchRoute.provider_url ->
  text = JSON_stringify engine obj ->
  (forall r, emits (fun e => is_fetch e = false) (k r)) ->
  P obj ->
  provider_request engine (snd (bind (request (Fetch url text) (fetch world)) k [])) P.
Proof.
  intros -> -> Hk HP. right.
  destruct (request_then _ (Fetch SearchRoute.provider_url (JSON_stringify engine obj))
              (fetch world) k [] Hk) as (rest & E & F).
  exists obj, rest. split; [exact E|]. split; [apply count_none; exact F|exact HP].
Qed.

(** *** Conversions *)

Lemma element_strings_throw e l :
  (forall x, In x l -> forall e', Conversion.ToString engine x = Throw e' ->
                                  e' = Conversion.not_primitive engine) ->
  Conversion.element_strings engine l = Throw e ->
  e = Conversion.not_primitive engine.
Proof.
  induction l as [|x l IH]; intros Hx; cbn [Conversion.element_strings]; [discriminate|].
  assert (Hl : Conversion.element_strings engine l = Throw e ->
               e = Conversion.not_primitive engine)
    by (apply IH; intros y Hy; apply Hx; right; exact Hy).
  assert (Hh : forall e', Conversion.ToString engine x = Throw e' ->
                          e' = Conversion.not_primitive engine)
    by (apply Hx; left; reflexivity).
  unfold Conversion.and_then at 1.
  destruct x; try (destruct (Conversion.ToString engine _) as [s'|e'] eqn:E;
                   [|intros H; injection H as <-; apply Hh; reflexivity]);
    unfold Conversion.and_then;
    destruct (Conversion.element_strings engine l); try discriminate;
    intros H; injection H as <-; apply Hl; reflexivity.
Qed.

(** Every conversion to a string that throws, throws the same error. *)
Lemma ToString_throws :
  forall v e, Conversion.ToString engine v = Throw e -> e = Conversion.not_primitive engine.
Proof.
  fix IH 1. intros v e. destruct v as [| |b|x|str|items|fields]; cbn [Conversion.ToString].
  - discriminate.
  - discriminate.
  - destruct b; discriminate.
  - discriminate.
  - discriminate.
  - change ((fix elements (l : list JsValue) : Completion (list jsstring) :=
               match l with
               | [] => Normal []
               | x :: rest =>
                   Conversion.and_then
                     match x with
                     | JsUndefined | JsNull => Normal []
                     | _ => Conversion.ToString engine x
                     end
                     (fun s => Conversion.and_then (elements rest)
                                 (fun ss => Normal (s :: ss)))
               end) items)
      with (Conversion.element_strings engine items).
    unfold Conversion.and_then at 1.
    destruct (Conversion.element_strings engine items) as [ss|e'] eqn:E; [discriminate|].
    intros H. injection H as <-. revert E. apply element_strings_throw.
    induction items as [|y items IHitems]; intros z [].
    + subst z. apply IH.
    + apply IHitems. assumption.
  - destruct (lookup (u16 "toString") fields); [|discriminate].
    intros H. injection H as <-. reflexivity.
Qed.

Lemma Array_join_throws sep items e :
  Conversion.Array_join engine sep items = Throw e -> e = Conversion.not_primitive engine.
Proof.
  unfold Conversion.Array_join, Conversion.and_then.
  destruct (Conversion.element_strings engine items) as [ss|e'] eqn:E; [discriminate|].
  intros H. injection H as <-. revert E. apply element_strings_throw.
  intros x _. apply ToString_throws.
Qed.

Lemma element_strings_of_strings items :
  Forall is_string items ->
  exists ss, Conversion.element_strings engine items = Normal ss.
Proof.
  induction 1 as [|x items Hx _ [ss IH]]; [exists []; reflexivity|].
  destruct x; try contradiction. cbn. rewrite IH. cbn. eauto.
Qed.

(** Only an array can be joined. *)
Lemma join_array v text :
  SearchRoute.join engine v = Normal text -> exists items, v = JsArray items.
Proof. destruct v; try discriminate. eauto. Qed.

(** Once the progress line of the first handler is written, the object
    for the provider is built, and it holds the allow-list exactly when
    that is a non-empty array. *)
Lemma first_request query max_results v :
  SearchRoute.announce engine query max_results v = Normal tt ->
  SearchRoute.tavilyRequest engine process_env query max_results v
  = Normal
      (JsObject
         (SearchRoute.fields process_env query max_results
          ++ match v with
             | JsArray (d :: ds) => [ (u16 "include_domains", JsArray (d :: ds)) ]
             | _ => []
             end)).
Proof.
  unfold SearchRoute.announce, SearchRoute.tavilyRequest.
  destruct v as [| |b|x|str|items|fields];
    cbn [Conversion.length_is_positive truthy Conversion.and_then]; try discriminate.
  - destruct (Conversion.positive engine _) as [[|]|e]; cbn; try discriminate.
    destruct b; reflexivity.
  - destruct (Conversion.positive engine _) as [[|]|e]; cbn; try discriminate.
    destruct (negb _); reflexivity.
  - destruct str; [reflexivity|discriminate].
  - destruct items; reflexivity.
  - destruct (Conversion.positive engine _) as [[|]|e]; cbn; try discriminate.
    reflexivity.
Qed.

Lemma default_allow_list {A} raw (some : JsValue -> list JsValue -> A) (none : A) :
  match SearchRoute.default_to (JsArray []) raw with
  | JsArray (d :: ds) => some d ds
  | _ => none
  end
  = match raw with
    | JsArray (d :: ds) => some d ds
    | _ => none
    end.
Proof. destruct raw as [| | | | |[|d ds]|]; reflexivity. Qed.

(** Once the progress line of the second handler is written, the
    allow-list is an array: the default or the one supplied. *)
Lemma second_request query max_results raw :
  SearchRouteEy.announce engine query max_results
    (SearchRoute.default_to (JsArray [ JsString (u16 "ey.com") ]) raw)
  = Normal tt ->
  exists l,
    SearchRoute.default_to (JsArray [ JsString (u16 "ey.com") ]) raw = JsArray l
    /\ match raw with
       | JsUndefined => l = [ JsString (u16 "ey.com") ]
       | JsArray supplied => l = supplied
       | _ => False
       end.
Proof.
  unfold SearchRouteEy.announce, Conversion.and_then.
  destruct (Conversion.ToString engine query); [|discriminate].
  destruct (Conversion.ToString engine max_results); [|discriminate].
  destruct (SearchRoute.join engine _) as [text|] eqn:J; [|discriminate].
  intros _. destruct raw; try discriminate J; cbn; eauto.
Qed.

Lemma bind_lift_Throw {A B} (e : Thrown) (k : A -> M B) t :
  bind (lift (Throw e)) k t = (Throw e, t).
Proof. reflexivity. Qed.

(** C9, as amended. Both handlers send the provider at most one request,
    and it always has [include_answer: true]. The first handler gives it
    an [include_domains] field exactly when the request supplied a
    non-empty list, and then that list. The second handler always gives
    it the field: the supplied list, empty or not, or [["ey.com"]] when
    none was supplied. A request whose [include_domains] is anything else
    gets no field from the first handler and never reaches the provider
    through the second. *)
Theorem provider_request_fields (req_json : Completion SearchRoute.SearchRequest) :
  provider_request engine
    (snd (run (SearchRoute.POST engine process_env world req_json)))
    (fun obj =>
       own_property obj "include_answer" = Some (JsBool true)
       /\ exists r,
           req_json = Normal r
           /\ own_property obj "include_domains"
              = match SearchRoute.include_domains r with
                | JsArray (d :: ds) => Some (JsArray (d :: ds))
                | _ => None
                end)
  /\ provider_request engine
       (snd (run (SearchRouteEy.POST engine process_env world req_json)))
       (fun obj =>
          own_property obj "include_answer" = Some (JsBool true)
          /\ exists r l,
              req_json = Normal r
              /\ own_property obj "include_domains" = Some (JsArray l)
              /\ match SearchRoute.include_domains r with
                 | JsUndefined => l = [ JsString (u16 "ey.com") ]
                 | JsArray supplied => l = supplied
                 | _ => False
                 end).
Proof.
  split.
  - unfold run, SearchRoute.POST. rewrite try_catch_ret_trace.
    destruct req_json as [r|e]; [|left; reflexivity].
    rewrite bind_lift_Normal. cbv zeta.
    destruct (negb (truthy _)); [left; reflexivity|].
    destruct (negb (env_truthy _)); [left; reflexivity|].
    destruct (SearchRoute.announce engine _ _ _) as [[]|e] eqn:A;
      [|rewrite bind_lift_Throw; left; reflexivity].
    rewrite bind_lift_Normal, (first_request _ _ _ A), bind_lift_Normal.
    eapply provider_request_after; [reflexivity|reflexivity|apply relay_emits|].
    rewrite default_allow_list.
    split; [reflexivity|]. exists r. split; [reflexivity|].
    destruct (SearchRoute.include_domains r) as [| | | | |[|d ds]|]; reflexivity.
  - unfold run, SearchRouteEy.POST. rewrite try_catch_ret_trace.
    destruct req_json as [r|e]; [|left; reflexivity].
    rewrite bind_lift_Normal. cbv zeta.
    destruct (negb (truthy _)); [left; reflexivity|].
    destruct (negb (env_truthy _)); [left; reflexivity|].
    destruct (SearchRouteEy.announce engine _ _ _) as [[]|e] eqn:A;
      [|rewrite bind_lift_Throw; left; reflexivity].
    rewrite bind_lift_Normal.
    destruct (second_request _ _ _ A) as (l & E & Hl). rewrite E.
    eapply provider_request_after; [reflexivity|reflexivity|apply relay_emits|].
    split; [reflexivity|]. exists r, l. split; [reflexivity|].
    split; [reflexivity|exact Hl].
Qed.

End SearchAdapter.

(** ** The scenarios, run *)

Example strip_one_marker :
  Citation.strip_markers Scenario.growth = u16 "Growth rose.".
Proof. reflexivity. Qed.

Example strip_two_markers :
  Citation.strip_markers
    (Citation.cite "4" "0" "a" ++ u16 "x" ++ Citation.cite "12" "3" "b.pdf")
  = u16 "x".
Proof. reflexivity. Qed.

(** A marker that lacks its source text is not a match and stays. *)
Example strip_keeps_incomplete :
  Citation.strip_markers (Citation.cite "4" "0" "") = Citation.cite "4" "0" "".
Proof. reflexivity. Qed.

(** Scenario 1 of the specification: a first turn that completes at the
    first poll. *)
Example first_turn_completes :
  exists t,
    run (Chat.POST Scenario.engine Scenario.env
           (Scenario.settled "completed" Scenario.growth) Scenario.first_turn)
    = (Normal
         (Some
            (mkResponse
               (JsObject [ (u16 "reply", JsString (u16 "Growth rose."));
                           (u16 "threadId", JsString (u16 "thread_new")) ])
               200
               [ (Chat.Cache_Control, Chat.cacheable) ])),
       t)
    /\ count is_create_thread t = 1.
Proof. eexists. split; vm_compute; reflexivity. Qed.

(** Scenarios 2 and 5: a turn on session [S1] pauses for three tool
    calls (one served, one with malformed arguments, one unknown); one
    submission carries the three outputs and the run completes. *)
Example paused_turn_completes :
  exists response t,
    run (Chat.POST Scenario.engine Scenario.env Scenario.pausing Scenario.next_turn)
    = (Normal (Some response), t)
    /\ body response
       = JsObject [ (u16 "reply", JsString (u16 "Adoption is rising."));
                    (u16 "threadId", Scenario.S1) ]
    /\ headers_get Chat.Cache_Control response = Some Chat.cacheable
    /\ count is_submit t = 1
    /\ count is_fetch t = 1
    /\ count is_create_thread t = 0.
Proof. eexists _, _. split; [vm_compute; reflexivity|]. repeat split. Qed.

(** Scenario 4: the run never leaves [in_progress]. *)
Example stuck_turn_times_out :
  exists response t,
    run (Chat.POST Scenario.engine Scenario.env Scenario.stuck Scenario.next_turn)
    = (Normal (Some response), t)
    /\ status response = 504
    /\ body_field "threadId" response = Some Scenario.S1
    /\ headers_get Chat.Cache_Control response = Some Chat.no_cache
    /\ count is_sleep t = 200
    /\ count is_poll t = 200
    /\ count is_cancel t = 1.
Proof. eexists _, _. split; [vm_compute; reflexivity|]. repeat split. Qed.

(** Scenario 6: the run fails. *)
Example failed_turn_degrades :
  exists t,
    run (Chat.POST Scenario.engine Scenario.env
           (Scenario.settled "failed" []) Scenario.next_turn)
    = (Normal
         (Some
            (mkResponse
               (JsObject
                  [ (u16 "reply",
                     JsString (u16 "The assistant encountered an error. Please try again."));
                    (u16 "threadId", Scenario.S1) ])
               200
               [ (Chat.Cache_Control, Chat.no_cache) ])),
       t).
Proof. eexists. vm_compute. reflexivity. Qed.

Lemma unknown_tool_is_reported_witness :
  name (function Scenario.unknown_call) <> u16 "web_search"
  /\ Chat.handle_tool_call Scenario.engine Scenario.env Scenario.stuck
       Scenario.unknown_call []
     = (Normal
          (mkToolOutput (u16 "call_3")
             (JSON_stringify Scenario.engine
                (JsObject [ (u16 "error", JsString (u16 "Unknown function")) ]))),
        []).
Proof.
  assert (H : name (function Scenario.unknown_call) <> u16 "web_search")
    by (vm_compute; discriminate).
  split; [exact H|].
  exact (unknown_tool_is_reported Scenario.engine Scenario.env Scenario.stuck
           Scenario.unknown_call [] H).
Defined.

Lemma failed_tool_call_is_absorbed_witness :
  name (function Scenario.malformed_call) = u16 "web_search"
  /\ Chat.handle_tool_call Scenario.engine Scenario.env Scenario.stuck
       Scenario.malformed_call []
     = (Normal
          (mkToolOutput (u16 "call_2")
             (JSON_stringify Scenario.engine
                (JsObject [ (u16 "error", JsString (u16 "Unexpected token in JSON"));
                            (u16 "results", JsArray []) ]))),
        [ConsoleError
           (Search_execution_error (JsString (u16 "Unexpected token in JSON")))]).
Proof.
  split; [reflexivity|].
  destruct (failed_tool_call_is_absorbed Scenario.engine Scenario.env Scenario.stuck
              Scenario.malformed_call [] eq_refl) as (Hcatch & Hdecode & _).
  apply (Hcatch Scenario.SyntaxError []).
  apply Hdecode. reflexivity.
Defined.

Lemma tool_outputs_complete_witness :
  axios_get_run Scenario.pausing
    ([] ++ [SetTimeout 2000;
            Get_run (Chat.request_headers Scenario.env) Scenario.S1 Scenario.run_1])
  = Normal (mkRunData (JsString (u16 "requires_action")) (Some Scenario.pending))
  /\ Scenario.pending <> []
  /\ exists outs evs,
       List.length outs = 3
       /\ map tool_call_id outs = [u16 "call_1"; u16 "call_2"; u16 "call_3"]
       /\ snd (Chat.poll_iteration Scenario.engine Scenario.env Scenario.pausing
                 Scenario.S1 Scenario.run_1 [])
          = ([] ++ [SetTimeout 2000;
                    Get_run (Chat.request_headers Scenario.env) Scenario.S1
                      Scenario.run_1])
            ++ evs
            ++ [Post_submit_tool_outputs (Chat.request_headers Scenario.env)
                  Scenario.S1 Scenario.run_1 outs].
Proof.
  assert (H1 : axios_get_run Scenario.pausing
                 ([] ++ [SetTimeout 2000;
                         Get_run (Chat.request_headers Scenario.env) Scenario.S1
                           Scenario.run_1])
               = Normal (mkRunData (JsString (u16 "requires_action"))
                           (Some Scenario.pending))) by reflexivity.
  assert (H2 : Scenario.pending <> []) by discriminate.
  split; [exact H1|]. split; [exact H2|].
  destruct (tool_outputs_complete Scenario.engine Scenario.env Scenario.pausing
              Scenario.S1 Scenario.run_1 Scenario.pending [] H1 H2)
    as (outs & evs & _ & Hlen & Hids & _ & _ & Htrace).
  exists outs, evs. split; [exact Hlen|]. split; [exact Hids|exact Htrace].
Defined.

Lemma search_defaults_witness :
  name (function Scenario.good_call) = u16 "web_search"
  /\ JSON_parse Scenario.engine (arguments (function Scenario.good_call))
     = Normal Scenario.jamaica_args
  /\ exists rest,
       snd (Chat.handle_tool_call Scenario.engine Scenario.env Scenario.stuck
              Scenario.good_call [])
       = [] ++ Fetch (u16 "http://localhost:3000/api/search")
                 (JSON_stringify Scenario.engine
                    (JsObject
                       [ (u16 "query", JsString (u16 "AI adoption Jamaica"));
                         (u16 "max_results", JsNumber 3);
                         (u16 "include_domains", JsArray [ JsString (u16 "ey.com") ]) ]))
               :: rest.
Proof.
  split; [reflexivity|]. split; [reflexivity|].
  destruct (search_defaults Scenario.engine Scenario.env Scenario.stuck
              Scenario.good_call []
              [ (u16 "query", JsString (u16 "AI adoption Jamaica")) ]
              eq_refl eq_refl)
    as ((rest & E) & _).
  exists rest. exact E.
Defined.

Lemma timeout_cancels_once_witness :
  Chat.poll_loop Scenario.engine Scenario.env Scenario.stuck Scenario.S1 Scenario.run_1
    Chat.maxRetries (JsString (u16 "in_progress")) 0 []
  = (Normal (Some (JsString (u16 "in_progress"), 200)), Scenario.stuck_polls)
  /\ Chat.terminal (JsString (u16 "in_progress")) = false
  /\ exists log response,
       Chat.conclude Scenario.env Scenario.stuck Scenario.S1 Scenario.run_1
         (JsString (u16 "in_progress")) Scenario.stuck_polls
       = (Normal response,
          (Scenario.stuck_polls
           ++ [ConsoleError (Run_timeout (JsString (u16 "in_progress")));
               Post_cancel (Chat.request_headers Scenario.env) Scenario.S1
                 Scenario.run_1])
          ++ log)
       /\ count is_cancel
            ((Scenario.stuck_polls
              ++ [ConsoleError (Run_timeout (JsString (u16 "in_progress")));
                  Post_cancel (Chat.request_headers Scenario.env) Scenario.S1
                    Scenario.run_1])
             ++ log)
          = 1
       /\ status response = 504
       /\ body_field "threadId" response = Some Scenario.S1.
Proof.
  assert (H1 : Chat.poll_loop Scenario.engine Scenario.env Scenario.stuck Scenario.S1
                 Scenario.run_1 Chat.maxRetries (JsString (u16 "in_progress")) 0 []
               = (Normal (Some (JsString (u16 "in_progress"), 200)),
                  Scenario.stuck_polls)) by (vm_compute; reflexivity).
  split; [exact H1|]. split; [reflexivity|].
  destruct (timeout_cancels_once Scenario.engine Scenario.env Scenario.stuck
              Scenario.S1 Scenario.run_1 Chat.maxRetries
              (JsString (u16 "in_progress")) 0 (JsString (u16 "in_progress")) 200
              [] Scenario.stuck_polls H1 eq_refl)
    as (log & response & Hc & _ & Hcount & Hstatus & Hthread & _).
  exists log, response. split; [exact Hc|]. split; [exact Hcount|].
  split; [exact Hstatus|exact Hthread].
Defined.

Lemma credentials_error_sets_no_cache_header_witness :
  (env_truthy (OPENAI_API_KEY Scenario.env_without_key) = false
   \/ env_truthy (OPENAI_ASSISTANT_ID Scenario.env_without_key) = false)
  /\ exists response,
       Chat.POST Scenario.engine Scenario.env_without_key Scenario.stuck
         (Normal (JsObject [ (u16 "input", JsString (u16 "Give me an overview.")) ])) []
       = (Normal (Some response), [])
       /\ status response = 500
       /\ headers_get Chat.Cache_Control response = None.
Proof.
  assert (H : env_truthy (OPENAI_API_KEY Scenario.env_without_key) = false
              \/ env_truthy (OPENAI_ASSISTANT_ID Scenario.env_without_key) = false)
    by (left; reflexivity).
  split; [exact H|].
  destruct (credentials_error_sets_no_cache_header Scenario.engine
              Scenario.env_without_key Scenario.stuck
              [ (u16 "input", JsString (u16 "Give me an overview.")) ] [] H)
    as (response & E & Hs & _ & Hh).
  exists response. split; [exact E|]. split; [exact Hs|exact Hh].
Defined.

(** C7, the counterexample: the reply of a completed run whose raw text
    is [interleaved] is itself a citation marker. In that text a marker
    comes after an open bracket that is not closed before it. *)
Lemma marker_survives_stripping :
  exists t,
    run (Chat.POST Scenario.engine Scenario.env
           (Scenario.settled "completed" Scenario.interleaved) Scenario.first_turn)
    = (Normal
         (Some
            (mkResponse
               (JsObject [ (u16 "reply", JsString (Citation.cite "1" "2" "b"));
                           (u16 "threadId", JsString (u16 "thread_new")) ])
               200
               [ (Chat.Cache_Control, Chat.cacheable) ])),
       t)
    /\ Citation.contains_marker (Citation.cite "1" "2" "b") = true
    /\ marker_inside_bracket Scenario.interleaved = true.
Proof. eexists. repeat split; vm_compute; reflexivity. Qed.

Lemma citations_stripped_witness :
  axios_get_messages (Scenario.settled "completed" Scenario.growth)
    ([] ++ [Get_messages (Chat.request_headers Scenario.env) Scenario.S1])
  = Normal [ Scenario.assistant_says Scenario.growth ]
  /\ Chat.first_text_value
       (find (fun m => strict_eq_string (role m) (u16 "assistant"))
          [ Scenario.assistant_says Scenario.growth ])
     = Some Scenario.growth
  /\ marker_inside_bracket Scenario.growth = false
  /\ exists response reply kept t',
       Chat.conclude Scenario.env (Scenario.settled "completed" Scenario.growth)
         Scenario.S1 Scenario.run_1 (JsString (u16 "completed")) []
       = (Normal response, t')
       /\ body_field "reply" response = Some (JsString reply)
       /\ scanned Scenario.growth kept
       /\ reply = match kept with
                  | [] => u16 "No valid response."
                  | _ :: _ => kept
                  end
       /\ Citation.contains_marker reply = false.
Proof.
  split; [reflexivity|]. split; [reflexivity|]. split; [reflexivity|].
  destruct (citations_stripped Scenario.env
              (Scenario.settled "completed" Scenario.growth)
              Scenario.S1 Scenario.run_1 []
              [ Scenario.assistant_says Scenario.growth ] Scenario.growth
              eq_refl eq_refl)
    as (response & reply & kept & t' & E & Hreply & Hscan & _ & Hkept & Hclean).
  exists response, reply, kept, t'. split; [exact E|]. split; [exact Hreply|].
  split; [exact Hscan|]. split; [exact Hkept|exact (Hclean eq_refl)].
Defined.

(** A bracketed note that holds no marker does not stand in the way: the
    marker after it is removed and the note stays. *)
Example note_before_marker_is_kept :
  let note := [Citation.lenticular_open] ++ u16 "note" ++ [Citation.lenticular_close] in
  marker_inside_bracket (note ++ u16 " " ++ Scenario.growth) = false
  /\ Citation.strip_markers (note ++ u16 " " ++ Scenario.growth)
     = note ++ u16 " Growth rose."
  /\ Citation.contains_marker (note ++ u16 " Growth rose.") = false.
Proof. repeat split; vm_compute; reflexivity. Qed.

(** C4, the counterexample: a turn on session [S1] whose user message the
    assistant service rejects is answered without any [threadId]. *)
Lemma error_response_drops_session :
  truthy Scenario.S1 = true
  /\ exists response t,
       run (Chat.POST Scenario.engine Scenario.env Scenario.rejecting Scenario.next_turn)
       = (Normal (Some response), t)
       /\ status response = 500
       /\ body response = JsObject [ (u16 "error", JsString (u16 "No thread found")) ]
       /\ body_field "threadId" response = None.
Proof.
  split; [reflexivity|]. eexists _, _.
  split; [vm_compute; reflexivity|]. repeat split; reflexivity.
Qed.

Lemma session_reuse_witness :
  lookup (u16 "threadId")
    [ (u16 "input", JsString (u16 "And Jamaica?")); (u16 "threadId", Scenario.S1) ]
  = Some Scenario.S1
  /\ truthy Scenario.S1 = true
  /\ exists response t,
       run (Chat.POST Scenario.engine Scenario.env Scenario.pausing Scenario.next_turn)
       = (Normal (Some response), t)
       /\ count is_create_thread t = 0
       /\ match body_field "threadId" response with
          | Some sessionId => sessionId = Scenario.S1
          | None => status response = 500
          end.
Proof.
  split; [reflexivity|]. split; [reflexivity|].
  exact (session_reuse Scenario.engine Scenario.env Scenario.pausing
           [ (u16 "input", JsString (u16 "And Jamaica?")); (u16 "threadId", Scenario.S1) ]
           Scenario.S1 eq_refl eq_refl).
Defined.

(** C9, the counterexample: the second handler, given an empty
    allow-list, sends the provider a request with an [include_domains]
    field. *)
Lemma empty_allow_list_is_sent :
  SearchRoute.include_domains Scenario.search_everywhere = JsArray []
  /\ snd (run (SearchRouteEy.POST Scenario.engine Scenario.env Scenario.stuck
                 (Normal Scenario.search_everywhere)))
     = [ Fetch SearchRoute.provider_url
           (JSON_stringify Scenario.engine
              (JsObject
                 [ (u16 "api_key", JsString (u16 "tvly-test"));
                   (u16 "query", JsString (u16 "AI adoption Jamaica"));
                   (u16 "max_results", JsNumber 3);
                   (u16 "include_answer", JsBool true);
                   (u16 "include_raw_content", JsBool false);
                   (u16 "include_domains", JsArray []) ])) ].
Proof. split; [reflexivity|vm_compute; reflexivity]. Qed.

(** The first handler, given the same empty allow-list, leaves the field
    out. *)
Example first_handler_omits_empty_list :
  snd (run (SearchRoute.POST Scenario.engine Scenario.env Scenario.stuck
              (Normal Scenario.search_everywhere)))
  = [ Fetch SearchRoute.provider_url
        (JSON_stringify Scenario.engine
           (JsObject
              [ (u16 "api_key", JsString (u16 "tvly-test"));
                (u16 "query", JsString (u16 "AI adoption Jamaica"));
                (u16 "max_results", JsNumber 3);
                (u16 "include_answer", JsBool true);
                (u16 "include_raw_content", JsBool false) ])) ].
Proof. vm_compute. reflexivity. Qed.

(** An allow-list that is [null] makes both handlers fail before they
    call the provider: the first when it reads the [length], the second
    when it reads [join]. *)
Example null_allow_list_is_refused :
  run (SearchRoute.POST Scenario.engine Scenario.env Scenario.stuck
         (Normal (SearchRoute.mkSearchRequest (JsString (u16 "q")) JsUndefined JsNull)))
  = (Normal
       (mkResponse
          (JsObject
             [ (u16 "error",
                JsString (u16 "Cannot read properties of null (reading 'length')")) ])
          500 [ (SearchRoute.Cache_Control, u16 "no-cache") ]),
     [])
  /\ run (SearchRouteEy.POST Scenario.engine Scenario.env Scenario.stuck
            (Normal (SearchRoute.mkSearchRequest (JsString (u16 "q")) JsUndefined JsNull)))
     = (Normal
          (mkResponse
             (JsObject
                [ (u16 "error",
                   JsString (u16 "Cannot read properties of null (reading 'join')")) ])
             500 [ (SearchRoute.Cache_Control, u16 "no-cache") ]),
        []).
Proof. split; vm_compute; reflexivity. Qed.

(** So does a query that is an object with a [toString] property of its
    own, which the progress line cannot convert to a string. *)
Example unprintable_query_is_refused :
  run (SearchRoute.POST Scenario.engine Scenario.env Scenario.stuck
         (Normal (SearchRoute.mkSearchRequest
                    (JsObject [ (u16 "toString", JsNumber 1) ]) JsUndefined JsUndefined)))
  = (Normal
       (mkResponse
          (JsObject
             [ (u16 "error", JsString (u16 "Cannot convert object to primitive value")) ])
          500 [ (SearchRoute.Cache_Control, u16 "no-cache") ]),
     [])
  /\ run (SearchRouteEy.POST Scenario.engine Scenario.env Scenario.stuck
            (Normal (SearchRoute.mkSearchRequest
                       (JsObject [ (u16 "toString", JsNumber 1) ]) JsUndefined
                       JsUndefined)))
     = (Normal
          (mkResponse
             (JsObject
                [ (u16 "error",
                   JsString (u16 "Cannot convert object to primitive value")) ])
             500 [ (SearchRoute.Cache_Control, u16 "no-cache") ]),
        []).
Proof. split; vm_compute; reflexivity. Qed.

(** * Further properties of the code *)

(** ** The chat route as a whole *)

Section ChatRouteAnswers.

Variable engine : Engine.
Variable process_env : ProcessEnv.
Variable world : World.

Local Abbreviation conclude := (Chat.conclude process_env world).
Local Abbreviation converse := (Chat.converse engine process_env world).
Local Abbreviation orchestrate := (Chat.orchestrate engine process_env world).
Local Abbreviation POST := (Chat.POST engine process_env world).
Local Abbreviation request_headers := (Chat.request_headers process_env).

Lemma completed_reply_nonempty messages : Chat.completed_reply messages <> [].
Proof.
  unfold Chat.completed_reply.
  destruct (option_map _ _) as [[|x s]|]; discriminate.
Qed.

Lemma conclude_shape thread run status t response t' :
  conclude thread run status t = (Normal response, t') ->
  reply_response response \/ timeout_response response.
Proof.
  unfold Chat.conclude.
  destruct (strict_eq_string status (u16 "completed")),
           (strict_eq_string status (u16 "failed")),
           (strict_eq_string status (u16 "cancelled"));
    cbn [negb andb]; cbv iota; intros H;
    repeat inv_bind H; inversion H; subst;
    try (right; split; [reflexivity|eexists; reflexivity]);
    left; (split; [reflexivity|]); eexists _, _;
    (split; [|split; [reflexivity|auto]]);
    try discriminate.
  all: repeat match goal with
              | E : bind _ _ _ = (Normal _, _) |- _ => inv_bind E
              end.
  all: match goal with
       | E : ret _ _ = (Normal ?a, _) |- ?a <> [] =>
           unfold ret in E; inversion E;
           first [apply completed_reply_nonempty | discriminate]
       end.
Qed.

Lemma errorResponse_shape error : error_response (Chat.errorResponse error).
Proof.
  split; [reflexivity|].
  exists (or_else (response_data_error_message error)
            (or_else (message error) (JsString (u16 "Unknown error")))).
  split; [|split; [reflexivity|right; reflexivity]].
  unfold or_else.
  destruct (truthy (response_data_error_message error)) eqn:A; [exact A|].
  destruct (truthy (message error)) eqn:B; [exact B|reflexivity].
Qed.

(** Where an answer of the handler comes from. *)
Lemma POST_cases req_json response t :
  run (POST req_json) = (Normal (Some response), t) ->
  response = Chat.credentialsResponse
  \/ (exists error, response = Chat.errorResponse error)
  \/ (exists thread runId status t0,
        conclude thread runId status t0 = (Normal response, t)).
Proof.
  unfold run, Chat.POST, Chat.POST_fuel, try_catch.
  destruct (orchestrate Chat.maxRetries req_json []) as [[[r|]|e] t1] eqn:E;
    intros H; inversion H; subst.
  - unfold Chat.orchestrate in E. do 3 inv_bind E.
    destruct (_ || _); [inversion E; auto|].
    inv_bind E. unfold Chat.converse in E. do 3 inv_bind E.
    destruct a5 as [[status retries]|]; [|discriminate].
    inv_bind E. inversion E; subst.
    right. right. eauto.
  - right. left. eauto.
Qed.

(** X1. Every answer of the chat route is a reply (status 200, a
    non-empty [reply] and the session id), the timeout answer (status 504,
    an [error] and the session id) or an error answer (status 500 and a
    truthy [error] only). *)
Theorem chat_answers_have_three_shapes (req_json : Completion JsValue) :
  exists response t,
    run (POST req_json) = (Normal (Some response), t)
    /\ (reply_response response
        \/ timeout_response response
        \/ error_response response).
Proof.
  destruct (POST_returns engine process_env world req_json [])
    as (response & t & E).
  exists response, t. split; [exact E|].
  destruct (POST_cases _ _ _ E) as [->|[(error & ->)|(th & r & st & t0 & C)]].
  - right. right. split; [reflexivity|].
    eexists. split; [|split; [reflexivity|left; reflexivity]]. reflexivity.
  - right. right. apply errorResponse_shape.
  - destruct (conclude_shape _ _ _ _ _ _ C); auto.
Qed.

Lemma conclude_cacheable thread run status t0 response t1 :
  conclude thread run status t0 = (Normal response, t1) ->
  headers_get Chat.Cache_Control response = Some Chat.cacheable ->
  Effects.status response = 200
  /\ t1 = t0 ++ [Get_messages request_headers thread].
Proof.
  unfold Chat.conclude.
  destruct (strict_eq_string status (u16 "completed")),
           (strict_eq_string status (u16 "failed")),
           (strict_eq_string status (u16 "cancelled"));
    cbn [negb andb]; cbv iota; intros H;
    repeat inv_bind H; inversion H; subst; intros C;
    try (vm_compute in C; discriminate C).
  all: split; [reflexivity|].
  all: repeat match goal with
              | E : bind _ _ _ = (Normal _, _) |- _ => inv_bind E
              end.
  all: repeat match goal with
              | E : request _ _ _ = (Normal _, _) |- _ =>
                  unfold request in E; inversion E; subst; clear E
              | E : ret _ _ = (Normal _, _) |- _ =>
                  unfold ret in E; inversion E; subst; clear E
              end.
  all: reflexivity.
Qed.

(** X2. Only an answer built right after a successful reading of the
    messages is cacheable: when the [Cache-Control] header is the
    cacheable one, the status is 200 and the last event of the trace is
    the messages request; every other answer has [no-cache], except the
    missing-credentials answer, which has no such header. *)
Theorem cacheable_only_after_messages (req_json : Completion JsValue) :
  exists response t,
    run (POST req_json) = (Normal (Some response), t)
    /\ (headers_get Chat.Cache_Control response = Some Chat.cacheable ->
        status response = 200
        /\ exists t0 thread, t = t0 ++ [Get_messages request_headers thread])
    /\ (headers_get Chat.Cache_Control response <> Some Chat.cacheable ->
        headers_get Chat.Cache_Control response = Some Chat.no_cache
        \/ response = Chat.credentialsResponse).
Proof.
  destruct (POST_returns engine process_env world req_json [])
    as (response & t & E).
  exists response, t. split; [exact E|].
  destruct (POST_cases _ _ _ E) as [->|[(error & ->)|(th & r & st & t0 & C)]].
  - split; [intros H; vm_compute in H; discriminate H|auto].
  - split; [intros H; vm_compute in H; discriminate H|].
    intros _. left. reflexivity.
  - split.
    + intros H. destruct (conclude_cacheable _ _ _ _ _ _ C H) as [S ->].
      split; [exact S|eauto].
    + intros H. left.
      destruct (conclude_response _ _ _ _ _ _ _ _ C) as (_ & Hc & _).
      rewrite Hc in *. destruct (strict_eq_string st (u16 "completed")).
      * contradiction H; reflexivity.
      * reflexivity.
Qed.

End ChatRouteAnswers.

(** ** Sessions, the loop and submissions *)

Section ChatRouteTurns.

Variable engine : Engine.
Variable process_env : ProcessEnv.
Variable world : World.

Local Abbreviation poll_iteration := (Chat.poll_iteration engine process_env world).
Local Abbreviation poll_loop := (Chat.poll_loop engine process_env world).
Local Abbreviation conclude := (Chat.conclude process_env world).
Local Abbreviation converse := (Chat.converse engine process_env world).
Local Abbreviation POST := (Chat.POST engine process_env world).
Local Abbreviation request_headers := (Chat.request_headers process_env).





(** One pass submits tool outputs at most once. *)
Lemma poll_iteration_submits_once thread run :
  emits_at_most is_submit 1 (poll_iteration thread run).
Proof.
  intros t. unfold Chat.poll_iteration.
  unfold bind at 1, emit at 1. unfold bind at 1, request at 1. cbv zeta.
  destruct (axios_get_run world _) as [statusRes|e];
    [|eexists; rewrite <- app_assoc; split; [reflexivity|auto]].
  destruct (strict_eq_string _ _);
    [|eexists; rewrite <- app_assoc; split; [reflexivity|auto]].
  destruct (0 <? _);
    [|eexists; rewrite <- app_assoc; split; [reflexivity|auto]].
  match goal with
  | |- context [bind (Chat.dispatch ?en ?pe ?w ?l) _ ?tr] =>
      destruct (dispatch_emits en pe w l tr) as (evs & E & F);
      unfold bind at 1;
      destruct (Chat.dispatch en pe w l tr) as [[outs|e] t1]
  end; simpl in E; subst t1.
  - unfold bind, request, ret. cbv zeta.
    destruct (axios_post_submit_tool_outputs world _); cbn [snd];
      eexists; rewrite <- !app_assoc; (split; [reflexivity|]);
      rewrite !count_app, (count_none is_submit evs); auto;
      eapply Forall_impl; try exact F; apply tool_event_not_submit.
  - cbn [snd]. eexists. rewrite <- !app_assoc. split; [reflexivity|].
    rewrite !count_app, (count_none is_submit evs); auto.
    eapply Forall_impl; [|exact F]. apply tool_event_not_submit.
Qed.

Lemma poll_loop_submits thread run :
  forall fuel status retries,
    emits_at_most is_submit (Chat.maxRetries - retries)
      (poll_loop thread run fuel status retries).
Proof.
  induction fuel as [|fuel IH]; intros status retries;
    rewrite poll_loop_eq;
    destruct (Chat.polling status); simpl andb;
    try (apply emits_at_most_weaken with (n := 0); [lia|];
         apply emits_at_most_0; apply emits_ret).
  - destruct (retries <? Chat.maxRetries);
      apply emits_at_most_weaken with (n := 0); try lia;
      apply emits_at_most_0; apply emits_ret.
  - destruct (Nat.ltb_spec retries Chat.maxRetries) as [Hlt|Hge].
    + apply emits_at_most_weaken with (n := 1 + (Chat.maxRetries - S retries));
        [lia|].
      apply emits_at_most_bind.
      * apply poll_iteration_submits_once.
      * intros status'. apply IH.
    + apply emits_at_most_weaken with (n := 0); [lia|].
      apply emits_at_most_0; apply emits_ret.
Qed.

(** X5. Tool outputs are submitted at most once per pass of the loop,
    hence at most 200 times per request. *)
Theorem submissions_are_bounded (req_json : Completion JsValue) :
  (forall currentThreadId runId t,
      exists evs,
        snd (poll_iteration currentThreadId runId t) = t ++ evs
        /\ count is_submit evs <= 1)
  /\ count is_submit (snd (run (POST req_json))) <= 200.
Proof.
  split; [intros th r t; apply poll_iteration_submits_once|].
  assert (H : emits_at_most is_submit Chat.maxRetries (POST req_json)).
  { unfold Chat.POST, Chat.POST_fuel.
    apply emits_at_most_try_catch; [|intros e; repeat emits_step].
    unfold Chat.orchestrate.
    do 3 (apply (emits_at_most_bind is_submit 0 Chat.maxRetries);
          [apply emits_at_most_0; repeat emits_step|intros ?]).
    destruct (_ || _).
    { apply emits_at_most_weaken with (n := 0); [lia|].
      apply emits_at_most_0; repeat emits_step. }
    apply (emits_at_most_bind is_submit 0 Chat.maxRetries);
      [apply emits_at_most_0; repeat emits_step|intros currentThreadId].
    unfold Chat.converse.
    do 2 (apply (emits_at_most_bind is_submit 0 Chat.maxRetries);
          [apply emits_at_most_0; repeat emits_step|intros ?]).
    apply emits_at_most_weaken with (n := (Chat.maxRetries - 0) + 0); [lia|].
    apply emits_at_most_bind; [apply poll_loop_submits|].
    intros [[status retries]|]; apply emits_at_most_0; [|apply emits_ret].
    apply emits_bind; [|intros; apply emits_ret].
    eapply emits_weaken; [|apply conclude_emits].
    intros e He. destruct e; simpl in *; (reflexivity || contradiction). }
  destruct (H []) as (evs & E & C). unfold run. rewrite E. exact C.
Qed.

End ChatRouteTurns.

(** ** The outcomes of a search tool call *)

Section SearchToolCall.

Variable engine : Engine.
Variable process_env : ProcessEnv.
Variable world : World.

Local Abbreviation handle_tool_call := (Chat.handle_tool_call engine process_env world).

(** The request a [web_search] call with decoded arguments [args]
    makes. *)
Local Abbreviation asking args :=
  (Fetch (Chat.baseUrl process_env ++ u16 "/api/search")
     (JSON_stringify engine
        (Chat.search_request (property args (u16 "query"))
           (property args (u16 "max_results"))
           (property args (u16 "include_domains"))))).

Lemma handle_web_search toolCall t fields :
  name (function toolCall) = u16 "web_search" ->
  JSON_parse engine (arguments (function toolCall)) = Normal (JsObject fields) ->
  handle_tool_call toolCall t
  = try_catch
      (bind (request (asking (JsObject fields)) (fetch world))
         (fun searchResponse =>
            if negb (ok searchResponse) then
              errorText <- lift (fetch_text searchResponse) ;;
              emit (ConsoleError (Search_endpoint_error errorText)) ;;
              throw (new_Error (u16 "Search failed: "
                                ++ decimal (fetch_status searchResponse)))
            else
              searchData <- lift (fetch_json searchResponse) ;;
              results <- get_prop engine searchData (u16 "results") ;;
              answer <- get_prop engine searchData (u16 "answer") ;;
              ret (mkToolOutput (id toolCall)
                     (JSON_stringify engine
                        (JsObject
                           [ (u16 "results", or_else results (JsArray []));
                             (u16 "answer", or_else answer JsNull);
                             (u16 "query", property (JsObject fields) (u16 "query")) ])))))
      (fun error =>
         emit (ConsoleError (Search_execution_error (Chat.message_of error))) ;;
         ret (mkToolOutput (id toolCall)
                (JSON_stringify engine (Chat.error_payload (Chat.message_of error)))))
      t.
Proof.
  intros Hname Hparse. unfold Chat.handle_tool_call.
  rewrite Hname, jsstring_eqb_refl. unfold try_catch, Chat.web_search.
  rewrite Hparse, bind_lift_Normal.
  repeat rewrite get_prop_object, bind_ret. reflexivity.
Qed.

(** X6. When the search endpoint answers a [web_search] call with a
    non-ok response whose text can be read, the call's output is the
    encoding of [{error: "Search failed: <status>", results: []}]: the
    endpoint's own error text is logged, not passed on. *)
Theorem failed_search_is_reported (toolCall : ToolCall) (t : Trace)
    (fields : list (jsstring * JsValue)) (searchResponse : FetchResponse)
    (errorText : jsstring) :
  name (function toolCall) = u16 "web_search" ->
  JSON_parse engine (arguments (function toolCall)) = Normal (JsObject fields) ->
  fetch world (t ++ [asking (JsObject fields)]) = Normal searchResponse ->
  ok searchResponse = false ->
  fetch_text searchResponse = Normal errorText ->
  let errorMessage :=
    JsString (u16 "Search failed: " ++ decimal (fetch_status searchResponse)) in
  handle_tool_call toolCall t
  = (Normal
       (mkToolOutput (id toolCall)
          (JSON_stringify engine
             (JsObject [ (u16 "error", errorMessage); (u16 "results", JsArray []) ]))),
     t ++ [ asking (JsObject fields);
            ConsoleError (Search_endpoint_error errorText);
            ConsoleError (Search_execution_error errorMessage) ]).
Proof.
  intros Hname Hparse Hfetch Hok Htext errorMessage.
  rewrite (handle_web_search toolCall t fields Hname Hparse).
  unfold try_catch, bind, request, lift, emit, throw, ret. cbv zeta.
  rewrite Hfetch, Hok. cbn [negb]. cbv iota. rewrite Htext.
  rewrite <- !app_assoc. reflexivity.
Qed.


(** X8. When the arguments of a [web_search] call decode to [null], the
    call makes no request: reading [args.query] throws, and the output is
    the encoding of [{error: <the TypeError's message>, results: []}]. *)
Theorem null_arguments_make_no_request (toolCall : ToolCall) (t : Trace) :
  name (function toolCall) = u16 "web_search" ->
  JSON_parse engine (arguments (function toolCall)) = Normal JsNull ->
  let errorMessage := JsString (TypeError_message engine JsNull (u16 "query")) in
  handle_tool_call toolCall t
  = (Normal
       (mkToolOutput (id toolCall)
          (JSON_stringify engine
             (JsObject [ (u16 "error", errorMessage); (u16 "results", JsArray []) ]))),
     t ++ [ConsoleError (Search_execution_error errorMessage)]).
Proof.
  intros Hname Hparse errorMessage. unfold Chat.handle_tool_call.
  rewrite Hname, jsstring_eqb_refl. unfold try_catch, Chat.web_search.
  rewrite Hparse, bind_lift_Normal. reflexivity.
Qed.

End SearchToolCall.

(** ** The search handlers: validation, failure and success *)

Section SearchHandlers.

Variable engine : Engine.
Variable process_env : ProcessEnv.
Variable world : World.

Local Abbreviation POST1 := (SearchRoute.POST engine process_env world).
Local Abbreviation POST2 := (SearchRouteEy.POST engine process_env world).

Local Abbreviation sent1 := (first_handler_sends engine process_env).
Local Abbreviation sent2 := (second_handler_sends engine process_env).

Local Abbreviation line1 := (first_progress_line engine).
Local Abbreviation line2 := (second_progress_line engine).

Lemma POST1_valid r t :
  truthy (SearchRoute.query r) = true ->
  env_truthy (TAVILY_API_KEY process_env) = true ->
  line1 r = Normal tt ->
  POST1 (Normal r) t
  = try_catch (bind (request (sent1 r) (fetch world)) (SearchRoute.relay engine))
      (fun err => ret (SearchRoute.errorResponse err)) t.
Proof.
  intros Hq Hk Hl. unfold SearchRoute.POST, try_catch.
  rewrite bind_lift_Normal. cbv zeta. rewrite Hq, Hk. cbn [negb]. cbv iota.
  unfold first_progress_line in Hl.
  rewrite Hl, bind_lift_Normal, (first_request engine process_env _ _ _ Hl), bind_lift_Normal.
  unfold first_handler_sends. rewrite default_allow_list. reflexivity.
Qed.

Lemma POST2_valid r t :
  truthy (SearchRoute.query r) = true ->
  env_truthy (TAVILY_API_KEY process_env) = true ->
  line2 r = Normal tt ->
  POST2 (Normal r) t
  = try_catch (bind (request (sent2 r) (fetch world)) (SearchRoute.relay engine))
      (fun err => ret (SearchRoute.errorResponse err)) t.
Proof.
  intros Hq Hk Hl. unfold SearchRouteEy.POST, try_catch.
  rewrite bind_lift_Normal. cbv zeta. rewrite Hq, Hk. cbn [negb]. cbv iota.
  unfold second_progress_line in Hl. rewrite Hl, bind_lift_Normal. reflexivity.
Qed.

(** When the progress line cannot be written, the handler answers with
    the error and calls nobody. *)
Lemma POST1_unannounced r t e :
  truthy (SearchRoute.query r) = true ->
  env_truthy (TAVILY_API_KEY process_env) = true ->
  line1 r = Throw e ->
  POST1 (Normal r) t = (Normal (SearchRoute.errorResponse e), t).
Proof.
  intros Hq Hk Hl. unfold SearchRoute.POST, try_catch.
  rewrite bind_lift_Normal. cbv zeta. rewrite Hq, Hk. cbn [negb]. cbv iota.
  unfold first_progress_line in Hl. rewrite Hl. reflexivity.
Qed.

Lemma POST2_unannounced r t e :
  truthy (SearchRoute.query r) = true ->
  env_truthy (TAVILY_API_KEY process_env) = true ->
  line2 r = Throw e ->
  POST2 (Normal r) t = (Normal (SearchRoute.errorResponse e), t).
Proof.
  intros Hq Hk Hl. unfold SearchRouteEy.POST, try_catch.
  rewrite bind_lift_Normal. cbv zeta. rewrite Hq, Hk. cbn [negb]. cbv iota.
  unfold second_progress_line in Hl. rewrite Hl. reflexivity.
Qed.

Lemma search_without_query r :
  truthy (SearchRoute.query r) = false ->
  run (POST1 (Normal r))
  = (Normal (mkResponse (JsObject [ (u16 "error", JsString (u16 "Query required")) ])
               400 []),
     [])
  /\ run (POST2 (Normal r))
     = (Normal (mkResponse (JsObject [ (u16 "error", JsString (u16 "Query required")) ])
                  400 []),
        []).
Proof.
  intros Hq.
  unfold run, SearchRoute.POST, SearchRouteEy.POST, try_catch.
  rewrite !bind_lift_Normal. cbv zeta. rewrite Hq. split; reflexivity.
Qed.

Lemma search_without_key r :
  truthy (SearchRoute.query r) = true ->
  env_truthy (TAVILY_API_KEY process_env) = false ->
  run (POST1 (Normal r))
  = (Normal
       (mkResponse (JsObject [ (u16 "error", JsString (u16 "Tavily API key missing")) ])
          500 []),
     [])
  /\ run (POST2 (Normal r))
     = (Normal
          (mkResponse (JsObject [ (u16 "error", JsString (u16 "Tavily API key missing")) ])
             500 []),
        []).
Proof.
  intros Hq Hk.
  unfold run, SearchRoute.POST, SearchRouteEy.POST, try_catch.
  rewrite !bind_lift_Normal. cbv zeta. rewrite Hq, Hk. split; reflexivity.
Qed.

(** X9. A request without a truthy [query] is refused by both handlers
    with status 400 and [{error: "Query required"}], before the key is
    looked at and without any request to the provider; the answer has no
    [Cache-Control] header. *)
Theorem query_is_required (r : SearchRoute.SearchRequest) :
  truthy (SearchRoute.query r) = false ->
  let refusal :=
    mkResponse (JsObject [ (u16 "error", JsString (u16 "Query required")) ]) 400 [] in
  run (POST1 (Normal r)) = (Normal refusal, [])
  /\ run (POST2 (Normal r)) = (Normal refusal, []).
Proof.
  intros Hq refusal.
  unfold run, SearchRoute.POST, SearchRouteEy.POST, try_catch.
  rewrite !bind_lift_Normal. cbv zeta. rewrite Hq. split; reflexivity.
Qed.

(** X10. With a truthy [query] but no provider key configured, both
    handlers answer with status 500 and
    [{error: "Tavily API key missing"}], make no request to the provider,
    and set no [Cache-Control] header. *)
Theorem provider_key_is_required (r : SearchRoute.SearchRequest) :
  truthy (SearchRoute.query r) = true ->
  env_truthy (TAVILY_API_KEY process_env) = false ->
  let refusal :=
    mkResponse (JsObject [ (u16 "error", JsString (u16 "Tavily API key missing")) ])
      500 [] in
  run (POST1 (Normal r)) = (Normal refusal, [])
  /\ run (POST2 (Normal r)) = (Normal refusal, []).
Proof.
  intros Hq Hk refusal.
  unfold run, SearchRoute.POST, SearchRouteEy.POST, try_catch.
  rewrite !bind_lift_Normal. cbv zeta. rewrite Hq, Hk. split; reflexivity.
Qed.

(** The progress lines of a request of the declared type can be
    written. *)
Lemma search_args_announced r :
  search_args r -> line1 r = Normal tt /\ line2 r = Normal tt.
Proof.
  unfold search_args, first_progress_line, second_progress_line.
  unfold SearchRoute.announce, SearchRouteEy.announce.
  destruct r as [q m v]. cbn [SearchRoute.query SearchRoute.max_results
                                SearchRoute.include_domains].
  intros (Hq & Hm & Hv).
  destruct q; try contradiction.
  assert (M : exists text,
             Conversion.ToString engine (SearchRoute.default_to (JsNumber 3) m)
             = Normal text)
    by (destruct m; try contradiction; cbn; eauto).
  destruct M as [text M].
  destruct v as [| | | | |items|]; try contradiction.
  - cbn. rewrite M. split; reflexivity.
  - destruct (element_strings_of_strings engine items Hv) as [ss E].
    cbn [SearchRoute.default_to Conversion.length_is_positive Conversion.and_then
         SearchRoute.join Conversion.ToString].
    unfold Conversion.Array_join. rewrite M, E. cbn.
    destruct items; split; reflexivity.
Qed.

(** X11. Either handler calls the provider at most once: once when the
    query is truthy, the key is configured and the progress line can be
    written, and not at all otherwise. Writing the progress line converts
    the query, the limit and the allow-list to strings, which throws on a
    value that has no string; it never throws on a request of the type
    the chat route declares for the arguments of a search. *)
Theorem provider_called_once_when_valid (r : SearchRoute.SearchRequest) :
  count is_fetch (snd (run (POST1 (Normal r))))
  = (if truthy (SearchRoute.query r)
        && env_truthy (TAVILY_API_KEY process_env)
        && succeeds (line1 r)
     then 1 else 0)
  /\ count is_fetch (snd (run (POST2 (Normal r))))
     = (if truthy (SearchRoute.query r)
           && env_truthy (TAVILY_API_KEY process_env)
           && succeeds (line2 r)
        then 1 else 0)
  /\ (search_args r -> succeeds (line1 r) = true /\ succeeds (line2 r) = true).
Proof.
  assert (Once : forall sent,
             count is_fetch
               (snd (try_catch
                       (bind (request (Fetch SearchRoute.provider_url sent) (fetch world))
                          (SearchRoute.relay engine))
                       (fun err => ret (SearchRoute.errorResponse err)) []))
             = 1).
  { intros sent. rewrite try_catch_ret_trace.
    destruct (request_then _ (Fetch SearchRoute.provider_url sent) (fetch world)
                (SearchRoute.relay engine) [] (relay_emits engine)) as (rest & E & F).
    rewrite E. change (Fetch SearchRoute.provider_url sent :: rest)
      with ([Fetch SearchRoute.provider_url sent] ++ rest).
    rewrite count_app, (count_none _ _ F). reflexivity. }
  split; [|split].
  - destruct (truthy (SearchRoute.query r)) eqn:Hq;
      [|destruct (search_without_query r Hq) as [-> _]; reflexivity].
    destruct (env_truthy (TAVILY_API_KEY process_env)) eqn:Hk;
      [|destruct (search_without_key r Hq Hk) as [-> _]; reflexivity].
    cbn [andb]. unfold run.
    destruct (line1 r) as [[]|e] eqn:Hl; cbn [succeeds].
    + rewrite (POST1_valid r [] Hq Hk Hl). apply Once.
    + rewrite (POST1_unannounced r [] e Hq Hk Hl). reflexivity.
  - destruct (truthy (SearchRoute.query r)) eqn:Hq;
      [|destruct (search_without_query r Hq) as [_ ->]; reflexivity].
    destruct (env_truthy (TAVILY_API_KEY process_env)) eqn:Hk;
      [|destruct (search_without_key r Hq Hk) as [_ ->]; reflexivity].
    cbn [andb]. unfold run.
    destruct (line2 r) as [[]|e] eqn:Hl; cbn [succeeds].
    + rewrite (POST2_valid r [] Hq Hk Hl). apply Once.
    + rewrite (POST2_unannounced r [] e Hq Hk Hl). reflexivity.
  - intros H. destruct (search_args_announced r H) as [-> ->]. split; reflexivity.
Qed.

(** X12. When the progress line can be written and the provider answers
    with a non-ok response whose text can be read, the first handler logs
    the text and answers with status 500,
    [{error: "Tavily API error: <status>"}] and [no-cache]; the second
    handler does the same after its own progress line and request. *)
Theorem provider_failure_is_reported (r : SearchRoute.SearchRequest)
    (response : FetchResponse) (errorText : jsstring) :
  truthy (SearchRoute.query r) = true ->
  env_truthy (TAVILY_API_KEY process_env) = true ->
  ok response = false ->
  fetch_text response = Normal errorText ->
  let failure :=
    mkResponse
      (JsObject
         [ (u16 "error",
            JsString (u16 "Tavily API error: " ++ decimal (fetch_status response))) ])
      500 [ (SearchRoute.Cache_Control, u16 "no-cache") ] in
  (line1 r = Normal tt ->
   fetch world [sent1 r] = Normal response ->
   run (POST1 (Normal r))
   = (Normal failure, [sent1 r; ConsoleError (Tavily_API_error errorText)]))
  /\ (line2 r = Normal tt ->
      fetch world [sent2 r] = Normal response ->
      run (POST2 (Normal r))
      = (Normal failure, [sent2 r; ConsoleError (Tavily_API_error errorText)])).
Proof.
  intros Hq Hk Hok Htext failure.
  split; intros Hl Hfetch; unfold run;
    [rewrite (POST1_valid r [] Hq Hk Hl)|rewrite (POST2_valid r [] Hq Hk Hl)];
    unfold try_catch, bind, request, SearchRoute.relay, lift, emit, throw, ret;
    cbv zeta; cbn [app]; rewrite Hfetch, Hok; cbn [negb]; cbv iota;
    rewrite Htext; reflexivity.
Qed.

(** The count of the results can be written when the provider sent none
    or sent an array. *)
Lemma results_counted results :
  match results with
  | JsUndefined | JsNull | JsArray _ => True
  | _ => False
  end ->
  succeeds (SearchRoute.results_count engine results) = true.
Proof.
  unfold SearchRoute.results_count.
  destruct results as [| | | | |items|]; try contradiction; intros _; try reflexivity.
  cbn [Conversion.optional_length]. unfold or_else.
  destruct (truthy _); reflexivity.
Qed.

(** X13. When the progress line can be written and the provider answers
    with an ok response whose body decodes to an object with results that
    can be counted, the handlers answer with status 200, the cacheable
    header [s-maxage=600, stale-while-revalidate=1200] and
    [{results, answer}]: the provider's [results], or [[]] when it sent
    none, and the provider's [answer], or [null] when it sent none.
    Results that are absent or an array can always be counted. *)
Theorem provider_success_is_normalised (r : SearchRoute.SearchRequest)
    (response : FetchResponse) (data : list (jsstring * JsValue)) :
  truthy (SearchRoute.query r) = true ->
  env_truthy (TAVILY_API_KEY process_env) = true ->
  ok response = true ->
  fetch_json response = Normal (JsObject data) ->
  succeeds (SearchRoute.results_count engine (property (JsObject data) (u16 "results")))
  = true ->
  let results := or_else (property (JsObject data) (u16 "results")) (JsArray []) in
  let answer := or_else (property (JsObject data) (u16 "answer")) JsNull in
  let success :=
    mkResponse (JsObject [ (u16 "results", results); (u16 "answer", answer) ])
      200 [ (SearchRoute.Cache_Control, search_cacheable) ] in
  (line1 r = Normal tt ->
   fetch world [sent1 r] = Normal response ->
   run (POST1 (Normal r)) = (Normal success, [sent1 r]))
  /\ (line2 r = Normal tt ->
      fetch world [sent2 r] = Normal response ->
      run (POST2 (Normal r)) = (Normal success, [sent2 r]))
  /\ (lookup (u16 "results") data = None -> results = JsArray [])
  /\ (lookup (u16 "answer") data = None -> answer = JsNull)
  /\ (forall v,
        match v with
        | JsUndefined | JsNull | JsArray _ => True
        | _ => False
        end ->
        succeeds (SearchRoute.results_count engine v) = true).
Proof.
  intros Hq Hk Hok Hjson Hcount results answer success.
  destruct (SearchRoute.results_count engine _) as [text|] eqn:C; [|discriminate].
  split; [|split; [|split; [|split]]].
  - intros Hl Hfetch. unfold run. rewrite (POST1_valid r [] Hq Hk Hl).
    unfold try_catch. unfold bind at 1, request at 1. cbv zeta. cbn [app].
    rewrite Hfetch. unfold SearchRoute.relay. rewrite Hok. cbn [negb]. cbv iota.
    rewrite Hjson, bind_lift_Normal.
    rewrite get_prop_object, bind_ret, C, bind_lift_Normal.
    rewrite get_prop_object, bind_ret. reflexivity.
  - intros Hl Hfetch. unfold run. rewrite (POST2_valid r [] Hq Hk Hl).
    unfold try_catch. unfold bind at 1, request at 1. cbv zeta. cbn [app].
    rewrite Hfetch. unfold SearchRoute.relay. rewrite Hok. cbn [negb]. cbv iota.
    rewrite Hjson, bind_lift_Normal.
    rewrite get_prop_object, bind_ret, C, bind_lift_Normal.
    rewrite get_prop_object, bind_ret. reflexivity.
  - intros L. unfold results, property. rewrite L. reflexivity.
  - intros L. unfold answer, property. rewrite L. reflexivity.
  - apply results_counted.
Qed.

(** With a non-empty array as allow-list, the two progress lines convert
    the same values, in a different order, and every failure is the same
    error. *)
Lemma announce_agree query max_results d ds :
  SearchRoute.announce engine query max_results (JsArray (d :: ds))
  = SearchRouteEy.announce engine query max_results (JsArray (d :: ds)).
Proof.
  unfold SearchRoute.announce, SearchRouteEy.announce.
  cbn [Conversion.length_is_positive Conversion.and_then SearchRoute.join].
  destruct (Conversion.Array_join engine _ _) as [text|e1] eqn:J;
    destruct (Conversion.ToString engine query) as [q|e2] eqn:Q;
    destruct (Conversion.ToString engine max_results) as [m|e3] eqn:L;
    cbn [Conversion.and_then];
    try apply Array_join_throws in J; try apply ToString_throws in Q;
    try apply ToString_throws in L; subst; reflexivity.
Qed.

(** X14. On a request that supplies a non-empty allow-list the two
    handlers do the same: the same events and the same answer, whatever
    the provider does. *)
Theorem handlers_agree_on_allow_lists (r : SearchRoute.SearchRequest)
    (d : JsValue) (ds : list JsValue) (t : Trace) :
  SearchRoute.include_domains r = JsArray (d :: ds) ->
  POST1 (Normal r) t = POST2 (Normal r) t.
Proof.
  intros H. unfold SearchRoute.POST, SearchRouteEy.POST, try_catch.
  rewrite !bind_lift_Normal. cbv zeta. rewrite H. cbn [SearchRoute.default_to].
  destruct (negb (truthy _)); [reflexivity|].
  destruct (negb (env_truthy _)); [reflexivity|].
  rewrite <- announce_agree.
  destruct (SearchRoute.announce engine _ _ _) as [[]|e] eqn:A;
    [|rewrite !bind_lift_Throw; reflexivity].
  rewrite !bind_lift_Normal, (first_request engine process_env _ _ _ A), bind_lift_Normal.
  reflexivity.
Qed.

Lemma relay_shape response t answer t' :
  SearchRoute.relay engine response t = (Normal answer, t') ->
  status answer = 200
  /\ headers answer = [ (SearchRoute.Cache_Control, search_cacheable) ].
Proof.
  unfold SearchRoute.relay. destruct (negb (ok response)); intros H.
  - do 2 inv_bind H. discriminate.
  - do 4 inv_bind H. inversion H. split; reflexivity.
Qed.

(** X15. Every answer of a search handler has status 200, 400 or 500.
    It carries the cacheable header exactly when the status is 200; the
    two validation answers carry no [Cache-Control] header, and every
    other answer carries [no-cache]. *)
Theorem search_answers_and_caching (req_json : Completion SearchRoute.SearchRequest) :
  let shape (answer : Response) :=
    (status answer = 200
     /\ headers answer = [ (SearchRoute.Cache_Control, search_cacheable) ])
    \/ ((status answer = 400 \/ status answer = 500) /\ headers answer = [])
    \/ (status answer = 500
        /\ headers answer = [ (SearchRoute.Cache_Control, u16 "no-cache") ]) in
  (exists answer t, run (POST1 req_json) = (Normal answer, t) /\ shape answer)
  /\ (exists answer t, run (POST2 req_json) = (Normal answer, t) /\ shape answer).
Proof.
  intros shape.
  assert (H : forall sent,
             exists answer t,
               try_catch
                 (bind (request sent (fetch world)) (SearchRoute.relay engine))
                 (fun err => ret (SearchRoute.errorResponse err)) []
               = (Normal answer, t)
               /\ shape answer).
  { intros sent. unfold try_catch.
    destruct (bind (request sent (fetch world)) (SearchRoute.relay engine) [])
      as [[answer|e] t] eqn:E.
    - exists answer, t. split; [reflexivity|]. left.
      inv_bind E. eapply relay_shape; eauto.
    - eexists _, _. split; [reflexivity|]. right. right. split; reflexivity. }
  split.
  - destruct req_json as [r|e].
    + destruct (truthy (SearchRoute.query r)) eqn:Hq.
      * destruct (env_truthy (TAVILY_API_KEY process_env)) eqn:Hk.
        -- unfold run. destruct (line1 r) as [[]|e] eqn:Hl.
           ++ rewrite (POST1_valid r [] Hq Hk Hl). apply H.
           ++ rewrite (POST1_unannounced r [] e Hq Hk Hl).
              eexists _, _. split; [reflexivity|]. right. right. split; reflexivity.
        -- destruct (search_without_key r Hq Hk) as [-> _].
           eexists _, _. split; [reflexivity|]. right; left; auto.
      * destruct (search_without_query r Hq) as [-> _].
        eexists _, _. split; [reflexivity|]. right; left; auto.
    + eexists _, _. split; [reflexivity|]. right. right. split; reflexivity.
  - destruct req_json as [r|e].
    + destruct (truthy (SearchRoute.query r)) eqn:Hq.
      * destruct (env_truthy (TAVILY_API_KEY process_env)) eqn:Hk.
        -- unfold run. destruct (line2 r) as [[]|e] eqn:Hl.
           ++ rewrite (POST2_valid r [] Hq Hk Hl). apply H.
           ++ rewrite (POST2_unannounced r [] e Hq Hk Hl).
              eexists _, _. split; [reflexivity|]. right. right. split; reflexivity.
        -- destruct (search_without_key r Hq Hk) as [_ ->].
           eexists _, _. split; [reflexivity|]. right; left; auto.
      * destruct (search_without_query r Hq) as [_ ->].
        eexists _, _. split; [reflexivity|]. right; left; auto.
    + eexists _, _. split; [reflexivity|]. right. right. split; reflexivity.
Qed.

End SearchHandlers.

(** ** What stripping keeps and what it removes *)

Section StrippingText.
Import Regex Citation.

Lemma strip_keeps_plain_prefix a s :
  Forall (fun x => x <> lenticular_open) a ->
  strip marker 0 (a ++ s) = a ++ strip marker 0 s.
Proof.
  induction 1 as [|x a Hx _ IH]; [reflexivity|].
  cbn [app]. cbn [strip].
  destruct (match_here marker (x :: a ++ s)) as [rest|] eqn:E.
  - destruct (marker_match _ _ _ E) as [-> _]. contradiction.
  - rewrite IH. reflexivity.
Qed.

(** X16. A well-formed citation marker (open bracket, digits, colon,
    digits, dagger, a non-empty source without close bracket, close
    bracket) that follows text without open bracket is removed whole, and
    the text before it is kept as it is. *)
Theorem marker_after_plain_text_is_removed (a d1 d2 src b : jsstring) :
  Forall (fun x => x <> lenticular_open) a ->
  digits d1 -> digits d2 ->
  src <> [] -> Forall (fun x => x <> lenticular_close) src ->
  strip_markers (a ++ marker_text d1 d2 src ++ b) = a ++ strip_markers b.
Proof.
  intros Ha H1 H2 N3 S3. unfold strip_markers, replace_all.
  rewrite (strip_keeps_plain_prefix a _ Ha). f_equal.
  pose proof (marker_text_matches d1 d2 src b H1 H2 N3 S3) as M.
  remember (marker_text d1 d2 src) as m eqn:Em.
  destruct m as [|x m]; [discriminate Em|].
  cbn [app] in *. cbn [strip]. rewrite M.
  cbn [List.length]. rewrite length_app.
  replace (S (List.length m + List.length b) - List.length b)
    with (S (List.length m)) by lia.
  apply strip_skips.
Qed.

(** What a match consumes ends with the code unit its last atom asks
    for. *)
Lemma greedy_ends_with p k c :
  (forall s rest, k s = Some rest -> In c s) ->
  forall s rest, greedy p k s = Some rest -> In c s.
Proof.
  intros Hk. induction s as [|x s IH]; cbn [greedy]; intros rest H.
  - eapply Hk; eauto.
  - destruct (p x); [|eapply Hk; eauto].
    destruct (greedy p k s) as [r|] eqn:G; [|eapply Hk; eauto].
    right. eapply IH; eauto.
Qed.

Lemma match_ends_with r c :
  forall s rest, match_here (r ++ [One (Exactly c)]) s = Some rest -> In c s.
Proof.
  induction r as [|[cl|cl] r IH]; intros s rest H.
  - destruct s as [|x s]; [discriminate|].
    cbn [app] in H. rewrite match_here_One_eq in H. cbn [accepts] in H.
    destruct (N.eqb_spec x c) as [->|]; [left; reflexivity|discriminate].
  - destruct s as [|x s]; [discriminate|].
    cbn [app] in H. rewrite match_here_One_eq in H.
    destruct (accepts cl x); [|discriminate]. right. eapply IH; eauto.
  - destruct s as [|x s]; [discriminate|].
    cbn [app] in H. rewrite match_here_OneOrMore_eq in H.
    destruct (accepts cl x); [|discriminate]. right.
    eapply greedy_ends_with; [|exact H]. exact IH.
Qed.

Lemma marker_needs_close s rest :
  match_here marker s = Some rest -> In lenticular_close s.
Proof.
  apply (match_ends_with
           [ One (Exactly lenticular_open); OneOrMore Digit; One (Exactly colon);
             OneOrMore Digit; One (Exactly dagger);
             OneOrMore (AnyBut lenticular_close) ]).
Qed.

(** X17. Text that holds no open bracket, or no close bracket, comes out
    of the stripping unchanged. *)
Theorem text_without_brackets_is_unchanged (s : jsstring) :
  Forall (fun x => x <> lenticular_open) s
  \/ Forall (fun x => x <> lenticular_close) s ->
  strip_markers s = s.
Proof.
  unfold strip_markers, replace_all. intros [H|H].
  - rewrite <- (app_nil_r s) at 1.
    rewrite (strip_keeps_plain_prefix s [] H). apply app_nil_r.
  - induction H as [|x s Hx H IH]; [reflexivity|].
    cbn [strip].
    destruct (match_here marker (x :: s)) as [rest|] eqn:E.
    + apply marker_needs_close in E. exfalso.
      destruct E as [->|E]; [contradiction|].
      rewrite Forall_forall in H. exact (H _ E eq_refl).
    + rewrite IH. reflexivity.
Qed.

Lemma strip_remains r s : forall skip, remains_of (strip r skip s) s.
Proof.
  induction s as [|x s IH]; intros skip; cbn [strip]; [constructor|].
  destruct skip as [|n]; [|constructor; apply IH].
  destruct (match_here r (x :: s)) as [rest|]; [|constructor; apply IH].
  destruct (List.length (x :: s) - List.length rest);
    constructor; apply IH.
Qed.

Lemma remains_shorter kept s :
  remains_of kept s -> List.length kept <= List.length s.
Proof. induction 1; simpl; lia. Qed.

(** X18. Stripping only deletes: the reply of a completed run is the
    text of the message with some code units left out, in the same
    order, or the fallback text when the message has no text or nothing
    is left of it. *)
Theorem stripping_only_deletes (messages : list Message) :
  match Chat.first_text_value
          (find (fun m => strict_eq_string (role m) (u16 "assistant")) messages)
  with
  | Some raw =>
      remains_of (strip_markers raw) raw
      /\ List.length (strip_markers raw) <= List.length raw
      /\ (strip_markers raw <> [] ->
          Chat.completed_reply messages = strip_markers raw)
      /\ (strip_markers raw = [] ->
          Chat.completed_reply messages = u16 "No valid response.")
  | None => Chat.completed_reply messages = u16 "No valid response."
  end.
Proof.
  unfold Chat.completed_reply.
  destruct (Chat.first_text_value _) as [raw|]; [|reflexivity].
  cbn [option_map].
  pose proof (strip_remains marker raw 0) as R. fold (replace_all marker raw) in R.
  fold (strip_markers raw) in R.
  split; [exact R|]. split; [apply remains_shorter; exact R|].
  destruct (strip_markers raw) as [|x s]; split; intros H;
    (reflexivity || contradiction || discriminate).
Qed.

End StrippingText.

(** ** The chat page *)

(** One step of a page computation: the storage accesses and the request
    are unfolded and the state is simplified. *)
Ltac page_run :=
  unfold Client.loadFromStorage, Client.clear, Client.report, Client.settle,
    Client.setItem, Client.getItem, Client.removeItem, Client.storage_access,
    Client.post_chat;
  cbn beta iota zeta delta
    [Client.loadFromStorage Client.clear Client.report Client.settle
     Client.try_catch Client.bind Client.ret
     Client.raise Client.get Client.call Client.now
     Client.setMessages Client.setInput Client.setThreadId Client.setLoading
     Client.setActiveRun Client.setTyping Client.setIsSpeaking Client.setIsLoading
     Client.setItem Client.getItem Client.removeItem
     Client.storage_access Client.post_chat Client.stopSpeaking
     Client.reloaded Client.called Client.with_storage
     Client.messages Client.input Client.threadId Client.loading Client.activeRun
     Client.typing Client.isSpeaking Client.voiceEnabled Client.isLoading
     Client.storage Client.calls fst snd].

(** Case analysis on whether storage can be read, on what it holds and on
    how the stored history parses. *)
Ltac page_cases :=
  repeat match goal with
  | |- context [match Client.storage_fault ?b ?l with _ => _ end] =>
      destruct (Client.storage_fault b l) eqn:?; page_run
  | |- context [match Client.stored ?k ?st with _ => _ end] =>
      destruct (Client.stored k st) as [[|? ?]|] eqn:?; page_run
  | |- context [match JSON_parse ?e ?t with _ => _ end] =>
      destruct (JSON_parse e t) as [[| | | | |[|? ?]|]|] eqn:?; page_run
  end.

Lemma stored_remove_same k st : Client.stored k (Client.remove k st) = None.
Proof.
  induction st as [|[k' v] st IH]; cbn; [reflexivity|].
  destruct (jsstring_eqb k' k) eqn:E; cbn; [exact IH|]. now rewrite E.
Qed.

Lemma stored_remove_other k k' st :
  k <> k' ->
  Client.stored k (Client.remove k' st) = Client.stored k st.
Proof.
  intros H. induction st as [|[k0 v] st IH]; cbn; [reflexivity|].
  destruct (jsstring_eqb k0 k') eqn:E; cbn.
  - destruct (jsstring_eqb k0 k) eqn:E'; [|exact IH].
    apply jsstring_eqb_eq in E, E'. congruence.
  - now rewrite IH.
Qed.

Lemma keys_differ : Client.chatHistory <> Client.threadId_key.
Proof. discriminate. Qed.

Lemma keys_differ' : Client.threadId_key <> Client.chatHistory.
Proof. discriminate. Qed.

Section ChatPage.

Variable engine : Engine.
Variable browser : Client.Browser.

Local Abbreviation sendMessage := (Client.sendMessage engine browser).
Local Abbreviation loadFromStorage := (Client.loadFromStorage engine browser).

(** *** The calls of a turn *)

Lemma number_app f l l' :
  Client.number f (l ++ l') = Client.number f l + Client.number f l'.
Proof. unfold Client.number. now rewrite filter_app, length_app. Qed.

Lemma logs_bind {A B} (Q1 Q2 Q : list Client.Call -> Prop) (m : Client.P A)
    (k : A -> Client.P B) :
  Client.logs Q1 m -> (forall a, Client.logs Q2 (k a)) ->
  (forall l, Q1 l -> Q l) ->
  (forall l1 l2, Q1 l1 -> Q2 l2 -> Q (l1 ++ l2)) ->
  Client.logs Q (Client.bind m k).
Proof.
  intros Hm Hk H1 H2 p. unfold Client.bind.
  destruct (Hm p) as (n1 & E1 & q1).
  destruct (m p) as [[a|e] p1]; cbn in *.
  - destruct (Hk a p1) as (n2 & E2 & q2).
    exists (n1 ++ n2). rewrite E2, E1, app_assoc. auto.
  - exists n1. auto.
Qed.

Lemma quiet_bind {A B} (m : Client.P A) (k : A -> Client.P B) :
  Client.logs Client.no_post m -> (forall a, Client.logs Client.no_post (k a)) ->
  Client.logs Client.no_post (Client.bind m k).
Proof.
  intros Hm Hk. apply (logs_bind Client.no_post Client.no_post); auto.
  unfold Client.no_post. intros. rewrite number_app. lia.
Qed.

Lemma quiet_try_catch_finally {A} (Q : list Client.Call -> Prop) (body : Client.P A)
    handler cleanup :
  Client.logs Q body -> (forall e, Client.logs Client.no_post (handler e)) ->
  Client.logs Client.no_post cleanup ->
  (forall l l', Q l -> Client.no_post l' -> Q (l ++ l')) ->
  Client.logs Q (Client.try_catch_finally body handler cleanup).
Proof.
  intros Hb Hh Hc HQ p. unfold Client.try_catch_finally.
  destruct (Hb p) as (n1 & E1 & q1).
  destruct (body p) as [[a|e] p1]; cbn in *.
  - destruct (Hc p1) as (n2 & E2 & q2).
    destruct (cleanup p1) as [o p2]; cbn in *.
    exists (n1 ++ n2). rewrite E2, E1, app_assoc. auto.
  - destruct (Hh e p1) as (n2 & E2 & q2).
    destruct (handler e p1) as [o p2]; cbn in *.
    destruct (Hc p2) as (n3 & E3 & q3).
    destruct (cleanup p2) as [o' p3]; cbn in *.
    exists (n1 ++ n2 ++ n3). rewrite E3, E2, E1, <- !app_assoc. split; [reflexivity|].
    apply HQ; [assumption|]. unfold Client.no_post in *. rewrite number_app. lia.
Qed.

Lemma quiet_ret {A} (a : A) : Client.logs Client.no_post (Client.ret a).
Proof. intros p. exists []. cbn. now rewrite app_nil_r. Qed.

Lemma quiet_raise {A} e : Client.logs Client.no_post (@Client.raise A e).
Proof. intros p. exists []. cbn. now rewrite app_nil_r. Qed.

Lemma quiet_call c : Client.is_post c = false -> Client.logs Client.no_post (Client.call c).
Proof.
  intros H p. exists [c]. cbn. split; [reflexivity|].
  unfold Client.no_post, Client.number. cbn. now rewrite H.
Qed.

Lemma quiet_storage_access {A} c (k : Client.P A) :
  Client.is_post c = false -> Client.logs Client.no_post k ->
  Client.logs Client.no_post (Client.storage_access browser c k).
Proof.
  intros H Hk p. unfold Client.storage_access.
  assert (N : Client.no_post [c]) by (unfold Client.no_post, Client.number; cbn; now rewrite H).
  destruct (Client.storage_fault _ _).
  - exists [c]. cbn. auto.
  - destruct (Hk (Client.called c p)) as (n & E & q).
    exists ([c] ++ n). rewrite E. cbn [Client.called Client.calls]. rewrite <- app_assoc.
    split; [reflexivity|]. unfold Client.no_post in *. rewrite number_app. lia.
Qed.

Lemma quiet_same {A} (m : Client.P A) :
  (forall p, Client.calls (snd (m p)) = Client.calls p) -> Client.logs Client.no_post m.
Proof. intros H p. exists []. rewrite H, app_nil_r. split; reflexivity. Qed.


Ltac quiet :=
  repeat first
    [ apply quiet_bind; [|intros]
    | apply quiet_ret
    | apply quiet_raise
    | apply quiet_call; reflexivity
    | apply quiet_storage_access; [reflexivity|]
    | apply quiet_same; intros; reflexivity
    | match goal with |- Client.logs _ (if ?b then _ else _) => destruct b end
    | match goal with |- Client.logs _ (match ?v with _ => _ end) => destruct v end ].

Lemma quiet_setItem k v : Client.logs Client.no_post (Client.setItem browser k v).
Proof. unfold Client.setItem. quiet. Qed.

Lemma quiet_now : Client.logs Client.no_post (Client.now browser).
Proof. intros p. exists [Client.Date_toLocaleString]. cbn. split; reflexivity. Qed.

Lemma quiet_read v f : Client.logs Client.no_post (Client.read engine v f).
Proof. unfold Client.read. quiet. Qed.

Lemma quiet_speakText v : Client.logs Client.no_post (Client.speakText engine browser v).
Proof. unfold Client.speakText. quiet. Qed.

Lemma quiet_stopSpeaking : Client.logs Client.no_post (Client.stopSpeaking browser).
Proof. unfold Client.stopSpeaking. quiet. Qed.

Lemma quiet_report l e : Client.logs Client.no_post (Client.report engine browser l e).
Proof.
  unfold Client.report.
  repeat first
    [ apply quiet_setItem | apply quiet_now | apply quiet_bind; [|intros] | progress quiet ].
Qed.

Lemma quiet_settle : Client.logs Client.no_post Client.settle.
Proof. unfold Client.settle. quiet. Qed.

Lemma attempt_one r l : Client.logs Client.one_post (Client.attempt engine browser r l).
Proof.
  unfold Client.attempt.
  apply (logs_bind Client.one_post Client.no_post).
  - intros p. eexists [_]. cbn. split; [reflexivity|].
    unfold Client.one_post, Client.number. cbn. lia.
  - intros data.
    repeat first [ apply quiet_setItem | apply quiet_now | apply quiet_read | apply quiet_speakText
                 | apply quiet_bind; [|intros] | progress quiet ].
  - auto.
  - unfold Client.one_post, Client.no_post. intros. rewrite number_app. lia.
Qed.

Lemma sendMessage_logs : Client.logs Client.one_post sendMessage.
Proof.
  unfold Client.sendMessage.
  apply (logs_bind Client.no_post Client.one_post);
    [quiet| |unfold Client.one_post, Client.no_post; intros; lia
    |unfold Client.one_post, Client.no_post; intros; rewrite number_app; lia].
  intros rendered.
  destruct (_ || _).
  { intros p. exists []. cbn. rewrite app_nil_r. split; [reflexivity|].
    unfold Client.one_post. cbn. lia. }
  repeat (apply (logs_bind Client.no_post Client.one_post);
    [ first [apply quiet_stopSpeaking | apply quiet_now | apply quiet_setItem | quiet ]
    | intros
    | unfold Client.one_post, Client.no_post; intros; lia
    | unfold Client.one_post, Client.no_post; intros; rewrite number_app; lia ]).
  apply quiet_try_catch_finally.
  - apply attempt_one.
  - apply quiet_report.
  - apply quiet_settle.
  - unfold Client.one_post, Client.no_post; intros; rewrite number_app; lia.
Qed.

(** X19. One call of [sendMessage] posts at most one request, and none
    at all while a run is active or the input is blank: the page is then
    left exactly as it was. *)
Theorem one_request_per_send (p : Client.Page) :
  (exists new,
     Client.calls (snd (sendMessage p)) = Client.calls p ++ new
     /\ Client.number Client.is_post new <= 1)
  /\ (Client.activeRun p || Client.blank (Client.input p) = true ->
      sendMessage p = (Client.Done tt, p)).
Proof.
  split; [apply sendMessage_logs|].
  intros H. unfold Client.sendMessage, Client.bind, Client.get. now rewrite H.
Qed.



(** *** The state after a turn *)

Ltac page_cbn :=
  cbn -[property u16 Client.chatHistory Client.threadId_key Client.stored Client.remove].

Lemma stored_setItem_same k v st :
  Client.stored k ((k, v) :: Client.remove k st) = Some v.
Proof. cbn. now rewrite jsstring_eqb_refl. Qed.

Lemma stored_setItem_other k k' v st :
  k <> k' ->
  Client.stored k ((k', v) :: Client.remove k' st) = Client.stored k st.
Proof.
  intros H. cbn. destruct (jsstring_eqb k' k) eqn:E.
  - apply jsstring_eqb_eq in E. congruence.
  - now apply stored_remove_other.
Qed.

Ltac storage_simpl :=
  repeat first
    [ rewrite stored_setItem_same
    | rewrite (stored_setItem_other _ _ _ _ keys_differ)
    | rewrite (stored_setItem_other _ _ _ _ keys_differ')
    | rewrite stored_remove_same
    | rewrite (stored_remove_other _ _ _ keys_differ)
    | rewrite (stored_remove_other _ _ _ keys_differ') ].

Lemma extends_refl {A} (l : list A) : exists rest, l = l ++ rest.
Proof. exists []. now rewrite app_nil_r. Qed.

Lemma extends_app {A} (l l' more : list A) :
  (exists rest, l' = l ++ rest) -> exists rest, l' ++ more = l ++ rest.
Proof. intros [rest ->]. exists (rest ++ more). now rewrite app_assoc. Qed.

Ltac extends := repeat first [apply extends_refl | apply extends_app].

Lemma read_cases data :
  (forall f p, exists e, Client.read engine data f p = (Client.Raise e, p))
  \/ (forall f p, Client.read engine data f p = (Client.Done (property data (u16 f)), p)).
Proof.
  destruct data; [left|left|right..]; intros;
    unfold Client.read, Client.raise, Client.ret; eauto.
Qed.

Lemma speakText_frame v p :
  match Client.speakText engine browser v p with
  | (_, p') =>
      Client.messages p' = Client.messages p
      /\ Client.input p' = Client.input p
      /\ Client.threadId p' = Client.threadId p
      /\ Client.storage p' = Client.storage p
  end.
Proof.
  unfold Client.speakText. page_run.
  destruct (Client.speechSynthesis_in_window browser); [|cbn; auto].
  destruct v; cbn; auto.
Qed.

Lemma report_facts l e p :
  match Client.report engine browser l e p with
  | (o, p') =>
      Client.input p' = Client.input p
      /\ Client.threadId p' = Client.threadId p
      /\ Client.stored Client.threadId_key (Client.storage p')
         = Client.stored Client.threadId_key (Client.storage p)
      /\ (exists ts,
            Client.messages p'
            = l ++ [Client.chat_message "assistant" (Client.error_content browser e) ts])
      /\ (o = Client.Done tt ->
          Client.stored Client.chatHistory (Client.storage p')
          = Some (JSON_stringify engine (JsArray (Client.messages p'))))
  end.
Proof.
  page_run. page_cbn.
  destruct (Client.storage_fault browser _); page_cbn; storage_simpl;
    repeat split; eauto; discriminate.
Qed.

Lemma attempt_facts r l p :
  match Client.attempt engine browser r l p with
  | (o, p') =>
      Client.input p' = Client.input p
      /\ Client.thread_from_answer browser p p'
      /\ (o = Client.Done tt ->
          exists answer,
            Client.messages p' = l ++ [answer]
            /\ property answer (u16 "role") = JsString (u16 "assistant")
            /\ Client.stored Client.chatHistory (Client.storage p')
               = Some (JSON_stringify engine (JsArray (Client.messages p'))))
  end.
Proof.
  unfold Client.attempt, Client.bind, Client.post_chat. page_cbn.
  destruct (Client.axios_post browser _) as [data|e] eqn:A.
  2:{ split; [reflexivity|]. split; [|discriminate]. left; split; reflexivity. }
  destruct (read_cases data) as [R|R].
  { match goal with |- context [Client.read engine data ?f ?q] =>
      destruct (R f q) as [e E]; rewrite E
    end.
    split; [reflexivity|]. split; [|discriminate]. left; split; reflexivity. }
  rewrite !R.
  destruct (truthy (property data (u16 "error"))) eqn:T.
  { page_cbn. split; [reflexivity|]. split; [|discriminate]. left; split; reflexivity. }
  assert (Th : forall q,
    Client.threadId q = property data (u16 "threadId") ->
    (exists rest,
       Client.calls q
       = (Client.calls p
          ++ [Client.Axios_post (u16 "/api/chat")
                (JsObject [ (u16 "input", JsString (Client.input r));
                            (u16 "threadId", Client.threadId r) ])])
         ++ rest) ->
    Client.stored Client.threadId_key (Client.storage q)
      = Client.stored Client.threadId_key (Client.storage p)
    \/ Client.stored Client.threadId_key (Client.storage q)
       = Some (Client.String browser (property data (u16 "threadId"))) ->
    Client.thread_from_answer browser p q).
  { intros q Q1 [rest Q2] Q3. right.
    exists [], (JsObject [ (u16 "input", JsString (Client.input r));
                           (u16 "threadId", Client.threadId r) ]), rest, data.
    rewrite app_nil_r. split; [rewrite Q2, <- app_assoc; reflexivity|].
    split; [exact A|]. split; [exact T|]. split; [exact Q1|exact Q3]. }
  rewrite ?R. page_run. page_cbn. rewrite ?R. page_cbn.
  destruct (Client.storage_fault browser (_ ++ [Client.Storage_setItem Client.threadId_key _]))
    eqn:F1; page_cbn.
  { split; [reflexivity|]. split; [|discriminate].
    apply Th; [reflexivity|cbn [Client.calls Client.called]; extends|left; reflexivity]. }
  rewrite ?R. page_cbn.
  destruct (Client.storage_fault browser (_ ++ [Client.Storage_setItem Client.chatHistory _]))
    eqn:F2; page_cbn.
  { split; [reflexivity|]. split; [|discriminate].
    apply Th; [reflexivity|cbn [Client.calls Client.called]; extends|].
    right. cbn [Client.storage Client.called Client.with_storage]. now storage_simpl. }
  destruct (Client.voiceEnabled r).
  - match goal with |- context [Client.speakText engine browser ?v ?q] =>
      pose proof (speakText_frame v q) as S;
      destruct (quiet_speakText v q) as (new & Sc & _);
      destruct (Client.speakText engine browser v q) as [o q']
    end.
    cbn [snd] in Sc. cbn in S. destruct S as (S1 & S2 & S3 & S4).
    split; [assumption|]. split.
    + apply Th; [assumption| |right; rewrite S4; now storage_simpl].
      rewrite Sc. cbn [Client.calls Client.called Client.with_storage]. extends.
    + intros _. eexists. rewrite S1, S4. storage_simpl. repeat split; reflexivity.
  - unfold Client.ret. split; [reflexivity|]. split.
    + apply Th; [reflexivity|cbn [Client.calls Client.called Client.with_storage]; extends|].
      right. cbn [Client.storage Client.with_storage]. now storage_simpl.
    + intros _. eexists. cbn [Client.storage Client.with_storage Client.messages Client.called].
      storage_simpl. repeat split; reflexivity.
Qed.

Lemma thread_from_answer_frame p q q1 p' :
  Client.threadId q = Client.threadId p ->
  Client.stored Client.threadId_key (Client.storage q)
    = Client.stored Client.threadId_key (Client.storage p) ->
  (exists pre, Client.calls q = Client.calls p ++ pre) ->
  Client.threadId p' = Client.threadId q1 ->
  Client.stored Client.threadId_key (Client.storage p')
    = Client.stored Client.threadId_key (Client.storage q1) ->
  (exists post, Client.calls p' = Client.calls q1 ++ post) ->
  Client.thread_from_answer browser q q1 -> Client.thread_from_answer browser p p'.
Proof.
  intros E1 E2 [pre E3] E4 E5 [post E6]
    [[H1 H2]|(new & body & rest & data & H0 & H1 & H2 & H3 & H4)].
  - left. split; congruence.
  - right. exists (pre ++ new), body, (rest ++ post), data.
    rewrite E6, H0, E3 in *. rewrite E4, E5, <- E2.
    rewrite !app_assoc in *. split; [|auto].
    rewrite <- !app_assoc. reflexivity.
Qed.

Lemma exchange_facts p q ts :
  Client.threadId q = Client.threadId p ->
  Client.stored Client.threadId_key (Client.storage q)
    = Client.stored Client.threadId_key (Client.storage p) ->
  Client.input q = [] ->
  (exists pre, Client.calls q = Client.calls p ++ pre) ->
  match
    Client.try_catch_finally
      (Client.attempt engine browser p
         (Client.messages p ++ [Client.chat_message "user" (JsString (Client.input p)) ts]))
      (Client.report engine browser
         (Client.messages p ++ [Client.chat_message "user" (JsString (Client.input p)) ts]))
      Client.settle q
  with
  | (o, p') =>
      Client.thread_from_answer browser p p'
      /\ (o = Client.Done tt ->
          exists ts answer,
            Client.messages p'
            = Client.messages p
              ++ [Client.chat_message "user" (JsString (Client.input p)) ts; answer]
            /\ property answer (u16 "role") = JsString (u16 "assistant")
            /\ Client.stored Client.chatHistory (Client.storage p')
               = Some (JSON_stringify engine (JsArray (Client.messages p')))
            /\ Client.input p' = []
            /\ Client.activeRun p' = false
            /\ Client.loading p' = false
            /\ Client.typing p' = false)
  end.
Proof.
  intros Q1 Q2 Q3 Q4. unfold Client.try_catch_finally.
  pose proof (attempt_facts p
    (Client.messages p ++ [Client.chat_message "user" (JsString (Client.input p)) ts]) q) as At.
  destruct (Client.attempt _ _ _ _ q) as [[[]|e] q1]; destruct At as (A1 & A2 & A3).
  - page_run. page_cbn. split.
    + revert A2. apply thread_from_answer_frame; auto. apply extends_refl.
    + intros _. destruct (A3 eq_refl) as (answer & M & Ro & St).
      exists ts, answer.
      split; [rewrite M, <- app_assoc; reflexivity|]. split; [exact Ro|].
      split; [exact St|]. split; [rewrite A1; exact Q3|]. repeat split.
  - pose proof (report_facts
      (Client.messages p ++ [Client.chat_message "user" (JsString (Client.input p)) ts]) e q1)
      as Rp.
    destruct (quiet_report
      (Client.messages p ++ [Client.chat_message "user" (JsString (Client.input p)) ts]) e q1)
      as (logged & Rc & _).
    destruct (Client.report _ _ _ e q1) as [o q2]. cbn [snd] in Rc.
    destruct Rp as (R1 & R2 & R3 & (ts' & R4) & R5).
    page_run. page_cbn. split.
    + revert A2. apply thread_from_answer_frame; eauto.
    + intros O. specialize (R5 O). eexists ts, _.
      split; [rewrite R4, <- app_assoc; reflexivity|]. split; [reflexivity|].
      split; [exact R5|]. split; [rewrite R1, A1; exact Q3|]. repeat split.
Qed.

Lemma sendMessage_facts p :
  Client.activeRun p = false -> Client.blank (Client.input p) = false ->
  match sendMessage p with
  | (o, p') =>
      Client.thread_from_answer browser p p'
      /\ (o = Client.Done tt ->
          exists ts answer,
            Client.messages p'
            = Client.messages p
              ++ [Client.chat_message "user" (JsString (Client.input p)) ts; answer]
            /\ property answer (u16 "role") = JsString (u16 "assistant")
            /\ Client.stored Client.chatHistory (Client.storage p')
               = Some (JSON_stringify engine (JsArray (Client.messages p')))
            /\ Client.input p' = []
            /\ Client.activeRun p' = false
            /\ Client.loading p' = false
            /\ Client.typing p' = false)
  end.
Proof.
  intros G1 G2. unfold Client.sendMessage, Client.bind at 1, Client.get.
  rewrite G1, G2. cbn [orb].
  assert (Raised : forall (e : Client.Caught) q (Q : Prop),
    Client.threadId q = Client.threadId p ->
    Client.storage q = Client.storage p ->
    Client.thread_from_answer browser p q /\ (@Client.Raise unit e = Client.Done tt -> Q)).
  { intros e q Q Q1 Q2. split; [|discriminate]. left. rewrite Q1, Q2. auto. }
  unfold Client.stopSpeaking.
  destruct (Client.speechSynthesis_in_window browser); page_run.
  all:
    (destruct (Client.storage_fault browser _) eqn:F;
     [ apply Raised; reflexivity
     | destruct (Client.textarea_mounted browser);
       apply exchange_facts;
         cbn [Client.threadId Client.storage Client.input Client.calls Client.called
              Client.with_storage];
         storage_simpl; first [reflexivity | extends] ]).
Qed.

(** The request of a turn, and what the page shows for its outcome: the
    error text of a rejection or of an answer with an [error], and for
    any other answer its [reply], or an error text if something threw
    after the answer came. *)
Local Abbreviation posted p :=
  (Client.Axios_post (u16 "/api/chat")
     (JsObject [ (u16 "input", JsString (Client.input p));
                 (u16 "threadId", Client.threadId p) ])).

Local Abbreviation shown outcome content :=
  (match outcome with
   | Client.Raise e => content = Client.error_content browser e
   | Client.Done data =>
       if truthy (property data (u16 "error"))
       then content
            = Client.error_content browser
                (Client.mkCaught JsUndefined
                   (JsString (Client.String browser (property data (u16 "error")))))
       else content = property data (u16 "reply")
            \/ exists e, content = Client.error_content browser e
   end).






Lemma load_facts p :
  (forall l, Client.storage_fault browser l = None) ->
  exists q,
    loadFromStorage p = (Client.Done tt, q)
    /\ Client.isLoading q = false
    /\ Client.messages q
       = match Client.found_history engine p with Some l => l | None => Client.messages p end
    /\ Client.threadId q
       = match Client.found_thread p with Some s => JsString s | None => Client.threadId p end
    /\ Client.storage q
       = (if Client.corrupted engine p then Client.remove Client.chatHistory (Client.storage p)
          else Client.storage p).
Proof.
  intros F. unfold Client.found_history, Client.found_thread, Client.corrupted.
  unfold Client.loadFromStorage, Client.try_catch_finally. page_run.
  rewrite !F. page_run.
  destruct (Client.stored Client.chatHistory _) as [[|c text]|]; page_run.
  2:{ destruct (JSON_parse engine _) as [[| | | | |[|? ?]|]|]; page_run; rewrite ?F; page_run.
      all: destruct (Client.stored Client.threadId_key _) as [[|? ?]|]; page_run;
        eexists; repeat split; reflexivity. }
  all: destruct (Client.stored Client.threadId_key _) as [[|? ?]|]; page_run;
    eexists; repeat split; reflexivity.
Qed.

Lemma attempt_answered r l p data c s :
  (forall sent, Client.storage_fault browser sent = None) ->
  (forall sent, Client.axios_post browser sent = Client.Done data) ->
  truthy (property data (u16 "error")) = false ->
  property data (u16 "threadId") = JsString (c :: s) ->
  match Client.attempt engine browser r l p with
  | (_, p') =>
      Client.threadId p' = JsString (c :: s)
      /\ Client.stored Client.threadId_key (Client.storage p') = Some (c :: s)
  end.
Proof.
  intros F A T Th.
  destruct (read_cases data) as [R|R].
  { destruct data; try discriminate Th; destruct (R "error"%string p) as [e E]; discriminate E. }
  unfold Client.attempt. page_run. rewrite A. page_run.
  rewrite !R. rewrite T. page_run. rewrite ?R, ?F, ?Th. page_run.
  rewrite ?R, ?F, ?Th. page_run. rewrite ?R, ?F, ?Th. page_run.
  destruct (Client.voiceEnabled r).
  - match goal with |- context [Client.speakText engine browser ?v ?q] =>
      pose proof (speakText_frame v q) as S;
      destruct (Client.speakText engine browser v q) as [o q']
    end.
    cbn in S. destruct S as (S1 & S2 & S3 & S4).
    rewrite S3, S4. storage_simpl. auto.
  - page_run. storage_simpl. auto.
Qed.

Lemma sendMessage_answered p data c s :
  Client.activeRun p = false -> Client.blank (Client.input p) = false ->
  (forall sent, Client.storage_fault browser sent = None) ->
  (forall sent, Client.axios_post browser sent = Client.Done data) ->
  truthy (property data (u16 "error")) = false ->
  property data (u16 "threadId") = JsString (c :: s) ->
  match sendMessage p with
  | (_, p') =>
      Client.threadId p' = JsString (c :: s)
      /\ Client.stored Client.threadId_key (Client.storage p') = Some (c :: s)
  end.
Proof.
  intros G1 G2 F A T Th. unfold Client.sendMessage, Client.bind at 1, Client.get.
  rewrite G1, G2. cbn [orb].
  assert (X : forall l q,
    match Client.try_catch_finally (Client.attempt engine browser p l)
            (Client.report engine browser l) Client.settle q with
    | (_, p') =>
        Client.threadId p' = JsString (c :: s)
        /\ Client.stored Client.threadId_key (Client.storage p') = Some (c :: s)
    end).
  { intros l q. unfold Client.try_catch_finally.
    pose proof (attempt_answered p l q data c s F A T Th) as At.
    destruct (Client.attempt _ _ _ _ q) as [[[]|e] q1]; destruct At as (A1 & A2).
    - page_run. auto.
    - pose proof (report_facts l e q1) as Rp.
      destruct (Client.report _ _ _ e q1) as [o q2].
      destruct Rp as (R1 & R2 & R3 & _).
      page_run. rewrite R2, R3. auto. }
  unfold Client.stopSpeaking.
  destruct (Client.speechSynthesis_in_window browser); page_run; rewrite F;
    destruct (Client.textarea_mounted browser); apply X.
Qed.


(** X21. [sendMessage] changes the thread id, in the state or in
    storage, only to the [threadId] of the answer to a request it posted
    to [/api/chat], and only if that answer carries no [error]; a
    rejected request and an answer with an [error] leave both as they
    were. *)
Theorem thread_id_only_from_an_answer (p : Client.Page) :
  Client.thread_from_answer browser p (snd (sendMessage p)).
Proof.
  destruct (Client.activeRun p || Client.blank (Client.input p)) eqn:G.
  - unfold Client.sendMessage, Client.bind, Client.get. rewrite G. left. split; reflexivity.
  - apply orb_false_elim in G as [G1 G2].
    pose proof (sendMessage_facts p G1 G2) as H.
    destruct (sendMessage p) as [o p']. apply H.
Qed.

(** X22. The first save of [sendMessage] is outside its [try]: when
    storage refuses it, the call throws before any request is posted and
    its [finally] never runs, so [activeRun] stays set and every later
    call of [sendMessage] on that page does nothing. *)
Theorem refused_storage_leaves_run_active (p : Client.Page) (e : Client.Caught) :
  Client.activeRun p = false ->
  Client.blank (Client.input p) = false ->
  (forall sent, Client.storage_fault browser sent = Some e) ->
  exists p',
    sendMessage p = (Client.Raise e, p')
    /\ Client.activeRun p' = true
    /\ Client.number Client.is_post (Client.calls p')
       = Client.number Client.is_post (Client.calls p)
    /\ sendMessage p' = (Client.Done tt, p').
Proof.
  intros G1 G2 F. unfold Client.sendMessage at 1, Client.bind at 1, Client.get.
  rewrite G1, G2. cbn [orb]. unfold Client.stopSpeaking.
  destruct (Client.speechSynthesis_in_window browser); page_run; rewrite F;
    (eexists; split; [reflexivity|]; split; [reflexivity|]; split;
     [ cbn [Client.calls Client.called]; rewrite !number_app; cbn; lia
     | reflexivity ]).
Qed.

(** X23. After a completed turn, a reload of the page restores the
    displayed history from storage, provided storage can be read and
    the engine parses what it serialised. *)
Theorem reload_restores_history (p p' : Client.Page) :
  Client.activeRun p = false ->
  Client.blank (Client.input p) = false ->
  (forall sent, Client.storage_fault browser sent = None) ->
  sendMessage p = (Client.Done tt, p') ->
  JSON_stringify engine (JsArray (Client.messages p')) <> [] ->
  JSON_parse engine (JSON_stringify engine (JsArray (Client.messages p')))
  = Normal (JsArray (Client.messages p')) ->
  exists q,
    loadFromStorage (Client.reloaded p') = (Client.Done tt, q)
    /\ Client.messages q = Client.messages p'
    /\ Client.isLoading q = false.
Proof.
  intros G1 G2 F E N RT. pose proof (sendMessage_facts p G1 G2) as H.
  rewrite E in H. destruct H as [_ H].
  destruct (H eq_refl) as (ts & answer & M & _ & St & _).
  destruct (load_facts (Client.reloaded p') F) as (q & L & Il & Lm & _).
  exists q. split; [exact L|]. split; [|exact Il].
  rewrite Lm. unfold Client.found_history. cbn [Client.reloaded Client.storage]. rewrite St.
  destruct (JSON_stringify engine (JsArray (Client.messages p'))) as [|c text] eqn:S;
    [contradiction|].
  rewrite RT. destruct (Client.messages p') as [|m ms]; [|reflexivity].
  destruct (Client.messages p); discriminate M.
Qed.

(** X24. When storage works and the answer carries a non-empty
    string as thread id and no [error], the page holds that id after the
    turn and a reload restores it from storage, whether or not speaking
    the reply failed. *)
Theorem session_survives_reload (p : Client.Page) (data : JsValue) (c : code_unit)
    (s : jsstring) :
  Client.activeRun p = false ->
  Client.blank (Client.input p) = false ->
  (forall sent, Client.storage_fault browser sent = None) ->
  (forall sent, Client.axios_post browser sent = Client.Done data) ->
  truthy (property data (u16 "error")) = false ->
  property data (u16 "threadId") = JsString (c :: s) ->
  exists q,
    Client.threadId (snd (sendMessage p)) = JsString (c :: s)
    /\ loadFromStorage (Client.reloaded (snd (sendMessage p))) = (Client.Done tt, q)
    /\ Client.threadId q = JsString (c :: s).
Proof.
  intros G1 G2 F A T Th.
  pose proof (sendMessage_answered p data c s G1 G2 F A T Th) as H.
  destruct (sendMessage p) as [o p']. destruct H as [H1 H2]. cbn [snd].
  destruct (load_facts (Client.reloaded p') F) as (q & L & _ & _ & Lt & _).
  exists q. split; [exact H1|]. split; [exact L|].
  rewrite Lt. unfold Client.found_thread. cbn [Client.reloaded Client.storage]. now rewrite H2.
Qed.

(** X25. The load never throws and always ends the loading state,
    whatever storage holds and whether or not storage can be read. *)
Theorem load_never_throws (p : Client.Page) :
  exists q, loadFromStorage p = (Client.Done tt, q) /\ Client.isLoading q = false.
Proof.
  unfold Client.loadFromStorage, Client.try_catch_finally. page_run.
  page_cases; eauto.
Qed.

(** X26. When storage works, a stored history that does not parse is
    removed from storage by the load; the displayed history and the
    stored thread id are left as they were. *)
Theorem corrupted_history_is_dropped (p : Client.Page) (c : code_unit) (text : jsstring)
  (parseError : Thrown) :
  (forall sent, Client.storage_fault browser sent = None) ->
  Client.stored Client.chatHistory (Client.storage p) = Some (c :: text) ->
  JSON_parse engine (c :: text) = Throw parseError ->
  exists q,
    loadFromStorage p = (Client.Done tt, q)
    /\ Client.stored Client.chatHistory (Client.storage q) = None
    /\ Client.messages q = Client.messages p
    /\ Client.stored Client.threadId_key (Client.storage q)
       = Client.stored Client.threadId_key (Client.storage p).
Proof.
  intros F St Pe. destruct (load_facts p F) as (q & L & _ & Lm & _ & Ls).
  exists q. split; [exact L|].
  unfold Client.found_history in Lm. unfold Client.corrupted in Ls. rewrite St, Pe in Lm, Ls.
  rewrite Ls, Lm. storage_simpl. auto.
Qed.

(** X27. The load runs twice when the component mounts; when storage
    works, the second run changes neither the history, nor the thread
    id, nor storage. *)
Theorem second_load_changes_nothing (p q q' : Client.Page) :
  (forall sent, Client.storage_fault browser sent = None) ->
  loadFromStorage p = (Client.Done tt, q) ->
  loadFromStorage q = (Client.Done tt, q') ->
  Client.messages q' = Client.messages q
  /\ Client.threadId q' = Client.threadId q
  /\ Client.storage q' = Client.storage q.
Proof.
  intros F L1 L2.
  destruct (load_facts p F) as (q0 & L & _ & Lm & Lt & Ls). rewrite L1 in L. injection L as <-.
  destruct (load_facts q F) as (q0 & L & _ & Lm' & Lt' & Ls'). rewrite L2 in L. injection L as <-.
  assert (C : Client.corrupted engine q = false).
  { unfold Client.corrupted. rewrite Ls. unfold Client.corrupted.
    destruct (Client.stored Client.chatHistory (Client.storage p)) as [[|c text]|] eqn:St;
      rewrite ?St; try reflexivity.
    destruct (JSON_parse engine (c :: text)) eqn:Pe; [now rewrite St, Pe|].
    now rewrite stored_remove_same. }
  rewrite C in Ls'. split; [|split; [|exact Ls']].
  - rewrite Lm'. unfold Client.found_history. rewrite Ls. unfold Client.corrupted.
    destruct (Client.stored Client.chatHistory (Client.storage p)) as [[|c text]|] eqn:St;
      rewrite ?St; try reflexivity.
    destruct (JSON_parse engine (c :: text)) as [[| | | | |[|m ms]|]|] eqn:Pe;
      rewrite ?St, ?Pe, ?stored_remove_same; try reflexivity.
    rewrite Lm. unfold Client.found_history. now rewrite St, Pe.
  - rewrite Lt'. unfold Client.found_thread.
    assert (T : Client.stored Client.threadId_key (Client.storage q)
                = Client.stored Client.threadId_key (Client.storage p)).
    { rewrite Ls. destruct (Client.corrupted engine p); [now storage_simpl|reflexivity]. }
    rewrite T.
    destruct (Client.stored Client.threadId_key (Client.storage p)) as [[|c thread]|] eqn:St;
      try reflexivity.
    rewrite Lt. unfold Client.found_thread. now rewrite St.
Qed.

(** X28. When storage works, after the clear button the history is
    empty and the thread id is [null], and they stay so across a
    reload. *)
Theorem clear_forgets_session (p : Client.Page) :
  (forall sent, Client.storage_fault browser sent = None) ->
  exists q q',
    Client.clear browser p = (Client.Done tt, q)
    /\ Client.messages q = []
    /\ Client.threadId q = JsNull
    /\ loadFromStorage (Client.reloaded q) = (Client.Done tt, q')
    /\ Client.messages q' = []
    /\ Client.threadId q' = JsNull.
Proof.
  intros F. unfold Client.clear. page_run. rewrite !F. page_run.
  match goal with |- context [(Client.Done tt, ?q)] => set (cleared := q) end.
  destruct (load_facts (Client.reloaded cleared) F) as (q' & L & _ & Lm & Lt & _).
  exists cleared, q'. repeat split; try reflexivity; try exact L.
  - rewrite Lm. unfold Client.found_history. subst cleared.
    cbn [Client.reloaded Client.storage Client.with_storage Client.called].
    storage_simpl. reflexivity.
  - rewrite Lt. unfold Client.found_thread. subst cleared.
    cbn [Client.reloaded Client.storage Client.with_storage Client.called].
    storage_simpl. reflexivity.
Qed.

End ChatPage.

(** ** The further scenarios, run *)



Lemma failed_search_is_reported_witness :
  Chat.handle_tool_call Scenario.engine Scenario.env (fetching search_failure)
    Scenario.good_call []
  = (Normal
       (mkToolOutput (u16 "call_1")
          (JSON_stringify Scenario.engine
             (JsObject [ (u16 "error", JsString (u16 "Search failed: 500"));
                         (u16 "results", JsArray []) ]))),
     [ Fetch (u16 "http://localhost:3000/api/search")
         (JSON_stringify Scenario.engine
            (JsObject
               [ (u16 "query", JsString (u16 "AI adoption Jamaica"));
                 (u16 "max_results", JsNumber 3);
                 (u16 "include_domains", JsArray [ JsString (u16 "ey.com") ]) ]));
       ConsoleError (Search_endpoint_error (u16 "upstream failed"));
       ConsoleError (Search_execution_error (JsString (u16 "Search failed: 500"))) ]).
Proof.
  exact (failed_search_is_reported Scenario.engine Scenario.env (fetching search_failure)
           Scenario.good_call []
           [ (u16 "query", JsString (u16 "AI adoption Jamaica")) ]
           search_failure (u16 "upstream failed")
           eq_refl eq_refl eq_refl eq_refl eq_refl).
Defined.


Lemma null_arguments_make_no_request_witness :
  snd (Chat.handle_tool_call (decoding (u16 "null") JsNull) Scenario.env Scenario.stuck
         null_call [])
  = [ ConsoleError
        (Search_execution_error
           (JsString (u16 "Cannot read properties of null (reading 'query')"))) ].
Proof.
  pose proof (null_arguments_make_no_request (decoding (u16 "null") JsNull) Scenario.env
                Scenario.stuck null_call [] eq_refl eq_refl) as E.
  cbv zeta in E. rewrite E. reflexivity.
Defined.

Lemma query_is_required_witness :
  run (SearchRoute.POST Scenario.engine Scenario.env Scenario.stuck
         (Normal (SearchRoute.mkSearchRequest (JsString []) JsUndefined JsUndefined)))
  = (Normal
       (mkResponse (JsObject [ (u16 "error", JsString (u16 "Query required")) ]) 400 []),
     [])
  /\ run (SearchRouteEy.POST Scenario.engine Scenario.env Scenario.stuck
            (Normal (SearchRoute.mkSearchRequest (JsString []) JsUndefined JsUndefined)))
     = (Normal
          (mkResponse (JsObject [ (u16 "error", JsString (u16 "Query required")) ]) 400 []),
        []).
Proof.
  exact (query_is_required Scenario.engine Scenario.env Scenario.stuck
           (SearchRoute.mkSearchRequest (JsString []) JsUndefined JsUndefined) eq_refl).
Defined.

Lemma provider_key_is_required_witness :
  run (SearchRoute.POST Scenario.engine env_without_search_key Scenario.stuck
         (Normal Scenario.search_everywhere))
  = (Normal
       (mkResponse (JsObject [ (u16 "error", JsString (u16 "Tavily API key missing")) ])
          500 []),
     [])
  /\ run (SearchRouteEy.POST Scenario.engine env_without_search_key Scenario.stuck
            (Normal Scenario.search_everywhere))
     = (Normal
          (mkResponse (JsObject [ (u16 "error", JsString (u16 "Tavily API key missing")) ])
             500 []),
        []).
Proof.
  exact (provider_key_is_required Scenario.engine env_without_search_key Scenario.stuck
           Scenario.search_everywhere eq_refl eq_refl).
Defined.

Lemma provider_failure_is_reported_witness :
  fst (run (SearchRoute.POST Scenario.engine Scenario.env (fetching search_failure)
              (Normal Scenario.search_everywhere)))
  = Normal
      (mkResponse
         (JsObject [ (u16 "error", JsString (u16 "Tavily API error: 500")) ])
         500 [ (SearchRoute.Cache_Control, u16 "no-cache") ])
  /\ snd (run (SearchRouteEy.POST Scenario.engine Scenario.env (fetching search_failure)
                 (Normal Scenario.search_everywhere)))
     = [ second_handler_sends Scenario.engine Scenario.env Scenario.search_everywhere;
         ConsoleError (Tavily_API_error (u16 "upstream failed")) ].
Proof.
  destruct (provider_failure_is_reported Scenario.engine Scenario.env
              (fetching search_failure) Scenario.search_everywhere search_failure
              (u16 "upstream failed") eq_refl eq_refl eq_refl eq_refl)
    as [H1 H2].
  rewrite (H1 eq_refl eq_refl), (H2 eq_refl eq_refl). split; reflexivity.
Defined.

Lemma provider_success_is_normalised_witness :
  fst (run (SearchRoute.POST Scenario.engine Scenario.env Scenario.stuck
              (Normal Scenario.search_everywhere)))
  = Normal
      (mkResponse
         (JsObject [ (u16 "results", JsArray [ JsString (u16 "r1") ]);
                     (u16 "answer", JsString (u16 "Adoption is rising.")) ])
         200 [ (SearchRoute.Cache_Control, search_cacheable) ])
  /\ fst (run (SearchRouteEy.POST Scenario.engine Scenario.env Scenario.stuck
                 (Normal Scenario.search_everywhere)))
     = Normal
         (mkResponse
            (JsObject [ (u16 "results", JsArray [ JsString (u16 "r1") ]);
                        (u16 "answer", JsString (u16 "Adoption is rising.")) ])
            200 [ (SearchRoute.Cache_Control, search_cacheable) ]).
Proof.
  destruct (provider_success_is_normalised Scenario.engine Scenario.env Scenario.stuck
              Scenario.search_everywhere Scenario.search_hit
              [ (u16 "results", JsArray [ JsString (u16 "r1") ]);
                (u16 "answer", JsString (u16 "Adoption is rising.")) ]
              eq_refl eq_refl eq_refl eq_refl eq_refl)
    as (H1 & H2 & _).
  rewrite (H1 eq_refl eq_refl), (H2 eq_refl eq_refl). split; reflexivity.
Defined.

Lemma handlers_agree_on_allow_lists_witness :
  SearchRoute.POST Scenario.engine Scenario.env Scenario.stuck
    (Normal (SearchRoute.mkSearchRequest (JsString (u16 "AI adoption Jamaica"))
               JsUndefined (JsArray [ JsString (u16 "ey.com") ]))) []
  = SearchRouteEy.POST Scenario.engine Scenario.env Scenario.stuck
      (Normal (SearchRoute.mkSearchRequest (JsString (u16 "AI adoption Jamaica"))
                 JsUndefined (JsArray [ JsString (u16 "ey.com") ]))) [].
Proof.
  exact (handlers_agree_on_allow_lists Scenario.engine Scenario.env Scenario.stuck
           (SearchRoute.mkSearchRequest (JsString (u16 "AI adoption Jamaica"))
              JsUndefined (JsArray [ JsString (u16 "ey.com") ]))
           (JsString (u16 "ey.com")) [] [] eq_refl).
Defined.

Lemma marker_after_plain_text_is_removed_witness :
  Citation.strip_markers
    (u16 "Growth" ++ marker_text (u16 "4") (u16 "0") (u16 "source") ++ u16 " rose.")
  = u16 "Growth" ++ Citation.strip_markers (u16 " rose.").
Proof.
  apply marker_after_plain_text_is_removed.
  - repeat (constructor; [discriminate|]). constructor.
  - split; [discriminate|]. repeat (constructor; [reflexivity|]). constructor.
  - split; [discriminate|]. repeat (constructor; [reflexivity|]). constructor.
  - discriminate.
  - repeat (constructor; [discriminate|]). constructor.
Defined.

Lemma text_without_brackets_is_unchanged_witness :
  Citation.strip_markers (u16 "Growth rose.") = u16 "Growth rose.".
Proof.
  apply text_without_brackets_is_unchanged. left.
  repeat (constructor; [discriminate|]). constructor.
Defined.


Lemma refused_storage_leaves_run_active_witness :
  exists p',
    Client.sendMessage Visit.engine Visit.storage_full Visit.asking
    = (Client.Raise Visit.QuotaExceededError, p')
    /\ Client.activeRun p' = true
    /\ Client.number Client.is_post (Client.calls p')
       = Client.number Client.is_post (Client.calls Visit.asking)
    /\ Client.sendMessage Visit.engine Visit.storage_full p' = (Client.Done tt, p').
Proof.

  apply (refused_storage_leaves_run_active Visit.engine Visit.storage_full Visit.asking);
    first [intros sent; reflexivity | vm_compute; reflexivity].
Defined.

Lemma reload_restores_history_witness :
  Client.messages (snd (Client.sendMessage Visit.engine Visit.online Visit.asking))
  = Visit.history
  /\ exists q,
       Client.loadFromStorage Visit.engine Visit.online
         (Client.reloaded (snd (Client.sendMessage Visit.engine Visit.online Visit.asking)))
       = (Client.Done tt, q)
       /\ Client.messages q
          = Client.messages (snd (Client.sendMessage Visit.engine Visit.online Visit.asking))
       /\ Client.isLoading q = false.
Proof.

  split; [vm_compute; reflexivity|].
  apply (reload_restores_history Visit.engine Visit.online Visit.asking);
    first [intros sent; reflexivity | vm_compute; reflexivity | vm_compute; discriminate].
Defined.

Lemma session_survives_reload_witness :
  exists q,
    Client.threadId (snd (Client.sendMessage Visit.engine Visit.online Visit.asking))
    = JsString (u16 "thread_1")
    /\ Client.loadFromStorage Visit.engine Visit.online
         (Client.reloaded (snd (Client.sendMessage Visit.engine Visit.online Visit.asking)))
       = (Client.Done tt, q)
    /\ Client.threadId q = JsString (u16 "thread_1").
Proof.

  apply (session_survives_reload Visit.engine Visit.online Visit.asking Visit.answer);
    first [intros sent; reflexivity | vm_compute; reflexivity].
Defined.

Lemma corrupted_history_is_dropped_witness :
  exists q,
    Client.loadFromStorage Visit.engine Visit.online Visit.truncated = (Client.Done tt, q)
    /\ Client.stored Client.chatHistory (Client.storage q) = None
    /\ Client.messages q = Client.messages Visit.truncated
    /\ Client.stored Client.threadId_key (Client.storage q)
       = Client.stored Client.threadId_key (Client.storage Visit.truncated).
Proof.

  apply (corrupted_history_is_dropped Visit.engine Visit.online Visit.truncated
           91%N [123%N] Scenario.SyntaxError);
    first [intros sent; reflexivity | vm_compute; reflexivity].
Defined.

Lemma second_load_changes_nothing_witness :
  Client.messages
    (snd (Client.loadFromStorage Visit.engine Visit.online
            (snd (Client.loadFromStorage Visit.engine Visit.online Visit.truncated))))
  = Client.messages (snd (Client.loadFromStorage Visit.engine Visit.online Visit.truncated))
  /\ Client.threadId
       (snd (Client.loadFromStorage Visit.engine Visit.online
               (snd (Client.loadFromStorage Visit.engine Visit.online Visit.truncated))))
     = Client.threadId (snd (Client.loadFromStorage Visit.engine Visit.online Visit.truncated))
  /\ Client.storage
       (snd (Client.loadFromStorage Visit.engine Visit.online
               (snd (Client.loadFromStorage Visit.engine Visit.online Visit.truncated))))
     = Client.storage (snd (Client.loadFromStorage Visit.engine Visit.online Visit.truncated)).
Proof.

  apply (second_load_changes_nothing Visit.engine Visit.online Visit.truncated);
    first [intros sent; reflexivity | vm_compute; reflexivity].
Defined.

Lemma clear_forgets_session_witness :
  exists q q',
    Client.clear Visit.online
      (snd (Client.sendMessage Visit.engine Visit.online Visit.asking))
    = (Client.Done tt, q)
    /\ Client.messages q = []
    /\ Client.threadId q = JsNull
    /\ Client.loadFromStorage Visit.engine Visit.online (Client.reloaded q)
       = (Client.Done tt, q')
    /\ Client.messages q' = []
    /\ Client.threadId q' = JsNull.
Proof.

  apply (clear_forgets_session Visit.engine Visit.online);
    first [intros sent; reflexivity | vm_compute; reflexivity].
Defined.

